(** * X-FACT data preparation: evidence processor, feature converters and
      the year-filter script

    A shallow embedding of

    - [transformers/examples/text-classification/xfact_evidence.py]
      (the row-to-example builder, the per-source label vocabulary, the
      train/dev/test loaders and the two feature converters), and
    - [data/x-fact-including-en/eda.py] (the year filter over a data frame).

    Python values are modelled as follows.  A [str] is a [string]; the
    methods [str.lower] and [str.strip] are library code over Unicode text
    and are parameters of the development (the class [Str]); their ASCII
    versions serve for the examples only.  A Python list is a [list], read
    with Python's indexing (negative
    indices count from the end, out of range raises [IndexError]).  A [dict]
    is a [gmap], a [set] a [gset].  Exceptions are values of [exn], carried
    by [result].  The processor object, the standard output and the state of
    the random generator form the [World] threaded through the methods. *)

From Stdlib Require Import ZArith String Ascii List Sorted Permutation Lia.
From stdpp Require Import base tactics option list gmap strings sorting pretty.

Local Open Scope string_scope.
Local Open Scope list_scope.
Local Open Scope Z_scope.

(** ** Exceptions and results *)

Inductive exn : Type :=
  | IndexError
  | KeyError
  | ValueError
  | AttributeError
  | TypeError
  | FileNotFoundError.

Inductive result (A : Type) : Type :=
  | Ok (a : A)
  | Raise (e : exn).
Arguments Ok {A} a.
Arguments Raise {A} e.

Definition is_ok {A} (r : result A) : bool :=
  match r with Ok _ => true | Raise _ => false end.

#[global] Instance exn_eq_dec : EqDecision exn.
Proof. solve_decision. Defined.

#[global] Instance result_ret : MRet result := fun _ a => Ok a.
#[global] Instance result_fmap : FMap result := fun _ _ f r =>
  match r with Ok a => Ok (f a) | Raise e => Raise e end.
#[global] Instance result_bind : MBind result := fun _ _ f r =>
  match r with Ok a => f a | Raise e => Raise e end.

(** A comprehension or [for] loop whose body may raise: left to right,
    stopping at the first exception. *)
Fixpoint for_each {A B} (f : A → result B) (l : list A) : result (list B) :=
  match l with
  | [] => Ok []
  | x :: l' => y ← f x; ys ← for_each f l'; mret (y :: ys)
  end.

(** ** Python lists and strings *)

(** [l[i]] for a Python list: a negative index counts from the end. *)
Definition py_index {A} (l : list A) (i : Z) : result A :=
  let n := Z.of_nat (length l) in
  let j := if i <? 0 then n + i else i in
  if j <? 0 then Raise IndexError
  else match l !! Z.to_nat j with
       | Some x => Ok x
       | None => Raise IndexError
       end.

(** [str.lower()] and [str.strip()] are methods of Python's [str]: they
    work on Unicode text (every cased letter, every Unicode white space).
    The program is modelled over any two such functions; nothing below
    depends on what they compute. *)
Class Str : Type := {
  lower : string → string;
  strip : string → string
}.

(** The two methods on ASCII text, where [A]..[Z] go to [a]..[z] and white
    space is tab, line feed, vertical tab, form feed, carriage return, the
    four separators 28..31 and the space.  They are used for the worked
    examples, whose texts are ASCII. *)
Definition ascii_lower_char (c : ascii) : ascii :=
  let n := nat_of_ascii c in
  if ((65 <=? n) && (n <=? 90))%nat then ascii_of_nat (n + 32) else c.

Fixpoint ascii_lower (s : string) : string :=
  match s with
  | EmptyString => EmptyString
  | String c s' => String (ascii_lower_char c) (ascii_lower s')
  end.

Definition is_space (c : ascii) : bool :=
  let n := nat_of_ascii c in
  (((9 <=? n) && (n <=? 13)) || ((28 <=? n) && (n <=? 32)))%nat.

Fixpoint ascii_lstrip (s : string) : string :=
  match s with
  | EmptyString => EmptyString
  | String c s' => if is_space c then ascii_lstrip s' else s
  end.

Fixpoint ascii_rstrip (s : string) : string :=
  match s with
  | EmptyString => EmptyString
  | String c s' =>
      match ascii_rstrip s' with
      | EmptyString => if is_space c then EmptyString else String c EmptyString
      | r => String c r
      end
  end.

Definition ascii_strip (s : string) : string := ascii_rstrip (ascii_lstrip s).

Definition ascii_str : Str := {| lower := ascii_lower; strip := ascii_strip |}.

(** [enumerate(l)]. *)
Definition enumerate {A} (l : list A) : list (nat * A) := imap pair l.

(** [os.path.join(a, b)] on POSIX paths. *)
Definition ends_with_slash (a : string) : bool :=
  match String.rev a with
  | String c _ => bool_decide (c = "/"%char)
  | EmptyString => false
  end.

Definition path_join (a b : string) : string :=
  if String.prefix "/" b then b
  else if bool_decide (a = "") || ends_with_slash a then a +:+ b
  else a +:+ "/" +:+ b.

(** ** Data model *)

(** One parsed line of a tab separated file. *)
Abbreviation RawRow := (list string).

Module InputExample.
Record t : Type := mk {
    example_id : string;
    question : string;
    contexts : list string;
    label : option string
  }.
End InputExample.

Module InputFeatures.
Record t : Type := mk {
    example_id : string;
    input_ids : list (list Z);
    attention_mask : option (list (list Z));
    token_type_ids : option (list (list Z));
    label : option nat
  }.
End InputFeatures.

Section Rows.

Context {str : Str}.

(** [get_metadata(line)]; the five fields are read in the order of the
    source, so the first missing one raises. *)
Definition get_metadata (line : RawRow) : result string :=
  claimant ← strip <$> py_index line (-3);
  review_date ← strip <$> py_index line (-4);
  language ← strip <$> py_index line 0;
  site ← strip <$> py_index line 1;
  claim_date ← strip <$> py_index line (-5);
  mret ("language : " +:+ language +:+ ", site : " +:+ site
        +:+ ", claimant : " +:+ claimant +:+ ", claim_date : " +:+ claim_date
        +:+ ", review_date: " +:+ review_date).

(** [create_example(self, line)]: the evidence window starts at column 2,
    the claim and the label are the last two fields. *)
Definition create_example (num_evidences : nat) (line : RawRow)
  : result (list string * string * string * string) :=
  evidences ← for_each (λ i : nat, py_index line (2 + Z.of_nat i))
                       (seq 0 num_evidences);
  claim_text ← py_index line (-2);
  label ← lower <$> py_index line (-1);
  metadata ← get_metadata line;
  mret (evidences, claim_text, label, metadata).

End Rows.

Example create_example_row :
  create_example (str := ascii_str) 2
    ["bn"; "site"; "e1"; "e2"; "cd"; " rd "; "who"; "claim"; "TRUE"]
  = Ok (["e1"; "e2"], "claim", "true",
        "language : bn, site : site, claimant : who, claim_date : cd, review_date: rd").
Proof. reflexivity. Qed.

(** ** The processor object *)

(** A per-source label collection: the [set] filled while the training files
    are scanned, or the sorted [list] that [sort_label_set] puts in its
    place. *)
Inductive LabelColl : Type :=
  | LSet (s : gset string)
  | LList (l : list string).

(** [label in coll], for either kind of collection. *)
Definition coll_mem (x : string) (c : LabelColl) : bool :=
  match c with
  | LSet s => bool_decide (x ∈ s)
  | LList l => bool_decide (x ∈ l)
  end.

Record XFactEvidenceProcessor : Type := mkProcessor {
  sources : option (list string);
  label_sets : gmap string LabelColl;
  label_count : gmap string (gmap string Z);
  num_evidences : nat;
  use_metadata : bool
}.

(** What the [print] calls write. *)
Inductive printed : Type :=
  | P_loading_file (input_file : string)
  | P_loading_train (source : string)
  | P_examples_loaded (source : string) (n : nat)
  | P_examples (examples : list InputExample.t)
  | P_dev_skipped (source : string) (examples_skipped left : nat)
  | P_dev_file_skipped (filename : string) (examples_skipped left : nat)
  | P_test_skipped (source : string) (examples_skipped left : nat)
  | P_label_counts_header
  | P_label_counts (counts : gmap string (gmap string Z)).

(** [sorted(list(val))]: strings are compared by code point, which is the
    order [String.le]; a set is listed in an order of its own first. *)
Definition sorted_list (c : LabelColl) : list string :=
  match c with
  | LSet s => merge_sort String.le (elements s)
  | LList l => merge_sort String.le l
  end.

Section Processor.

Context {str : Str}.

  (** [random.shuffle] is library code: it is a parameter, together with the
      type of the generator's state. *)
Variable rng_state : Type.
Variable random_shuffle :
    rng_state → list InputExample.t → rng_state * list InputExample.t.

Record World : Type := mkWorld {
    self : XFactEvidenceProcessor;
    files : gmap string (list RawRow);
    stdout : list printed;
    rng : rng_state
  }.

  (** Methods run in a state monad over [World] with exceptions; the state
      reached when an exception is raised is kept. *)
Definition M (A : Type) : Type := World → World * result A.

#[global] Instance M_ret : MRet M := fun _ a w => (w, Ok a).
#[global] Instance M_bind : MBind M := fun _ _ f m w =>
    match m w with
    | (w', Ok a) => f a w'
    | (w', Raise e) => (w', Raise e)
    end.

Definition raise {A} (e : exn) : M A := fun w => (w, Raise e).
Definition lift {A} (r : result A) : M A := fun w => (w, r).
Definition get_self : M XFactEvidenceProcessor := fun w => (w, Ok (self w)).
Definition set_self (p : XFactEvidenceProcessor) : M unit := fun w =>
    (mkWorld p (files w) (stdout w) (rng w), Ok tt).
Definition print (x : printed) : M unit := fun w =>
    (mkWorld (self w) (files w) (stdout w ++ [x]) (rng w), Ok tt).
Definition shuffle (l : list InputExample.t) : M (list InputExample.t) :=
    fun w => let '(g, l') := random_shuffle (rng w) l in
             (mkWorld (self w) (files w) (stdout w) g, Ok l').

Definition set_label_sets (ls : gmap string LabelColl) : M unit :=
    p ← get_self;
    set_self (mkProcessor (sources p) ls (label_count p)
                          (num_evidences p) (use_metadata p)).
Definition set_label_count (lc : gmap string (gmap string Z)) : M unit :=
    p ← get_self;
    set_self (mkProcessor (sources p) (label_sets p) lc
                          (num_evidences p) (use_metadata p)).

  (** [self.label_sets[source]] and [self.label_count[source]]. *)
Definition get_label_set (source : string) : M LabelColl :=
    p ← get_self;
    match label_sets p !! source with
    | Some c => mret c
    | None => raise KeyError
    end.
Definition get_label_count (source : string) : M (gmap string Z) :=
    p ← get_self;
    match label_count p !! source with
    | Some c => mret c
    | None => raise KeyError
    end.

  (** [DataProcessor._read_tsv]: the parsed rows of the file, header
      included. *)
Definition read_file (input_file : string) : M (list RawRow) := fun w =>
    match files w !! input_file with
    | Some rows => (w, Ok rows)
    | None => (w, Raise FileNotFoundError)
    end.
Definition _read_tsv (input_file : string) : M (list RawRow) :=
    print (P_loading_file input_file);;
    read_file input_file.

  (** [self.label_sets[source].add(label)]: only a [set] has [add]. *)
Definition label_set_add (source label : string) : M unit :=
    c ← get_label_set source;
    match c with
    | LSet s => p ← get_self;
                set_label_sets (<[source := LSet ({[label]} ∪ s)]> (label_sets p))
    | LList _ => raise AttributeError
    end.

  (** The tally of lines 147-149. *)
Definition count_label (source label : string) : M unit :=
    c ← get_label_count source;
    let c0 := match c !! label with Some _ => c | None => <[label := 0]> c end in
    p ← get_self;
    set_label_count
      (<[source := <[label := default 0 (c0 !! label) + 1]> c0]> (label_count p)).

(** Lines 138 and 151-158: the guid and the [InputExample] of row [i];
    every loader writes the guid with the prefix [train]. *)
Definition make_example (use_metadata : bool) (i : nat)
      (evidences : list string) (claim_text label metadata : string)
    : InputExample.t :=
    let guid := "train-" +:+ pretty i in
    let claim_text :=
      if use_metadata then claim_text +:+ " " +:+ metadata else claim_text in
    InputExample.mk guid claim_text evidences (Some label).

  (** The loop of [get_train_examples] over [enumerate(lines)]. *)
Fixpoint train_loop (source : string) (create_label_set : bool)
      (lines : list (nat * RawRow)) (examples : list InputExample.t)
    : M (list InputExample.t) :=
    match lines with
    | [] => mret examples
    | (i, line) :: rest =>
        if (i =? 0)%nat then train_loop source create_label_set rest examples
        else if (length line =? 0)%nat
        then train_loop source create_label_set rest examples
        else
          p ← get_self;
          '(evidences, claim_text, label, metadata) ←
            lift (create_example (num_evidences p) line);
          (if create_label_set then label_set_add source label
           else
             c ← get_label_set source;
             if coll_mem label c then mret tt else raise ValueError);;
          count_label source label;;
          train_loop source create_label_set rest
            (examples ++ [make_example (use_metadata p) i evidences
                            claim_text label metadata])
    end.

Definition get_train_examples (data_dir source : string)
      (create_label_set : bool) : M (list InputExample.t) :=
    print (P_loading_train source);;
    p ← get_self;
    (if bool_decide (source ∈ dom (label_sets p)) then mret tt
     else
       set_label_sets (<[source := LSet ∅]> (label_sets p));;
       p ← get_self;
       set_label_count (<[source := ∅]> (label_count p)));;
    lines ← _read_tsv (path_join data_dir ("train." +:+ source +:+ ".tsv"));
    examples ← train_loop source create_label_set (enumerate lines) [];
    print (P_examples_loaded source (length examples));;
    examples ← shuffle examples;
    print (P_examples (take 5 examples));;
    mret examples.

  (** The loop shared by [get_dev_examples] and [get_test_examples]: it
      threads [examples] and [examples_skipped]. *)
Fixpoint filtered_loop (source : string) (lines : list (nat * RawRow))
      (examples : list InputExample.t) (examples_skipped : nat)
    : M (list InputExample.t * nat) :=
    match lines with
    | [] => mret (examples, examples_skipped)
    | (i, line) :: rest =>
        if (i =? 0)%nat then filtered_loop source rest examples examples_skipped
        else if (length line =? 0)%nat
        then filtered_loop source rest examples examples_skipped
        else
          p ← get_self;
          '(evidences, claim_text, label, metadata) ←
            lift (create_example (num_evidences p) line);
          c ← get_label_set source;
          if negb (coll_mem label c)
          then filtered_loop source rest examples (examples_skipped + 1)%nat
          else filtered_loop source rest
                 (examples ++ [make_example (use_metadata p) i evidences
                            claim_text label metadata])
                 examples_skipped
    end.

Definition get_dev_examples (data_dir source : string)
      (filename : option string) : M (list InputExample.t) :=
    lines ← match filename with
            | None => _read_tsv (path_join data_dir ("dev." +:+ source +:+ ".tsv"))
            | Some f => _read_tsv (path_join data_dir f)
            end;
    '(examples, examples_skipped) ← filtered_loop source (enumerate lines) [] 0%nat;
    match filename with
    | None => print (P_dev_skipped source examples_skipped (length examples))
    | Some f => print (P_dev_file_skipped f examples_skipped (length examples))
    end;;
    mret examples.

Definition get_test_examples (data_dir source : string)
    : M (list InputExample.t) :=
    lines ← _read_tsv (path_join data_dir ("test." +:+ source +:+ ".tsv"));
    '(examples, examples_skipped) ← filtered_loop source (enumerate lines) [] 0%nat;
    print (P_test_skipped source examples_skipped (length examples));;
    mret examples.

  (** [sort_label_set]: every collection becomes its sorted list. *)
Definition sort_label_set : M unit :=
    p ← get_self;
    set_label_sets ((λ val, LList (sorted_list val)) <$> label_sets p).

Definition get_labels : M (gmap string LabelColl) :=
    sort_label_set;;
    p ← get_self;
    mret (label_sets p).

  (** [for source in self.sources: ...], run for its effects. *)
Fixpoint for_sources (body : string → M (list InputExample.t))
      (l : list string) : M unit :=
    match l with
    | [] => mret tt
    | source :: l' => body source;; for_sources body l'
    end.

  (** The constructor. *)
Definition __init__ (sources : option (list string)) (num_evidences : nat)
      (use_metadata : bool) (data_dir : option string) : M unit :=
    set_self (mkProcessor sources ∅ ∅ num_evidences use_metadata);;
    match data_dir with
    | Some d =>
        match sources with
        | Some l => for_sources (λ source, get_train_examples d source true) l
        | None => raise TypeError
        end
    | None => mret tt
    end;;
    print P_label_counts_header;;
    p ← get_self;
    print (P_label_counts (label_count p));;
    sort_label_set.

End Processor.

Arguments self {_} _.
Arguments files {_} _.
Arguments stdout {_} _.
Arguments rng {_} _.

(** ** The feature converters *)

(** What the tokenizer returns for one choice: [input_ids] always, the
    other keys when the tokenizer provides them. *)
Module BatchEncoding.
Record t : Type := mk {
    input_ids : list Z;
    attention_mask : option (list Z);
    token_type_ids : option (list Z);
    num_truncated_tokens : option Z
  }.
End BatchEncoding.

(** What the converters hand to [logger.info]. *)
Inductive logged : Type :=
  | L_writing_example (ex_index total : nat)
  | L_cropping_tokens
  | L_example_header
  | L_feature (f : InputFeatures.t).

(** The converters log and may raise: a writer over [result]. *)
Definition Logging (A : Type) : Type := (list logged * result A)%type.

#[global] Instance Logging_ret : MRet Logging := fun _ a => ([], Ok a).
#[global] Instance Logging_bind : MBind Logging := fun _ _ f m =>
  match m with
  | (l, Ok a) => let '(l', r) := f a in (l ++ l', r)
  | (l, Raise e) => (l, Raise e)
  end.

Definition logger_info (x : logged) : Logging unit := ([x], Ok tt).
Definition lift_result {A} (r : result A) : Logging A := ([], r).

(** [label_map = {label: i for i, label in enumerate(label_list)}]: a later
    occurrence of a label overwrites an earlier one. *)
Definition label_map_of (label_list : list string) : gmap string nat :=
  foldl (λ m '(i, label), <[label := i]> m) ∅ (enumerate label_list).

(** [label_map[example.label]]. *)
Definition label_map_lookup (label_map : gmap string nat)
    (label : option string) : result nat :=
  match label with
  | Some l => match label_map !! l with
              | Some i => Ok i
              | None => Raise KeyError
              end
  | None => Raise KeyError
  end.

(** ["num_truncated_tokens" in inputs and inputs["num_truncated_tokens"] > 0]. *)
Definition reports_truncation (inputs : BatchEncoding.t) : bool :=
  match BatchEncoding.num_truncated_tokens inputs with
  | Some n => 0 <? n
  | None => false
  end.

(** [[x[key] for x in choices_inputs] if key in choices_inputs[0] else None]:
    the test looks at the first choice only; the comprehension then needs
    the key in every choice. *)
Definition column_if_first {V} (key : BatchEncoding.t → option V)
    (choices_inputs : list BatchEncoding.t) : result (option (list V)) :=
  first ← py_index choices_inputs 0;
  match key first with
  | Some _ =>
      Some <$> for_each (λ x, match key x with
                              | Some v => Ok v
                              | None => Raise KeyError
                              end) choices_inputs
  | None => Ok None
  end.

Section Converters.

  (** The tokenizer is a collaborator: [tokenizer text_a text_b max_length]
      stands for the call with [add_special_tokens=True],
      [padding="max_length"], [truncation=True] and
      [return_overflowing_tokens=True]. *)
Variable tokenizer : string → option string → nat → BatchEncoding.t.

Definition log_if_truncated (inputs : BatchEncoding.t) : Logging unit :=
    if reports_truncation inputs then logger_info L_cropping_tokens else mret tt.

  (** Lines 301-318 and 385-402: one [InputFeatures] from the encoded
      choices. *)
Definition build_features (label_map : gmap string nat)
      (example : InputExample.t) (choices_inputs : list BatchEncoding.t)
    : Logging InputFeatures.t :=
    label ← lift_result (label_map_lookup label_map (InputExample.label example));
    let input_ids := BatchEncoding.input_ids <$> choices_inputs in
    attention_mask ←
      lift_result (column_if_first BatchEncoding.attention_mask choices_inputs);
    token_type_ids ←
      lift_result (column_if_first BatchEncoding.token_type_ids choices_inputs);
    mret (InputFeatures.mk (InputExample.example_id example) input_ids
                           attention_mask token_type_ids (Some label)).

  (** The inner loop of the evidence-pairing converter: the claim is the
      first segment, the evidence the second. *)
Fixpoint pair_choices (max_length : nat) (question : string)
      (contexts : list string) (choices_inputs : list BatchEncoding.t)
    : Logging (list BatchEncoding.t) :=
    match contexts with
    | [] => mret choices_inputs
    | context :: rest =>
        let text_a := question in
        let text_b := context in
        let inputs := tokenizer text_a (Some text_b) max_length in
        log_if_truncated inputs;;
        pair_choices max_length question rest (choices_inputs ++ [inputs])
    end.

  (** The inner loop of the claim-plus-evidence converter: each evidence on
      its own. *)
Fixpoint single_choices (max_length : nat) (contexts : list string)
      (choices_inputs : list BatchEncoding.t) : Logging (list BatchEncoding.t) :=
    match contexts with
    | [] => mret choices_inputs
    | context :: rest =>
        let text_b := context in
        let inputs := tokenizer text_b None max_length in
        log_if_truncated inputs;;
        single_choices max_length rest (choices_inputs ++ [inputs])
    end.

Definition log_writing (ex_index total : nat) : Logging unit :=
    if (ex_index mod 10000 =? 0)%nat
    then logger_info (L_writing_example ex_index total) else mret tt.

Fixpoint log_features (l : list InputFeatures.t) : Logging unit :=
    match l with
    | [] => mret tt
    | f :: l' => logger_info L_example_header;; logger_info (L_feature f);;
                 log_features l'
    end.

Fixpoint evidence_loop (label_map : gmap string nat) (max_length total : nat)
      (examples : list (nat * InputExample.t)) (features : list InputFeatures.t)
    : Logging (list InputFeatures.t) :=
    match examples with
    | [] => mret features
    | (ex_index, example) :: rest =>
        log_writing ex_index total;;
        choices_inputs ←
          pair_choices max_length (InputExample.question example)
                       (InputExample.contexts example) [];
        f ← build_features label_map example choices_inputs;
        evidence_loop label_map max_length total rest (features ++ [f])
    end.

Definition xfact_evidence_convert_examples_to_features
      (examples : list InputExample.t) (label_list : list string)
      (max_length : nat) : Logging (list InputFeatures.t) :=
    let label_map := label_map_of label_list in
    features ← evidence_loop label_map max_length (length examples)
                             (enumerate examples) [];
    log_features (take 2 features);;
    mret features.

Fixpoint claim_evidence_loop (label_map : gmap string nat)
      (max_length total : nat) (examples : list (nat * InputExample.t))
      (features : list InputFeatures.t) : Logging (list InputFeatures.t) :=
    match examples with
    | [] => mret features
    | (ex_index, example) :: rest =>
        log_writing ex_index total;;
        let claim := InputExample.question example in
        let claim_inputs := tokenizer claim None max_length in
        log_if_truncated claim_inputs;;
        choices_inputs ←
          single_choices max_length (InputExample.contexts example) [claim_inputs];
        f ← build_features label_map example choices_inputs;
        claim_evidence_loop label_map max_length total rest (features ++ [f])
    end.

Definition xfact_claim_evidence_convert_examples_to_features
      (examples : list InputExample.t) (label_list : list string)
      (max_length : nat) : Logging (list InputFeatures.t) :=
    let label_map := label_map_of label_list in
    features ← claim_evidence_loop label_map max_length (length examples)
                                   (enumerate examples) [];
    log_features (take 2 features);;
    mret features.

End Converters.

(** ** The year-filter script [eda.py]

    [pd.read_csv] is library code.  Its tokenizer splits the file into a
    header and lines of fields: that is the input.  The types of the
    columns are inferred by the library; what it takes for a missing
    value, for a boolean and for a column of numbers are parameters (the
    class [Parser]), what it makes of them is [read_csv].  The text written
    by [to_csv] and read back by [csv.DictReader] is kept as a header and
    records of fields: quoting is the library's work as well, and a field
    is read back as it was written (a carriage return inside a field, which
    the text mode of [open] would translate, is not considered).  The
    [print] calls of the script are left out. *)

Module Eda.

(** A cell of a data frame.  [CFloat text] is a floating point number
    other than NaN, given by the text Python prints for it. *)
Inductive Cell : Type :=
  | CStr (s : string)
  | CInt (z : Z)
  | CFloat (text : string)
  | CBool (b : bool)
  | CNaN.

#[global] Instance Cell_eq_dec : EqDecision Cell.
Proof. solve_decision. Defined.
#[global] Instance Cell_inhabited : Inhabited Cell := populate CNaN.

(** A data frame: the names of its columns, and its rows, each a dictionary
    from the column names to cells. *)
Record Frame : Type := mkFrame {
  columns : list string;
  rows : list (gmap string Cell)
}.

(** A tab separated file as the tokenizer of [pd.read_csv] hands it on: the
    names of the header, and for each line that is kept the fields it has,
    by column name (a short line lacks its last columns). *)
Record Tsv : Type := mkTsv {
  header : list string;
  lines : list (gmap string string)
}.

(** A number in a frame. *)
Definition is_number (c : Cell) : Prop :=
  match c with
  | CInt _ | CFloat _ | CNaN => True
  | CStr _ | CBool _ => False
  end.

(** What [pd.read_csv] recognises in the fields of a column:
    - [is_na s]: [s] stands for a missing value (the empty field, [NA],
      [NaN], [null], ...);
    - [to_boolean s]: [s] is read as a boolean ([true], [True], [FALSE],
      ...);
    - [numbers fields]: the cells of a column that is read as integers or
      as floating point numbers, [None] for any other column.
    The strings [true] and [false] are not missing values and are read as
    booleans; the cells of a column of numbers are numbers, one for each
    field; a column with the field [true] or [false] is not a column of
    numbers. *)
Class Parser : Type := {
  is_na : string → bool;
  to_boolean : string → option bool;
  numbers : list (option string) → option (list Cell);
  true_false_not_na : is_na "true" = false ∧ is_na "false" = false;
  true_false_boolean :
    to_boolean "true" = Some true ∧ to_boolean "false" = Some false;
  numbers_cells fields cells :
    numbers fields = Some cells →
    length cells = length fields ∧ Forall is_number cells;
  numbers_not_text fields :
    Some "true" ∈ fields ∨ Some "false" ∈ fields → numbers fields = None
}.

Section Reading.

Context {parser : Parser}.

(** The text of a field, unless the field is missing. *)
Definition present (field : option string) : option string :=
  s ← field; if is_na s then None else Some s.

(** The field is missing or is read as a boolean. *)
Definition boolean_field (field : option string) : bool :=
  match present field with
  | Some s => bool_decide (is_Some (to_boolean s))
  | None => true
  end.

(** The fields of one column, line by line. *)
Definition column (c : string) (t : Tsv) : list (option string) :=
  (λ line : gmap string string, line !! c) <$> lines t.

(** The cells of one column.  Numbers are tried first, booleans next; a
    column that is neither is kept as text.  In a column of booleans or of
    text a missing value is NaN. *)
Definition column_cells (fields : list (option string)) : list Cell :=
  match numbers fields with
  | Some cells => cells
  | None =>
      if forallb boolean_field fields
      then (λ f, from_option CBool CNaN (present f ≫= to_boolean)) <$> fields
      else (λ f, from_option CStr CNaN (present f)) <$> fields
  end.

(** Line 7: [pd.read_csv('test.all.tsv', sep='\t', ...)], for a file that
    the library reads in one piece (a file of several ten thousand lines is
    read piece by piece, and the types are inferred for each piece). *)
Definition read_csv (t : Tsv) : Frame :=
  let cell (c : string) (i : nat) : Cell := column_cells (column c t) !!! i in
  mkFrame (header t)
          (imap (λ i _, list_to_map ((λ c, (c, cell c i)) <$> header t))
                (lines t)).

End Reading.

(** [astype(str)] on one cell. *)
Definition astype_str (c : Cell) : string :=
  match c with
  | CStr s => s
  | CInt z => pretty z
  | CFloat text => text
  | CBool true => "True"
  | CBool false => "False"
  | CNaN => "nan"
  end.

(** [df[cols]] for a list of names: [KeyError] when one of them is not a
    column. *)
Definition select (cols : list string) (df : Frame) : result Frame :=
  if forallb (λ c, bool_decide (c ∈ columns df)) cols
  then Ok (mkFrame cols
             ((λ r : gmap string Cell,
                 list_to_map ((λ c, (c, r !!! c)) <$> cols)) <$> rows df))
  else Raise KeyError.

(** [df[col] = ...], computed row by row; a new column comes last. *)
Definition assign (col : string) (f : gmap string Cell → Cell) (df : Frame)
  : Frame :=
  mkFrame (if bool_decide (col ∈ columns df) then columns df
           else columns df ++ [col])
          ((λ r, <[col := f r]> r) <$> rows df).

(** [df.loc[mask]]. *)
Definition loc (mask : gmap string Cell → bool) (df : Frame) : Frame :=
  mkFrame (columns df) (List.filter mask (rows df)).

(** [df.rename(columns={old: new})]. *)
Definition rename (old new : string) (df : Frame) : Frame :=
  mkFrame ((λ c, if bool_decide (c = old) then new else c) <$> columns df)
          ((λ r, match r !! old with
                 | Some v => <[new := v]> (delete old r)
                 | None => r
                 end) <$> rows df).

(** [df[col] == 'text'] on one row. *)
Definition eq_str (r : gmap string Cell) (col text : string) : bool :=
  bool_decide (r !!! col = CStr text).

(** [replace({'false': 0, 'true': 1})] on one cell. *)
Definition replace_label (c : Cell) : Cell :=
  if bool_decide (c = CStr "false") then CInt 0
  else if bool_decide (c = CStr "true") then CInt 1
  else c.

(** Lines 9-30: the frame [df] the three year frames are cut from. *)
Definition prepare (tsv : Frame) : result Frame :=
  df ← select ["claimDate"; "claim"; "label"] tsv;
  let df := assign "exp_split" (λ _, CStr "test") df in
  let df := assign "claimDate"
              (λ r, CStr (substring 0 4 (astype_str (r !!! "claimDate")))) df in
  let df := loc (λ r, eq_str r "label" "false" || eq_str r "label" "true") df in
  let df := assign "annotation_id" (λ _, CStr "placeholder") df in
  let df := assign "label_id" (λ r, r !!! "label") df in
  let df := assign "label" (λ r, replace_label (r !!! "label")) df in
  mret (rename "claim" "text" df).

(** [BiYYYY = df.loc[df['claimDate'] == 'YYYY']] followed by the column
    selection. *)
Definition year_frame (year : string) (df : Frame) : result Frame :=
  select ["annotation_id"; "exp_split"; "text"; "label"; "label_id"]
         (loc (λ r, eq_str r "claimDate" year) df).

(** Files of the working directory: a comma separated file is its header
    and its records, each a list of fields; a JSON file is the array it
    holds, each object a dictionary (a member that is written twice is the
    one written last). *)
Inductive JVal : Type :=
  | JStr (s : string)
  | JInt (z : Z)
  | JNull
  | JList (l : list string).

Inductive File : Type :=
  | CsvFile (fieldnames : list string) (records : list (list string))
  | JsonFile (array : list (gmap string JVal)).

(** What [to_csv] writes for one cell; a missing value is written empty. *)
Definition csv_field (c : Cell) : string :=
  match c with
  | CNaN => ""
  | _ => astype_str c
  end.

(** [frame.to_csv(path, index=False)]. *)
Definition to_csv (df : Frame) : File :=
  CsvFile (columns df)
          ((λ r : gmap string Cell, (λ c, csv_field (r !!! c)) <$> columns df)
             <$> rows df).

Definition digit_of (c : ascii) : option Z :=
  let n := nat_of_ascii c in
  if ((48 <=? n) && (n <=? 57))%nat then Some (Z.of_nat (n - 48)) else None.

(** Decimal digits, single underscores allowed between two digits. *)
Fixpoint digits_value (s : string) (acc : Z) (after_digit : bool)
  : option Z :=
  match s with
  | EmptyString => if after_digit then Some acc else None
  | String c s' =>
      if bool_decide (c = "_"%char)
      then if after_digit then digits_value s' acc false else None
      else match digit_of c with
           | Some d => digits_value s' (10 * acc + d) true
           | None => None
           end
  end.

(** [int(s)] for a string: a decimal literal with an optional sign,
    surrounded by optional white space (on ASCII text). *)
Definition py_int (s : string) : result Z :=
  let r := match ascii_strip s with
           | String "-" t => Z.opp <$> digits_value t 0 false
           | String "+" t => digits_value t 0 false
           | t => digits_value t 0 false
           end in
  match r with
  | Some z => Ok z
  | None => Raise ValueError
  end.

(** One row of [csv.DictReader]: the fields by name, the last one for a
    name that the header repeats; [None] for the names a short record has
    no field for; the fields beyond the header as a list under the key
    [None], which [json.dumps] writes as [null]. *)
Definition dict_row (fieldnames fields : list string) : gmap string JVal :=
  let named :=
    imap (λ i key, (key, from_option JStr JNull (fields !! i))) fieldnames in
  let row : gmap string JVal := list_to_map (reverse named) in
  if (length fieldnames <? length fields)%nat
  then <["null" := JList (drop (length fieldnames) fields)]> row
  else row.

(** The row after [row['label'] = int(row['label'])]. *)
Definition json_row (fieldnames fields : list string)
  : result (gmap string JVal) :=
  let row := dict_row fieldnames fields in
  match row !! "label" with
  | None => Raise KeyError
  | Some (JStr l) => n ← py_int l; mret (<["label" := JInt n]> row)
  | Some _ => Raise TypeError
  end.

(** [csv_to_json(csvFilePath, jsonFilePath)] over the files.  The reader
    passes over the records without any field (blank lines). *)
Definition csv_to_json (csvFilePath jsonFilePath : string)
    (fs : gmap string File) : gmap string File * result unit :=
  match fs !! csvFilePath with
  | Some (CsvFile fieldnames records) =>
      match for_each (json_row fieldnames)
                     (List.filter (λ r, negb (bool_decide (r = []))) records)
      with
      | Ok jsonArray => (<[jsonFilePath := JsonFile jsonArray]> fs, Ok tt)
      | Raise e => (fs, Raise e)
      end
  | _ => (fs, Raise FileNotFoundError)
  end.

(** Lines 74-84 for one year frame. *)
Definition write_year (frame : Frame) (json : string)
    (fs : gmap string File) : gmap string File * result unit :=
  let fs := <["dev.csv" := to_csv frame]> fs in
  csv_to_json "dev.csv" json fs.

(** Lines 9-84: the script from the frame read from [test.all.tsv]. *)
Definition script (tsv : Frame) (fs : gmap string File)
  : gmap string File * result unit :=
  match prepare tsv with
  | Raise e => (fs, Raise e)
  | Ok df =>
  match year_frame "2020" df with
  | Raise e => (fs, Raise e)
  | Ok Bi2020 =>
  match year_frame "2018" df with
  | Raise e => (fs, Raise e)
  | Ok Bi2018 =>
  match year_frame "2016" df with
  | Raise e => (fs, Raise e)
  | Ok Bi2016 =>
  match write_year Bi2020 "Bi2020_test.json" fs with
  | (fs, Raise e) => (fs, Raise e)
  | (fs, Ok _) =>
  match write_year Bi2018 "Bi2018_test.json" fs with
  | (fs, Raise e) => (fs, Raise e)
  | (fs, Ok _) => write_year Bi2016 "Bi2016_test.json" fs
  end end end end end end.

(** The whole script, from the content of [test.all.tsv]. *)
Definition eda {parser : Parser} (t : Tsv) (fs : gmap string File)
  : gmap string File * result unit :=
  script (read_csv t) fs.

End Eda.

(** * Properties *)

(** A closed fact about concrete data, settled by evaluation. *)
Ltac by_computation := apply (bool_decide_unpack _); vm_compute; exact I.

Section LoaderFacts.

Context {str : Str}.

(** ** Reading rows *)

Lemma for_each_length {A B} (f : A → result B) (l : list A) (ys : list B) :
  for_each f l = Ok ys → length ys = length l.
Proof.
  revert ys. induction l as [|x l IH]; intros ys; simpl.
  - intros [= <-]. reflexivity.
  - destruct (f x) as [y|e]; simpl; [|discriminate].
    destruct (for_each f l) as [zs|e]; simpl; [|discriminate].
    intros [= <-]. simpl. f_equal. apply IH. reflexivity.
Qed.

Lemma for_each_Forall2 {A B} (f : A → result B) (l : list A) (ys : list B) :
  for_each f l = Ok ys ↔ Forall2 (λ x y, f x = Ok y) l ys.
Proof.
  revert ys. induction l as [|x l IH]; intros ys; simpl.
  - split.
    + intros [= <-]. constructor.
    + intros H. inversion H. reflexivity.
  - split.
    + destruct (f x) as [y|e] eqn:Hx; simpl; [|discriminate].
      destruct (for_each f l) as [zs|e] eqn:Hl; simpl; [|discriminate].
      intros [= <-]. constructor; [assumption|]. apply IH. reflexivity.
    + intros H. inversion H as [|? y ? zs Hx Hl]; subst.
      rewrite Hx. simpl. apply IH in Hl. rewrite Hl. reflexivity.
Qed.

Lemma py_index_nonneg {A} (l : list A) (i : nat) :
  py_index l (Z.of_nat i) =
  match l !! i with Some x => Ok x | None => Raise IndexError end.
Proof.
  unfold py_index.
  destruct (Z.ltb_spec (Z.of_nat i) 0) as [H|H]; [lia|].
  destruct (Z.ltb_spec (Z.of_nat i) 0) as [H'|H']; [lia|].
  rewrite Nat2Z.id. reflexivity.
Qed.

(** [l[-k]] is the [k]-th element from the end, when there is one. *)
Lemma py_index_neg {A} (l : list A) (k : nat) :
  (0 < k)%nat →
  py_index l (- Z.of_nat k) =
  if (k <=? length l)%nat
  then match l !! (length l - k)%nat with
       | Some x => Ok x
       | None => Raise IndexError
       end
  else Raise IndexError.
Proof.
  intros Hk. unfold py_index.
  destruct (Z.ltb_spec (- Z.of_nat k) 0) as [H|H]; [|lia].
  destruct (Nat.leb_spec k (length l)) as [Hle|Hgt].
  - destruct (Z.ltb_spec (Z.of_nat (length l) + - Z.of_nat k) 0) as [H'|H']; [lia|].
    replace (Z.to_nat (Z.of_nat (length l) + - Z.of_nat k))
      with (length l - k)%nat by lia.
    reflexivity.
  - destruct (Z.ltb_spec (Z.of_nat (length l) + - Z.of_nat k) 0) as [H'|H']; [|lia].
    reflexivity.
Qed.

Lemma py_index_last {A} (l : list A) :
  py_index l (-1) =
  match last l with Some x => Ok x | None => Raise IndexError end.
Proof.
  change (-1) with (- Z.of_nat 1). rewrite py_index_neg by lia.
  rewrite last_lookup.
  destruct l as [|a l]; simpl; [reflexivity|].
  rewrite Nat.sub_0_r. reflexivity.
Qed.

Lemma py_index_ok_lt {A} (l : list A) (i : Z) :
  - Z.of_nat (length l) ≤ i < Z.of_nat (length l) → is_ok (py_index l i) = true.
Proof.
  intros H. unfold py_index.
  destruct (Z.ltb_spec i 0) as [Hi|Hi].
  - destruct (Z.ltb_spec (Z.of_nat (length l) + i) 0); [lia|].
    destruct (lookup_lt_is_Some_2 l (Z.to_nat (Z.of_nat (length l) + i)))
      as [x ->]; [lia|reflexivity].
  - destruct (Z.ltb_spec i 0); [lia|].
    destruct (lookup_lt_is_Some_2 l (Z.to_nat i)) as [x ->]; [lia|reflexivity].
Qed.

(** The evidence window of [create_example]. *)
Lemma evidence_window (line : RawRow) (start n : nat) (evidences : list string) :
  for_each (λ i : nat, py_index line (2 + Z.of_nat i)) (seq start n) = Ok evidences →
  length evidences = n ∧
  ∀ i, (i < n)%nat → evidences !! i = line !! (2 + (start + i))%nat
                      ∧ is_Some (evidences !! i).
Proof.
  revert start evidences. induction n as [|n IH]; intros start evidences; simpl.
  - intros [= <-]. split; [reflexivity|]. intros i Hi. lia.
  - replace (2 + Z.of_nat start) with (Z.of_nat (2 + start)) by lia.
    rewrite py_index_nonneg.
    destruct (line !! (2 + start)%nat) as [x|] eqn:Hx; simpl; [|discriminate].
    destruct (for_each _ (seq (S start) n)) as [ys|] eqn:Hys; simpl; [|discriminate].
    intros [= <-]. destruct (IH _ _ Hys) as [Hlen Hnth].
    split; [simpl; congruence|].
    intros [|i] Hi.
    + split; [|simpl; eauto].
      change ((x :: ys) !! 0%nat) with (Some x). rewrite <- Hx. f_equal. lia.
    + destruct (Hnth i ltac:(lia)) as [Heq HS].
      change ((x :: ys) !! S i) with (ys !! i).
      split; [|assumption]. rewrite Heq. f_equal. lia.
Qed.

Lemma is_ok_true {A} (r : result A) : is_ok r = true ↔ ∃ a, r = Ok a.
Proof.
  destruct r as [a|e]; simpl; split; eauto.
  - discriminate.
  - intros [a H]. discriminate.
Qed.

Lemma for_each_is_ok {A B} (f : A → result B) (l : list A) :
  is_ok (for_each f l) = true ↔ Forall (λ x, is_ok (f x) = true) l.
Proof.
  induction l as [|x l IH]; simpl.
  - split; [constructor|reflexivity].
  - destruct (f x) as [y|e] eqn:Hx; simpl.
    + destruct (for_each f l) as [ys|e]; simpl in *.
      * split; [intros _; constructor; [rewrite Hx; reflexivity|tauto]|reflexivity].
      * split; [discriminate|]. intros H. inversion H; subst. tauto.
    + split; [discriminate|]. intros H. inversion H as [|? ? Hx']; subst.
      rewrite Hx in Hx'. discriminate.
Qed.

(** The number of columns [create_example] reads: five from the end for the
    metadata, and two plus the evidence count from the start. *)
Definition required_columns (num_evidences : nat) : nat :=
  Nat.max 5 (2 + num_evidences).

Lemma get_metadata_is_ok (line : RawRow) :
  is_ok (get_metadata line) = true ↔ (5 ≤ length line)%nat.
Proof.
  split.
  - unfold get_metadata. intros H.
    destruct (Nat.leb_spec 5 (length line)) as [Hle|Hlt]; [assumption|].
    exfalso. revert H.
    destruct (py_index line (-3)) as [a|]; simpl; [|discriminate].
    destruct (py_index line (-4)) as [b|]; simpl; [|discriminate].
    destruct (py_index line 0) as [c|]; simpl; [|discriminate].
    destruct (py_index line 1) as [d|]; simpl; [|discriminate].
    change (-5) with (- Z.of_nat 5). rewrite py_index_neg by lia.
    destruct (Nat.leb_spec 5 (length line)); [lia|]. simpl. discriminate.
  - intros H. unfold get_metadata.
    destruct (proj1 (is_ok_true _) (py_index_ok_lt line (-3) ltac:(lia))) as [a ->].
    destruct (proj1 (is_ok_true _) (py_index_ok_lt line (-4) ltac:(lia))) as [b ->].
    destruct (proj1 (is_ok_true _) (py_index_ok_lt line 0 ltac:(lia))) as [c ->].
    destruct (proj1 (is_ok_true _) (py_index_ok_lt line 1 ltac:(lia))) as [d ->].
    destruct (proj1 (is_ok_true _) (py_index_ok_lt line (-5) ltac:(lia))) as [e ->].
    reflexivity.
Qed.

(** [create_example] succeeds exactly on the rows that are wide enough. *)
Lemma create_example_is_ok (n : nat) (line : RawRow) :
  is_ok (create_example n line) = true ↔ (required_columns n ≤ length line)%nat.
Proof.
  unfold required_columns, create_example. split.
  - destruct (for_each _ (seq 0 n)) as [evs|] eqn:Hev; simpl; [|discriminate].
    destruct (py_index line (-2)) as [ct|]; simpl; [|discriminate].
    destruct (py_index line (-1)) as [lab|]; simpl; [|discriminate].
    destruct (get_metadata line) as [md|] eqn:Hmd; simpl; [|discriminate].
    intros _.
    assert (5 ≤ length line)%nat as H5.
    { apply get_metadata_is_ok. rewrite Hmd. reflexivity. }
    destruct (evidence_window _ _ _ _ Hev) as [Hlen Hnth].
    destruct n as [|n]; [lia|].
    destruct (Hnth n ltac:(lia)) as [Heq HS]. rewrite Heq in HS.
    apply lookup_lt_is_Some_1 in HS. lia.
  - intros H.
    assert (is_ok (for_each (λ i : nat, py_index line (2 + Z.of_nat i)) (seq 0 n))
            = true) as Hev.
    { apply for_each_is_ok. apply Forall_forall. intros i Hi.
      apply elem_of_seq in Hi. apply py_index_ok_lt. lia. }
    apply is_ok_true in Hev as [evs ->]. simpl.
    destruct (proj1 (is_ok_true _) (py_index_ok_lt line (-2) ltac:(lia))) as [a ->].
    destruct (proj1 (is_ok_true _) (py_index_ok_lt line (-1) ltac:(lia))) as [b ->].
    simpl.
    destruct (proj1 (is_ok_true _) (proj2 (get_metadata_is_ok line) ltac:(lia)))
      as [md ->].
    reflexivity.
Qed.

(** What a successful [create_example] returns. *)
Lemma create_example_fields (n : nat) (line : RawRow)
    (evidences : list string) (claim_text label metadata : string) :
  create_example n line = Ok (evidences, claim_text, label, metadata) →
  length evidences = n
  ∧ (∀ i, (i < n)%nat → evidences !! i = line !! (2 + i)%nat)
  ∧ Some label = lower <$> last line
  ∧ get_metadata line = Ok metadata.
Proof.
  unfold create_example.
  destruct (for_each _ (seq 0 n)) as [evs|] eqn:Hev; simpl; [|discriminate].
  destruct (py_index line (-2)) as [ct|]; simpl; [|discriminate].
  rewrite py_index_last.
  destruct (last line) as [lab|]; simpl; [|discriminate].
  destruct (get_metadata line) as [md|] eqn:Hmd; simpl; [|discriminate].
  intros [= <- <- <- <-].
  destruct (evidence_window _ _ _ _ Hev) as [Hlen Hnth].
  repeat split; try assumption.
  intros i Hi. apply (Hnth i Hi).
Qed.

(** ** The loaders *)

(** The rows a loader builds an example from: not the header (index 0) and
    not empty; each comes with its line number. *)
Definition is_data (il : nat * RawRow) : bool :=
  negb (il.1 =? 0)%nat && negb (length il.2 =? 0)%nat.

Definition data_rows (lines : list RawRow) : list (nat * RawRow) :=
  List.filter is_data (enumerate lines).

(** The label of a row: its last field, lower-cased. *)
Definition row_label (line : RawRow) : string :=
  lower (default "" (last line)).

(** The example a row gives, and the example it gives under a vocabulary
    [c], if it is kept. *)
Definition build_row (n : nat) (um : bool) (il : nat * RawRow)
  : option InputExample.t :=
  match create_example n il.2 with
  | Ok (evidences, claim_text, label, metadata) =>
      Some (make_example um il.1 evidences claim_text label metadata)
  | Raise _ => None
  end.

Definition keep_row (n : nat) (um : bool) (c : LabelColl)
    (il : nat * RawRow) : option InputExample.t :=
  match create_example n il.2 with
  | Ok (evidences, claim_text, label, metadata) =>
      if coll_mem label c
      then Some (make_example um il.1 evidences claim_text label metadata)
      else None
  | Raise _ => None
  end.

Definition well_formed (n : nat) (ils : list (nat * RawRow)) : Prop :=
  Forall (λ il, is_ok (create_example n il.2) = true) ils.

Lemma create_example_label (n : nat) (line : RawRow) ev ct lab md :
  create_example n line = Ok (ev, ct, lab, md) → lab = row_label line.
Proof.
  intros H. apply create_example_fields in H as (_ & _ & Hl & _).
  unfold row_label. destruct (last line); simpl in *; congruence.
Qed.

(** What a filtered scan owes its caller: a row's example is in [examples]
    exactly when its label is in the vocabulary [c], and [skipped] counts the
    other rows, one each. *)
Definition filter_report (n : nat) (um : bool) (c : LabelColl)
    (rows : list RawRow) (examples : list InputExample.t) (skipped : nat)
  : Prop :=
  (∀ il evidences claim_text label metadata,
      il ∈ data_rows rows →
      create_example n il.2
        = Ok (evidences, claim_text, label, metadata) →
      make_example um il.1 evidences claim_text label metadata ∈ examples
      ↔ coll_mem label c = true)
  ∧ skipped = length (List.filter (λ il, negb (coll_mem (row_label il.2) c))
                                  (data_rows rows))
  ∧ (length examples + skipped = length (data_rows rows))%nat.

Lemma keep_row_label n um c il e :
  keep_row n um c il = Some e →
  ∃ lab, InputExample.label e = Some lab ∧ coll_mem lab c = true.
Proof.
  unfold keep_row.
  destruct (create_example _ _) as [[[[ev ct] lab] md]|]; [|discriminate].
  destruct (coll_mem lab c) eqn:Hm; [|discriminate].
  intros [= <-]. exists lab. split; [reflexivity|assumption].
Qed.

Lemma kept_count n um c (ils : list (nat * RawRow)) :
  well_formed n ils →
  (length (omap (keep_row n um c) ils)
   + length (List.filter (λ il, negb (coll_mem (row_label il.2) c)) ils)
   = length ils)%nat.
Proof.
  induction 1 as [|il ils Hrow _ IH]; [reflexivity|].
  apply is_ok_true in Hrow as [[[[ev ct] lab] md] Hrow].
  cbn [omap list_omap List.filter]. unfold keep_row at 1. rewrite Hrow.
  rewrite <- (create_example_label _ _ _ _ _ _ Hrow).
  destruct (coll_mem lab c); simpl; lia.
Qed.

Lemma kept_report n um c (rows : list RawRow) :
  well_formed n (data_rows rows) →
  filter_report n um c rows
    (omap (keep_row n um c) (data_rows rows))
    (length (List.filter (λ il, negb (coll_mem (row_label il.2) c))
                         (data_rows rows))).
Proof.
  intros Hwf. split; [|split; [reflexivity|apply kept_count, Hwf]].
  intros il ev ct lab md Hin Hrow. split.
  - intros He. apply list_elem_of_omap in He as (il' & _ & Hk).
    apply keep_row_label in Hk as (lab' & Hl & Hm).
    simpl in Hl. congruence.
  - intros Hm. apply list_elem_of_omap. exists il. split; [assumption|].
    unfold keep_row. rewrite Hrow, Hm. reflexivity.
Qed.

(** ** Sorting a collection *)

Lemma sorted_list_sorted (c : LabelColl) : Sorted String.le (sorted_list c).
Proof. destruct c; simpl; apply (Sorted_merge_sort String.le). Qed.

Lemma sorted_list_set_elem (s : gset string) (x : string) :
  x ∈ sorted_list (LSet s) ↔ x ∈ s.
Proof.
  simpl. rewrite (merge_sort_Permutation String.le). apply elem_of_elements.
Qed.

Lemma sorted_list_set_NoDup (s : gset string) : NoDup (sorted_list (LSet s)).
Proof.
  simpl. rewrite (merge_sort_Permutation String.le). apply NoDup_elements.
Qed.

Lemma sorted_list_fixed (l : list string) :
  Sorted String.le l → sorted_list (LList l) = l.
Proof.
  intros Hl. simpl. apply (Sorted_unique String.le).
  - apply (Sorted_merge_sort String.le).
  - assumption.
  - apply (merge_sort_Permutation String.le).
Qed.

(** The number of distinct strings in a list is the size of its set. *)
Lemma length_remove_dups_set (l : list string) :
  length (remove_dups l) = size (list_to_set l : gset string).
Proof.
  unfold size, set_size. simpl. apply Permutation_length.
  apply NoDup_Permutation.
  - apply NoDup_remove_dups.
  - apply NoDup_elements.
  - intros x. rewrite elem_of_remove_dups, elem_of_elements, elem_of_list_to_set.
    reflexivity.
Qed.

(** The shape of an example built from a data row of [rows] with evidence
    count [n]: the row is wide enough, the evidences are the [n] columns
    from index 2 on, the label is the row's last field, lower-cased. *)
Definition built_from (n : nat) (rows : list RawRow) (e : InputExample.t)
  : Prop :=
  ∃ il, il ∈ data_rows rows
    ∧ (required_columns n ≤ length il.2)%nat
    ∧ length (InputExample.contexts e) = n
    ∧ InputExample.contexts e = take n (drop 2 il.2)
    ∧ InputExample.label e = Some (row_label il.2).

Lemma evidence_columns (n : nat) (line : RawRow) (evidences : list string) :
  length evidences = n →
  (∀ i, (i < n)%nat → evidences !! i = line !! (2 + i)%nat) →
  evidences = take n (drop 2 line).
Proof.
  intros Hlen Hnth. apply list_eq. intros i.
  destruct (Nat.lt_ge_cases i n) as [Hi|Hi].
  - rewrite lookup_take_lt by assumption. rewrite lookup_drop. auto.
  - rewrite lookup_take_ge by assumption.
    apply lookup_ge_None. lia.
Qed.

Lemma build_row_shape (n : nat) (um : bool) (il : nat * RawRow)
    (e : InputExample.t) :
  build_row n um il = Some e →
  (required_columns n ≤ length il.2)%nat
  ∧ length (InputExample.contexts e) = n
  ∧ InputExample.contexts e = take n (drop 2 il.2)
  ∧ InputExample.label e = Some (row_label il.2).
Proof.
  unfold build_row.
  destruct (create_example n il.2) as [[[[ev ct] lab] md]|] eqn:Hrow;
    [|discriminate].
  intros [= <-]. simpl.
  pose proof (create_example_label _ _ _ _ _ _ Hrow) as ->.
  assert (is_ok (create_example n il.2) = true) as Hok
    by (rewrite Hrow; reflexivity).
  apply create_example_is_ok in Hok.
  apply create_example_fields in Hrow as (Hlen & Hnth & _ & _).
  split; [assumption|]. split; [assumption|].
  split; [apply evidence_columns; assumption|reflexivity].
Qed.

Section ProcessorFacts.

Variable rng_state : Type.
Variable random_shuffle :
  rng_state → list InputExample.t → rng_state * list InputExample.t.

Abbreviation World := (World rng_state).
Abbreviation filtered_loop := (filtered_loop rng_state).

Ltac run :=
  repeat progress
    (unfold mbind, M_bind, mret, M_ret, get_self, set_self, lift, raise,
       get_label_set, get_label_count, set_label_sets, set_label_count,
       print, read_file, _read_tsv;
     simpl).

Lemma filtered_loop_ok (source : string) (c : LabelColl)
    (ils : list (nat * RawRow)) (exs : list InputExample.t) (sk : nat)
    (w : World) :
  label_sets (self w) !! source = Some c →
  well_formed (num_evidences (self w)) (List.filter is_data ils) →
  filtered_loop source ils exs sk w =
  (w, Ok (exs ++ omap (keep_row (num_evidences (self w)) (use_metadata (self w)) c) (List.filter is_data ils),
          (sk + length (List.filter (λ il, negb (coll_mem (row_label il.2) c))
                                    (List.filter is_data ils)))%nat)).
Proof.
  intros Hc. revert exs sk. unfold well_formed.
  induction ils as [|[i line] ils IH]; intros exs sk Hwf.
  - simpl. rewrite app_nil_r, Nat.add_0_r. reflexivity.
  - assert (is_data (i, line)
            = negb (i =? 0)%nat && negb (length line =? 0)%nat) as Hd
      by reflexivity.
    cbn [List.filter] in *. rewrite Hd in *. cbn [filtered_loop].
    destruct (i =? 0)%nat eqn:Hi; cbn [negb andb] in *.
    { apply IH. assumption. }
    destruct (length line =? 0)%nat eqn:Hl; cbn [negb andb] in *.
    { apply IH. assumption. }
    inversion Hwf as [|? ? Hrow Hrest]; subst. cbn [snd] in Hrow.
    apply is_ok_true in Hrow as [[[[ev ct] lab] md] Hrow].
    run. rewrite Hrow, Hc. simpl.
    unfold keep_row at 1. simpl. rewrite Hrow.
    rewrite <- (create_example_label _ _ _ _ _ _ Hrow).
    destruct (coll_mem lab c) eqn:Hm; simpl.
    + rewrite IH by assumption. rewrite <- app_assoc. reflexivity.
    + rewrite IH by assumption. do 3 f_equal. lia.
Qed.

(** The file [get_dev_examples] reads and the line it prints at the end. *)
Definition dev_file (data_dir source : string) (filename : option string)
  : string :=
  match filename with
  | None => path_join data_dir ("dev." +:+ source +:+ ".tsv")
  | Some f => path_join data_dir f
  end.

Definition dev_report (source : string) (filename : option string)
    (examples_skipped left : nat) : printed :=
  match filename with
  | None => P_dev_skipped source examples_skipped left
  | Some f => P_dev_file_skipped f examples_skipped left
  end.

Lemma get_dev_examples_run (data_dir source : string)
    (filename : option string) (w : World) (c : LabelColl)
    (rows : list RawRow) :
  label_sets (self w) !! source = Some c →
  files w !! dev_file data_dir source filename = Some rows →
  well_formed (num_evidences (self w)) (data_rows rows) →
  let examples := omap (keep_row (num_evidences (self w)) (use_metadata (self w)) c) (data_rows rows) in
  let skipped :=
    length (List.filter (λ il, negb (coll_mem (row_label il.2) c))
                        (data_rows rows)) in
  get_dev_examples rng_state data_dir source filename w =
  (mkWorld rng_state (self w) (files w)
     (stdout w ++ [P_loading_file (dev_file data_dir source filename);
                   dev_report source filename skipped (length examples)])
     (rng w),
   Ok examples).
Proof.
  intros Hc Hf Hwf. unfold get_dev_examples, dev_file in *.
  destruct filename as [f|]; run; rewrite Hf;
    (rewrite (filtered_loop_ok source c) by assumption);
    simpl; rewrite <- app_assoc; reflexivity.
Qed.

Lemma get_test_examples_run (data_dir source : string) (w : World)
    (c : LabelColl) (rows : list RawRow) :
  label_sets (self w) !! source = Some c →
  files w !! path_join data_dir ("test." +:+ source +:+ ".tsv") = Some rows →
  well_formed (num_evidences (self w)) (data_rows rows) →
  let examples := omap (keep_row (num_evidences (self w)) (use_metadata (self w)) c) (data_rows rows) in
  let skipped :=
    length (List.filter (λ il, negb (coll_mem (row_label il.2) c))
                        (data_rows rows)) in
  get_test_examples rng_state data_dir source w =
  (mkWorld rng_state (self w) (files w)
     (stdout w ++ [P_loading_file (path_join data_dir ("test." +:+ source +:+ ".tsv"));
                   P_test_skipped source skipped (length examples)])
     (rng w),
   Ok examples).
Proof.
  intros Hc Hf Hwf. unfold get_test_examples. run. rewrite Hf.
  rewrite (filtered_loop_ok source c) by assumption.
  simpl. rewrite <- app_assoc. reflexivity.
Qed.

(** C2.  Dev and test loading against a source's vocabulary [c], on files
    whose data rows are wide enough: both loaders return normally; the
    example of a data row is in the returned list if and only if the row's
    lower-cased label is in [c]; the skipped count that is printed is the
    number of data rows whose label is not in [c], and together with the
    kept examples it accounts for every data row. *)
Theorem dev_test_filter_by_vocabulary (data_dir source : string)
    (filename : option string) (w : World) (c : LabelColl)
    (dev_rows test_rows : list RawRow) :
  label_sets (self w) !! source = Some c →
  files w !! dev_file data_dir source filename = Some dev_rows →
  files w !! path_join data_dir ("test." +:+ source +:+ ".tsv") = Some test_rows →
  well_formed (num_evidences (self w)) (data_rows dev_rows) →
  well_formed (num_evidences (self w)) (data_rows test_rows) →
  (∃ w' examples skipped,
      get_dev_examples rng_state data_dir source filename w = (w', Ok examples)
      ∧ self w' = self w
      ∧ last (stdout w') = Some (dev_report source filename skipped (length examples))
      ∧ filter_report (num_evidences (self w)) (use_metadata (self w)) c dev_rows examples skipped)
  ∧ (∃ w' examples skipped,
      get_test_examples rng_state data_dir source w = (w', Ok examples)
      ∧ self w' = self w
      ∧ last (stdout w') = Some (P_test_skipped source skipped (length examples))
      ∧ filter_report (num_evidences (self w)) (use_metadata (self w)) c test_rows examples skipped).
Proof.
  intros Hc Hdev Htest Hwd Hwt. split.
  - eexists _, _, _. split; [apply (get_dev_examples_run _ _ _ _ c dev_rows); assumption|].
    split; [reflexivity|]. split.
    + simpl. rewrite last_app. reflexivity.
    + apply kept_report. assumption.
  - eexists _, _, _. split; [apply (get_test_examples_run _ _ _ c test_rows); assumption|].
    split; [reflexivity|]. split.
    + simpl. rewrite last_app. reflexivity.
    + apply kept_report. assumption.
Qed.

(** What a training scan leaves untouched in the world, whether it ends
    normally or not. *)
Definition scan_step (w w' : World) : Prop :=
  sources (self w') = sources (self w)
  ∧ num_evidences (self w') = num_evidences (self w)
  ∧ use_metadata (self w') = use_metadata (self w)
  ∧ files w' = files w
  ∧ rng w' = rng w
  ∧ stdout w' = stdout w
  ∧ dom (label_count (self w')) = dom (label_count (self w)).

Lemma scan_step_refl w : scan_step w w.
Proof. unfold scan_step. tauto. Qed.

Lemma scan_step_trans w1 w2 w3 :
  scan_step w1 w2 → scan_step w2 w3 → scan_step w1 w3.
Proof. unfold scan_step. intuition congruence. Qed.

Lemma count_label_run (source label : string) (w : World) (k : gmap string Z) :
  label_count (self w) !! source = Some k →
  ∃ w', count_label rng_state source label w = (w', Ok tt)
        ∧ label_sets (self w') = label_sets (self w)
        ∧ scan_step w w'.
Proof.
  intros Hk. unfold count_label. run. rewrite Hk. simpl.
  eexists. split; [reflexivity|]. split; [reflexivity|].
  unfold scan_step. simpl. repeat split.
  rewrite dom_insert_L. apply elem_of_dom_2 in Hk. set_solver.
Qed.

(** A training scan against an existing collection [c], rows wide enough:
    it ends normally exactly when every label is in [c], with every row's
    example; otherwise it raises [ValueError]. *)
Lemma train_loop_frozen (source : string) (c : LabelColl) (n : nat) (um : bool)
    (ils : list (nat * RawRow)) :
  ∀ (exs : list InputExample.t) (w : World),
  num_evidences (self w) = n → use_metadata (self w) = um →
  label_sets (self w) !! source = Some c →
  is_Some (label_count (self w) !! source) →
  well_formed n (List.filter is_data ils) →
  ∃ w' r, train_loop rng_state source false ils exs w = (w', r)
    ∧ label_sets (self w') = label_sets (self w)
    ∧ scan_step w w'
    ∧ match r with
      | Ok out =>
          out = exs ++ omap (build_row n um) (List.filter is_data ils)
          ∧ Forall (λ il, coll_mem (row_label il.2) c = true)
                   (List.filter is_data ils)
      | Raise e =>
          e = ValueError
          ∧ Exists (λ il, coll_mem (row_label il.2) c = false)
                   (List.filter is_data ils)
      end.
Proof.
  unfold well_formed.
  induction ils as [|[i line] ils IH]; intros exs w Hn Hum Hc Hk Hwf.
  - simpl. exists w, (Ok exs). rewrite app_nil_r.
    repeat split; auto using scan_step_refl.
  - assert (is_data (i, line)
            = negb (i =? 0)%nat && negb (length line =? 0)%nat) as Hd
      by reflexivity.
    cbn [List.filter] in *. rewrite Hd in *. cbn [train_loop].
    destruct (i =? 0)%nat eqn:Hi; cbn [negb andb] in *.
    { apply IH; assumption. }
    destruct (length line =? 0)%nat eqn:Hl; cbn [negb andb] in *.
    { apply IH; assumption. }
    inversion Hwf as [|? ? Hrow Hrest]; subst. cbn [snd] in Hrow.
    apply is_ok_true in Hrow as [[[[ev ct] lab] md] Hrow].
    pose proof (create_example_label _ _ _ _ _ _ Hrow) as Hlab.
    destruct Hk as [k Hk].
    destruct (count_label_run source lab w k Hk) as (w1 & Hrun & Hls & Hstep).
    run. rewrite Hrow. simpl. rewrite Hc. simpl.
    destruct (coll_mem lab c) eqn:Hm; simpl.
    + fold (count_label rng_state source lab). rewrite Hrun.
      destruct Hstep as (Hs1 & Hs2 & Hs3 & Hs4 & Hs5 & Hs6 & Hs7).
      destruct (IH (exs ++ [make_example (use_metadata (self w)) i ev ct lab md]) w1)
        as (w' & r & Hloop & Hls' & Hstep' & Hr).
      * congruence.
      * congruence.
      * rewrite Hls. assumption.
      * apply elem_of_dom. rewrite Hs7. apply elem_of_dom. eauto.
      * assumption.
      * exists w', r. rewrite Hloop. split; [reflexivity|].
        split; [congruence|].
        split; [eapply scan_step_trans; [|exact Hstep']; unfold scan_step; tauto|].
        destruct r as [out|e].
        -- destruct Hr as [-> Hall]. split.
           ++ rewrite <- app_assoc. simpl. unfold build_row at 2. simpl.
              rewrite Hrow. reflexivity.
           ++ constructor; [simpl; congruence|assumption].
        -- destruct Hr as [-> Hex]. split; [reflexivity|].
           apply Exists_cons_tl. assumption.
    + exists w, (Raise ValueError).
      repeat split; auto using scan_step_refl.
      apply Exists_cons_hd. simpl. congruence.
Qed.

(** The labels of a list of numbered rows. *)
Definition labels_of (ils : list (nat * RawRow)) : list string :=
  (λ il, row_label il.2) <$> ils.

Lemma label_set_add_run (source label : string) (w : World) (s : gset string) :
  label_sets (self w) !! source = Some (LSet s) →
  ∃ w', label_set_add rng_state source label w = (w', Ok tt)
        ∧ label_sets (self w')
          = <[source := LSet ({[label]} ∪ s)]> (label_sets (self w))
        ∧ label_count (self w') = label_count (self w)
        ∧ scan_step w w'.
Proof.
  intros Hs. unfold label_set_add. run. rewrite Hs. run.
  eexists. split; [reflexivity|]. split; [reflexivity|].
  split; [reflexivity|]. unfold scan_step. simpl. tauto.
Qed.

(** A training scan that builds the vocabulary, the collection being a set:
    it ends normally with every row's example, and the set has grown by
    the labels of the rows. *)
Lemma train_loop_build (source : string) (n : nat) (um : bool)
    (ils : list (nat * RawRow)) :
  ∀ (exs : list InputExample.t) (w : World) (s : gset string),
  num_evidences (self w) = n → use_metadata (self w) = um →
  label_sets (self w) !! source = Some (LSet s) →
  is_Some (label_count (self w) !! source) →
  well_formed n (List.filter is_data ils) →
  ∃ w', train_loop rng_state source true ils exs w
        = (w', Ok (exs ++ omap (build_row n um) (List.filter is_data ils)))
    ∧ label_sets (self w')
      = <[source := LSet (list_to_set (labels_of (List.filter is_data ils)) ∪ s)]>
          (label_sets (self w))
    ∧ scan_step w w'.
Proof.
  unfold well_formed.
  induction ils as [|[i line] ils IH]; intros exs w s Hn Hum Hc Hk Hwf.
  - simpl. exists w. rewrite app_nil_r. split; [reflexivity|].
    split; [|apply scan_step_refl].
    rewrite union_empty_l_L. symmetry. apply insert_id. assumption.
  - assert (is_data (i, line)
            = negb (i =? 0)%nat && negb (length line =? 0)%nat) as Hd
      by reflexivity.
    cbn [List.filter] in *. rewrite Hd in *. cbn [train_loop].
    destruct (i =? 0)%nat eqn:Hi; cbn [negb andb] in *.
    { apply IH; assumption. }
    destruct (length line =? 0)%nat eqn:Hl; cbn [negb andb] in *.
    { apply IH; assumption. }
    inversion Hwf as [|? ? Hrow Hrest]; subst. cbn [snd] in Hrow.
    apply is_ok_true in Hrow as [[[[ev ct] lab] md] Hrow].
    pose proof (create_example_label _ _ _ _ _ _ Hrow) as Hlab.
    destruct (label_set_add_run source lab w s Hc)
      as (w1 & Hrun1 & Hls1 & Hlc1 & Hstep1).
    destruct Hk as [k Hk].
    destruct (count_label_run source lab w1 k) as (w2 & Hrun2 & Hls2 & Hstep2).
    { rewrite Hlc1. assumption. }
    pose proof (scan_step_trans _ _ _ Hstep1 Hstep2) as Hstep.
    destruct Hstep as (Hs1 & Hs2 & Hs3 & Hs4 & Hs5 & Hs6 & Hs7).
    destruct (IH (exs ++ [make_example (use_metadata (self w)) i ev ct lab md])
                 w2 ({[lab]} ∪ s))
      as (w' & Hloop & Hls' & Hstep').
    + congruence.
    + congruence.
    + rewrite Hls2, Hls1. apply lookup_insert_eq.
    + apply elem_of_dom. rewrite Hs7. apply elem_of_dom. eauto.
    + assumption.
    + exists w'.
      unfold mbind at 1, M_bind at 1, get_self at 1.
      unfold mbind at 1, M_bind at 1, lift at 1. rewrite Hrow.
      cbn beta iota.
      unfold mbind at 1, M_bind at 1. unfold mbind at 1, M_bind at 1.
      rewrite Hrun1. cbn beta iota. rewrite Hrun2. cbn beta iota.
      rewrite Hloop. split; [|split].
      * rewrite <- app_assoc. simpl. unfold build_row at 2. simpl.
        rewrite Hrow. reflexivity.
      * rewrite Hls', Hls2, Hls1. rewrite insert_insert_eq.
        f_equal. f_equal. simpl. rewrite <- Hlab. set_solver.
      * eapply scan_step_trans; [|exact Hstep']. unfold scan_step. tauto.
Qed.

Definition train_file (data_dir source : string) : string :=
  path_join data_dir ("train." +:+ source +:+ ".tsv").

(** What no method changes after construction: the configuration and the
    files. *)
Definition same_config (w w' : World) : Prop :=
  sources (self w') = sources (self w)
  ∧ num_evidences (self w') = num_evidences (self w)
  ∧ use_metadata (self w') = use_metadata (self w)
  ∧ files w' = files w.

(** [get_train_examples] against an existing collection. *)
Lemma get_train_examples_frozen (data_dir source : string) (w : World)
    (c : LabelColl) (rows : list RawRow) :
  label_sets (self w) !! source = Some c →
  is_Some (label_count (self w) !! source) →
  files w !! train_file data_dir source = Some rows →
  well_formed (num_evidences (self w)) (data_rows rows) →
  ∃ w' r, get_train_examples rng_state random_shuffle data_dir source false w
          = (w', r)
    ∧ label_sets (self w') = label_sets (self w)
    ∧ same_config w w'
    ∧ match r with
      | Ok out =>
          out = (random_shuffle (rng w)
                   (omap (build_row (num_evidences (self w))
                                    (use_metadata (self w))) (data_rows rows))).2
          ∧ Forall (λ il, coll_mem (row_label il.2) c = true) (data_rows rows)
      | Raise e =>
          e = ValueError
          ∧ Exists (λ il, coll_mem (row_label il.2) c = false) (data_rows rows)
      end.
Proof.
  intros Hc Hk Hf Hwf. unfold get_train_examples, train_file in *.
  assert (source ∈ dom (label_sets (self w))) as Hdom
    by (apply elem_of_dom; eauto).
  run. rewrite (bool_decide_eq_true_2 _ Hdom). run. rewrite Hf.
  match goal with
  | |- context [train_loop _ _ _ ?ils ?exs ?W] =>
      destruct (train_loop_frozen source c (num_evidences (self w))
                  (use_metadata (self w)) ils exs W)
        as (w1 & r & Hloop & Hls & Hstep & Hr);
        [reflexivity|reflexivity|exact Hc|exact Hk|exact Hwf|]
  end.
  rewrite Hloop. clear Hloop.
  destruct Hstep as (Hs1 & Hs2 & Hs3 & Hs4 & Hs5 & Hs6 & Hs7).
  simpl in *.
  destruct r as [out|e].
  - destruct Hr as [-> Hall]. unfold shuffle. simpl. rewrite Hs5.
    fold (data_rows rows).
    destruct (random_shuffle (rng w) _) as [g l'] eqn:Hsh.
    eexists _, _. split; [reflexivity|]. simpl.
    split; [assumption|]. split; [unfold same_config; simpl; tauto|].
    split; [reflexivity|assumption].
  - eexists _, _. split; [reflexivity|].
    split; [assumption|]. split; [unfold same_config; tauto|]. assumption.
Qed.

(** The source has not been scanned yet ([s] is empty), or its collection is
    still the set [s]. *)
Definition unfrozen (w : World) (source : string) (s : gset string) : Prop :=
  (label_sets (self w) !! source = None ∧ s = ∅)
  ∨ (label_sets (self w) !! source = Some (LSet s)
     ∧ is_Some (label_count (self w) !! source)).

(** [get_train_examples] in build mode on an unfrozen source. *)
Lemma get_train_examples_build (data_dir source : string) (w : World)
    (s : gset string) (rows : list RawRow) :
  unfrozen w source s →
  files w !! train_file data_dir source = Some rows →
  well_formed (num_evidences (self w)) (data_rows rows) →
  ∃ w', get_train_examples rng_state random_shuffle data_dir source true w
        = (w', Ok (random_shuffle (rng w)
                     (omap (build_row (num_evidences (self w))
                                      (use_metadata (self w))) (data_rows rows))).2)
    ∧ label_sets (self w')
      = <[source := LSet (list_to_set (labels_of (data_rows rows)) ∪ s)]>
          (label_sets (self w))
    ∧ same_config w w'
    ∧ dom (label_count (self w')) = {[source]} ∪ dom (label_count (self w)).
Proof.
  intros Hs Hf Hwf. unfold get_train_examples, train_file in *.
  destruct Hs as [[Hnone ->]|[Hc Hk]].
  - assert (source ∉ dom (label_sets (self w))) as Hdom
      by (apply not_elem_of_dom; assumption).
    run. rewrite (bool_decide_eq_false_2 _ Hdom). run. rewrite Hf.
    match goal with
    | |- context [train_loop _ _ _ ?ils ?exs ?W] =>
        destruct (train_loop_build source (num_evidences (self w))
                    (use_metadata (self w)) ils exs W ∅)
          as (w1 & Hloop & Hls & Hstep);
          [reflexivity|reflexivity|simpl; apply lookup_insert_eq
          |simpl; rewrite lookup_insert_eq; eauto|exact Hwf|]
    end.
    rewrite Hloop. clear Hloop.
    destruct Hstep as (Hs1 & Hs2 & Hs3 & Hs4 & Hs5 & Hs6 & Hs7).
    simpl in *. unfold shuffle. simpl. rewrite Hs5.
    fold (data_rows rows).
    destruct (random_shuffle (rng w) _) as [g l'] eqn:Hsh.
    eexists. split; [reflexivity|]. simpl.
    split; [rewrite Hls, insert_insert_eq; reflexivity|].
    split; [unfold same_config; simpl; tauto|].
    rewrite Hs7, dom_insert_L. reflexivity.
  - assert (source ∈ dom (label_sets (self w))) as Hdom
      by (apply elem_of_dom; eauto).
    run. rewrite (bool_decide_eq_true_2 _ Hdom). run. rewrite Hf.
    match goal with
    | |- context [train_loop _ _ _ ?ils ?exs ?W] =>
        destruct (train_loop_build source (num_evidences (self w))
                    (use_metadata (self w)) ils exs W s)
          as (w1 & Hloop & Hls & Hstep);
          [reflexivity|reflexivity|exact Hc|exact Hk|exact Hwf|]
    end.
    rewrite Hloop. clear Hloop.
    destruct Hstep as (Hs1 & Hs2 & Hs3 & Hs4 & Hs5 & Hs6 & Hs7).
    simpl in *. unfold shuffle. simpl. rewrite Hs5.
    fold (data_rows rows).
    destruct (random_shuffle (rng w) _) as [g l'] eqn:Hsh.
    eexists. split; [reflexivity|]. simpl.
    split; [assumption|].
    split; [unfold same_config; simpl; tauto|].
    rewrite Hs7. apply elem_of_dom in Hk. set_solver.
Qed.

(** The rows of a source's training file, and the labels seen in them. *)
Definition train_rows (fs : gmap string (list RawRow))
    (data_dir source : string) : list RawRow :=
  default [] (fs !! train_file data_dir source).

Definition train_labels (fs : gmap string (list RawRow))
    (data_dir source : string) : list string :=
  labels_of (data_rows (train_rows fs data_dir source)).

(** While the constructor scans: every collection is the set of the labels
    of its source's training file, and has its tally. *)
Definition building (data_dir : string) (w : World) : Prop :=
  ∀ src c, label_sets (self w) !! src = Some c →
    c = LSet (list_to_set (train_labels (files w) data_dir src))
    ∧ is_Some (label_count (self w) !! src).

Definition readable (n : nat) (data_dir : string)
    (fs : gmap string (list RawRow)) (srcs : list string) : Prop :=
  Forall (λ src, is_Some (fs !! train_file data_dir src)
                 ∧ well_formed n (data_rows (train_rows fs data_dir src))) srcs.

Lemma for_sources_build (data_dir : string) (srcs : list string) :
  ∀ w : World,
  building data_dir w →
  readable (num_evidences (self w)) data_dir (files w) srcs →
  ∃ w', for_sources rng_state
          (λ source, get_train_examples rng_state random_shuffle
                       data_dir source true) srcs w = (w', Ok tt)
    ∧ building data_dir w'
    ∧ same_config w w'
    ∧ dom (label_sets (self w')) = list_to_set srcs ∪ dom (label_sets (self w)).
Proof.
  unfold readable.
  induction srcs as [|src srcs IH]; intros w Hb Hr.
  - exists w. simpl. split; [reflexivity|]. split; [assumption|].
    split; [unfold same_config; tauto|]. set_solver.
  - inversion Hr as [|? ? [[rows Hrows] Hwf] Hrest]; subst.
    assert (train_rows (files w) data_dir src = rows) as Htr
      by (unfold train_rows; rewrite Hrows; reflexivity).
    rewrite Htr in Hwf.
    assert (∃ s, unfrozen w src s
                 ∧ list_to_set (labels_of (data_rows rows)) ∪ s
                   = list_to_set (train_labels (files w) data_dir src))
      as (s & Hun & Hset).
    { destruct (label_sets (self w) !! src) as [c|] eqn:Hc.
      - destruct (Hb src c Hc) as [-> Hk].
        eexists. split; [right; split; [exact Hc|assumption]|].
        unfold train_labels. rewrite Htr. set_solver.
      - exists ∅. split; [left; split; [assumption|reflexivity]|].
        unfold train_labels. rewrite Htr. set_solver. }
    destruct (get_train_examples_build data_dir src w s rows Hun Hrows Hwf)
      as (w1 & Hrun & Hls & Hcfg & Hdom).
    rewrite Hset in Hls.
    destruct Hcfg as (Hc1 & Hc2 & Hc3 & Hc4).
    destruct (IH w1) as (w' & Hloop & Hb' & Hcfg' & Hdom').
    + intros src' c' Hc'. rewrite Hls in Hc'. rewrite Hc4.
      destruct (decide (src = src')) as [<-|Hne].
      * rewrite lookup_insert_eq in Hc'. injection Hc' as <-.
        split; [reflexivity|]. apply elem_of_dom. rewrite Hdom. set_solver.
      * rewrite lookup_insert_ne in Hc' by assumption.
        destruct (Hb src' c' Hc') as [-> Hk]. split; [reflexivity|].
        apply elem_of_dom. rewrite Hdom. apply elem_of_dom in Hk. set_solver.
    + rewrite Hc2, Hc4. assumption.
    + exists w'. cbn [for_sources]. unfold mbind at 1, M_bind at 1.
      rewrite Hrun. cbn beta iota. rewrite Hloop.
      split; [reflexivity|]. split; [assumption|].
      split; [unfold same_config in *; intuition congruence|].
      rewrite Hdom', Hls, dom_insert_L. set_solver.
Qed.

(** The constructor on readable training files: it ends normally, and each
    source of [srcs] has the sorted list of its labels, no other source has
    a collection. *)
Lemma init_run (srcs : list string) (n : nat) (um : bool) (data_dir : string)
    (w0 : World) :
  readable n data_dir (files w0) srcs →
  ∃ w1, __init__ rng_state random_shuffle (Some srcs) n um (Some data_dir) w0
        = (w1, Ok tt)
    ∧ files w1 = files w0
    ∧ num_evidences (self w1) = n
    ∧ use_metadata (self w1) = um
    ∧ (∀ src, label_sets (self w1) !! src =
              if bool_decide (src ∈ srcs)
              then Some (LList (sorted_list
                     (LSet (list_to_set (train_labels (files w0) data_dir src)))))
              else None)
    ∧ (∀ src, src ∈ srcs → is_Some (label_count (self w1) !! src)).
Proof.
  intros Hr. unfold __init__.
  unfold mbind at 1, M_bind at 1, set_self at 1. cbn beta iota.
  unfold mbind at 1, M_bind at 1.
  match goal with
  | |- context [for_sources _ _ _ ?W] =>
      destruct (for_sources_build data_dir srcs W)
        as (w1 & Hrun & Hb & Hcfg & Hdom)
  end.
  { intros src c Hc. simpl in Hc. rewrite lookup_empty in Hc. discriminate. }
  { exact Hr. }
  rewrite Hrun. clear Hrun. unfold sort_label_set. run.
  destruct Hcfg as (Hc1 & Hc2 & Hc3 & Hc4). simpl in *.
  eexists. split; [reflexivity|]. simpl.
  split; [assumption|]. split; [assumption|]. split; [assumption|].
  split.
  - intros src. rewrite lookup_fmap.
    destruct (label_sets (self w1) !! src) as [c|] eqn:Hc; simpl.
    + destruct (Hb src c Hc) as [-> Hk].
      rewrite bool_decide_eq_true_2.
      * rewrite Hc4. reflexivity.
      * apply elem_of_dom_2 in Hc. rewrite Hdom in Hc. set_solver.
    + rewrite bool_decide_eq_false_2; [reflexivity|].
      apply not_elem_of_dom in Hc. rewrite Hdom in Hc. set_solver.
  - intros src Hsrc.
    assert (src ∈ dom (label_sets (self w1))) as Hin
      by (rewrite Hdom; set_solver).
    apply elem_of_dom in Hin as [c Hc]. apply (Hb src c Hc).
Qed.

(** [get_labels] in any state: it ends normally, leaves and returns sorted
    lists only, and a collection that is already the sorted list stays as it
    is. *)
Lemma get_labels_run (w : World) :
  ∃ w', get_labels rng_state w
        = (w', Ok ((λ val, LList (sorted_list val)) <$> label_sets (self w)))
    ∧ label_sets (self w')
      = (λ val, LList (sorted_list val)) <$> label_sets (self w)
    ∧ same_config w w'.
Proof.
  unfold get_labels, sort_label_set. run.
  eexists. split; [reflexivity|]. split; [reflexivity|].
  unfold same_config. simpl. tauto.
Qed.

(** ** Every example a loader returns was built from a data row *)

Definition keeps_config (w w' : World) : Prop :=
  num_evidences (self w') = num_evidences (self w)
  ∧ use_metadata (self w') = use_metadata (self w).

Lemma label_set_add_config source label (w w' : World) r :
  label_set_add rng_state source label w = (w', r) → keeps_config w w'.
Proof.
  unfold label_set_add, keeps_config. run.
  destruct (label_sets (self w) !! source) as [[s|l]|];
    intros [= <- <-]; simpl; auto.
Qed.

Lemma count_label_config source label (w w' : World) r :
  count_label rng_state source label w = (w', r) → keeps_config w w'.
Proof.
  unfold count_label, keeps_config. run.
  destruct (label_count (self w) !! source) as [k|];
    intros [= <- <-]; simpl; auto.
Qed.

Lemma label_check_config source label (w w' : World) r :
  (c ← get_label_set rng_state source;
   if coll_mem label c then mret tt else raise rng_state ValueError) w = (w', r) →
  w' = w.
Proof.
  run. destruct (label_sets (self w) !! source) as [c|]; simpl.
  - destruct (coll_mem label c); intros [= <- <-]; reflexivity.
  - intros [= <- <-]; reflexivity.
Qed.

Lemma train_loop_sound (source : string) (b : bool) (n : nat) (um : bool)
    (ils : list (nat * RawRow)) :
  ∀ (exs : list InputExample.t) (w w' : World) (out : list InputExample.t),
  num_evidences (self w) = n → use_metadata (self w) = um →
  train_loop rng_state source b ils exs w = (w', Ok out) →
  keeps_config w w'
  ∧ ∃ new, out = exs ++ new
           ∧ Forall (λ e, ∃ il, il ∈ List.filter is_data ils
                                ∧ build_row n um il = Some e) new.
Proof.
  induction ils as [|[i line] ils IH]; intros exs w w' out Hn Hum.
  - simpl. intros [= <- <-]. split; [split; reflexivity|].
    exists []. rewrite app_nil_r. split; [reflexivity|constructor].
  - assert (is_data (i, line)
            = negb (i =? 0)%nat && negb (length line =? 0)%nat) as Hd
      by reflexivity.
    cbn [List.filter train_loop]. rewrite Hd.
    destruct (i =? 0)%nat eqn:Hi; cbn [negb andb].
    { apply IH; assumption. }
    destruct (length line =? 0)%nat eqn:Hl; cbn [negb andb].
    { apply IH; assumption. }
    unfold mbind at 1, M_bind at 1, get_self at 1.
    unfold mbind at 1, M_bind at 1, lift at 1.
    destruct (create_example (num_evidences (self w)) line)
      as [[[[ev ct] lab] md]|e] eqn:Hrow; [|discriminate].
    cbn beta iota.
    unfold mbind at 1, M_bind at 1. unfold mbind at 1, M_bind at 1.
    match goal with
    | |- context [(if b then ?m1 else ?m2) w] =>
        destruct ((if b then m1 else m2) w) as [w1 r1] eqn:Hstep1
    end.
    assert (keeps_config w w1) as [Hk1 Hk1'].
    { destruct b.
      - eapply label_set_add_config; eassumption.
      - apply label_check_config in Hstep1 as ->. split; reflexivity. }
    destruct r1 as [[]|e]; [|discriminate].
    cbn beta iota. unfold mbind at 1, M_bind at 1.
    destruct (count_label rng_state source lab w1) as [w2 r2] eqn:Hstep2.
    apply count_label_config in Hstep2 as [Hk2 Hk2'].
    destruct r2 as [[]|e]; [|discriminate].
    intros Hloop. apply IH in Hloop as ([Hk3 Hk3'] & new & -> & Hnew);
      [|congruence|congruence].
    split; [split; congruence|].
    exists (make_example (use_metadata (self w)) i ev ct lab md :: new).
    split; [rewrite <- app_assoc; reflexivity|].
    constructor.
    + exists (i, line). split; [left|].
      unfold build_row. simpl. rewrite <- Hn, Hrow, Hum. reflexivity.
    + eapply Forall_impl; [exact Hnew|].
      intros e (il & Hil & He). exists il. split; [right; assumption|assumption].
Qed.

Lemma filtered_loop_sound (source : string) (n : nat) (um : bool)
    (ils : list (nat * RawRow)) :
  ∀ (exs : list InputExample.t) (sk : nat) (w w' : World)
    (out : list InputExample.t) (sk' : nat),
  num_evidences (self w) = n → use_metadata (self w) = um →
  filtered_loop source ils exs sk w = (w', Ok (out, sk')) →
  w' = w
  ∧ ∃ new, out = exs ++ new
           ∧ Forall (λ e, ∃ il, il ∈ List.filter is_data ils
                                ∧ build_row n um il = Some e) new.
Proof.
  induction ils as [|[i line] ils IH]; intros exs sk w w' out sk' Hn Hum.
  - simpl. intros [= <- <- <-]. split; [reflexivity|].
    exists []. rewrite app_nil_r. split; [reflexivity|constructor].
  - assert (is_data (i, line)
            = negb (i =? 0)%nat && negb (length line =? 0)%nat) as Hd
      by reflexivity.
    cbn [List.filter filtered_loop]. rewrite Hd.
    destruct (i =? 0)%nat eqn:Hi; cbn [negb andb].
    { apply IH; assumption. }
    destruct (length line =? 0)%nat eqn:Hl; cbn [negb andb].
    { apply IH; assumption. }
    unfold mbind at 1, M_bind at 1, get_self at 1.
    unfold mbind at 1, M_bind at 1, lift at 1.
    destruct (create_example (num_evidences (self w)) line)
      as [[[[ev ct] lab] md]|e] eqn:Hrow; [|discriminate].
    cbn beta iota.
    unfold mbind at 1, M_bind at 1, get_label_set at 1.
    unfold mbind at 1, M_bind at 1, get_self at 1.
    destruct (label_sets (self w) !! source) as [c|]; [|discriminate].
    unfold mret at 1, M_ret at 1.
    destruct (coll_mem lab c); cbn [negb].
    + intros Hloop. apply IH in Hloop as (-> & new & -> & Hnew);
        [|assumption|assumption].
      split; [reflexivity|].
      exists (make_example (use_metadata (self w)) i ev ct lab md :: new).
      split; [rewrite <- app_assoc; reflexivity|].
      constructor.
      * exists (i, line). split; [left|].
        unfold build_row. simpl. rewrite <- Hn, Hrow, Hum. reflexivity.
      * eapply Forall_impl; [exact Hnew|].
        intros e (il & Hil & He). exists il.
        split; [right; assumption|assumption].
    + intros Hloop. apply IH in Hloop as (-> & new & -> & Hnew);
        [|assumption|assumption].
      split; [reflexivity|]. exists new. split; [reflexivity|].
      eapply Forall_impl; [exact Hnew|].
      intros e (il & Hil & He). exists il.
      split; [right; assumption|assumption].
Qed.

Definition file_rows (fs : gmap string (list RawRow)) (path : string)
  : list RawRow := default [] (fs !! path).

Lemma built_rows_shape (n : nat) (um : bool) (rows : list RawRow)
    (new : list InputExample.t) :
  Forall (λ e, ∃ il, il ∈ List.filter is_data (enumerate rows)
                     ∧ build_row n um il = Some e) new →
  Forall (built_from n rows) new.
Proof.
  intros H. eapply Forall_impl; [exact H|]. intros e (il & Hil & He).
  exists il. split; [exact Hil|]. eapply build_row_shape. exact He.
Qed.

Lemma built_count (n : nat) (um : bool) (ils : list (nat * RawRow)) :
  well_formed n ils → length (omap (build_row n um) ils) = length ils.
Proof.
  induction 1 as [|il ils Hrow _ IH]; [reflexivity|].
  apply is_ok_true in Hrow as [[[[ev ct] lab] md] Hrow].
  cbn [omap list_omap]. unfold build_row at 1. rewrite Hrow. simpl.
  f_equal. exact IH.
Qed.

Lemma Forall_Exists_mem (c : LabelColl) (ils : list (nat * RawRow)) :
  Forall (λ il, coll_mem (row_label il.2) c = true) ils →
  ¬ Exists (λ il, coll_mem (row_label il.2) c = false) ils.
Proof.
  intros Hall Hex. apply Exists_exists in Hex as (il & Hin & Hf).
  rewrite Forall_forall in Hall. specialize (Hall il Hin). congruence.
Qed.

(** C4, as amended.  On a training file whose data rows are wide enough:
    with [create_label_set] false and a collection [c] for the source, the
    scan raises if and only if some data row's lower-cased label is not in
    [c], and what it raises is [ValueError]; with [create_label_set] true
    and the source's collection not yet frozen (absent, or still a set
    [s]), the scan ends normally with one example per data row, and the
    collection is the set [s] grown by every label of the file. *)
Theorem train_label_check (data_dir source : string) (w wb : World)
    (c : LabelColl) (s : gset string) (rows rows_b : list RawRow) :
  label_sets (self w) !! source = Some c →
  is_Some (label_count (self w) !! source) →
  files w !! train_file data_dir source = Some rows →
  well_formed (num_evidences (self w)) (data_rows rows) →
  unfrozen wb source s →
  files wb !! train_file data_dir source = Some rows_b →
  well_formed (num_evidences (self wb)) (data_rows rows_b) →
  let r := (get_train_examples rng_state random_shuffle
              data_dir source false w).2 in
  (is_ok r = false
   ↔ Exists (λ il, coll_mem (row_label il.2) c = false) (data_rows rows))
  ∧ (is_ok r = false → r = Raise ValueError)
  ∧ ∃ wb' all,
      get_train_examples rng_state random_shuffle data_dir source true wb
      = (wb', Ok (random_shuffle (rng wb) all).2)
      ∧ length all = length (data_rows rows_b)
      ∧ label_sets (self wb') !! source
        = Some (LSet (list_to_set (labels_of (data_rows rows_b)) ∪ s)).
Proof.
  intros Hc Hk Hf Hwf Hun Hfb Hwfb r.
  destruct (get_train_examples_frozen data_dir source w c rows Hc Hk Hf Hwf)
    as (w' & r' & Hrun & _ & _ & Hr).
  assert (r = r') as -> by (unfold r; rewrite Hrun; reflexivity).
  split; [|split].
  - destruct r' as [out|e]; simpl.
    + destruct Hr as [_ Hall]. split; [discriminate|].
      intros Hex. exfalso. eapply Forall_Exists_mem; eassumption.
    + destruct Hr as [_ Hex]. split; [intros _; assumption|reflexivity].
  - destruct r' as [out|e]; simpl; [discriminate|].
    destruct Hr as [-> _]. reflexivity.
  - destruct (get_train_examples_build data_dir source wb s rows_b Hun Hfb Hwfb)
      as (wb' & Hrunb & Hls & _ & _).
    eexists wb', _. split; [exact Hrunb|]. split.
    + apply built_count. assumption.
    + rewrite Hls. apply lookup_insert_eq.
Qed.

(** C5.  Constructed over readable training files, the processor returns
    from [get_labels], for each of its sources, a list that is sorted
    ascending, has no duplicates, holds exactly the labels seen in that
    source's training rows, and is as long as the number of distinct labels
    seen; every value returned is a list, never a set.  In any state
    whatever, [get_labels] returns sorted lists only. *)
Theorem get_labels_sorted_vocabulary (srcs : list string) (n : nat)
    (um : bool) (data_dir : string) (w0 w : World) :
  readable n data_dir (files w0) srcs →
  (∃ w1 w2 labels,
      __init__ rng_state random_shuffle (Some srcs) n um (Some data_dir) w0
        = (w1, Ok tt)
      ∧ get_labels rng_state w1 = (w2, Ok labels)
      ∧ ∀ src, src ∈ srcs →
          ∃ l, labels !! src = Some (LList l)
             ∧ Sorted String.le l
             ∧ NoDup l
             ∧ (∀ x, x ∈ l ↔ x ∈ train_labels (files w0) data_dir src)
             ∧ length l
               = length (remove_dups (train_labels (files w0) data_dir src)))
  ∧ (∃ w' labels,
      get_labels rng_state w = (w', Ok labels)
      ∧ ∀ src val, labels !! src = Some val →
          ∃ l, val = LList l ∧ Sorted String.le l).
Proof.
  intros Hr. split.
  - destruct (init_run srcs n um data_dir w0 Hr)
      as (w1 & Hinit & _ & _ & _ & Hls & _).
    destruct (get_labels_run w1) as (w2 & Hget & _ & _).
    exists w1, w2, ((λ val, LList (sorted_list val)) <$> label_sets (self w1)).
    split; [exact Hinit|]. split; [exact Hget|].
    intros src Hsrc.
    set (S := list_to_set (train_labels (files w0) data_dir src) : gset string).
    exists (sorted_list (LSet S)).
    split.
    { rewrite lookup_fmap, Hls, bool_decide_eq_true_2 by assumption.
      cbn [fmap option_fmap option_map]. f_equal. f_equal.
      apply sorted_list_fixed, sorted_list_sorted. }
    split; [apply sorted_list_sorted|].
    split; [apply sorted_list_set_NoDup|].
    split.
    + intros x. rewrite sorted_list_set_elem. unfold S.
      apply elem_of_list_to_set.
    + rewrite length_remove_dups_set. fold S. simpl.
      rewrite (merge_sort_Permutation String.le). reflexivity.
  - destruct (get_labels_run w) as (w' & Hget & _ & _).
    eexists _, _. split; [exact Hget|].
    intros src val Hval. rewrite lookup_fmap in Hval.
    destruct (label_sets (self w) !! src) as [c|]; [|discriminate].
    injection Hval as <-. eexists. split; [reflexivity|].
    apply sorted_list_sorted.
Qed.

(** [random.shuffle] reorders its argument. *)
Hypothesis random_shuffle_perm :
  ∀ g l, (random_shuffle g l).2 ≡ₚ l.

Lemma get_train_examples_sound (data_dir source : string) (b : bool)
    (w w' : World) (out : list InputExample.t) :
  get_train_examples rng_state random_shuffle data_dir source b w = (w', Ok out) →
  Forall (built_from (num_evidences (self w))
            (file_rows (files w) (train_file data_dir source))) out.
Proof.
  unfold get_train_examples, file_rows, train_file. run.
  destruct (bool_decide _); run.
  - destruct (files w !! _) as [rows|]; [|discriminate]. simpl.
    destruct (train_loop _ _ _ _ _ _) as [w1 [o|e]] eqn:Hloop; [|discriminate].
    apply (train_loop_sound _ _ (num_evidences (self w)) (use_metadata (self w)))
      in Hloop as (_ & new & -> & Hnew); [|reflexivity|reflexivity].
    unfold shuffle. simpl.
    pose proof (random_shuffle_perm (rng w1) new) as Hperm.
    destruct (random_shuffle (rng w1) new) as [g l']. simpl in *.
    intros [= <- <-]. rewrite Hperm. apply (built_rows_shape _ _ _ _ Hnew).
  - destruct (files w !! _) as [rows|]; [|discriminate]. simpl.
    destruct (train_loop _ _ _ _ _ _) as [w1 [o|e]] eqn:Hloop; [|discriminate].
    apply (train_loop_sound _ _ (num_evidences (self w)) (use_metadata (self w)))
      in Hloop as (_ & new & -> & Hnew); [|reflexivity|reflexivity].
    unfold shuffle. simpl.
    pose proof (random_shuffle_perm (rng w1) new) as Hperm.
    destruct (random_shuffle (rng w1) new) as [g l']. simpl in *.
    intros [= <- <-]. rewrite Hperm. apply (built_rows_shape _ _ _ _ Hnew).
Qed.

Lemma get_dev_examples_sound (data_dir source : string)
    (filename : option string) (w w' : World) (out : list InputExample.t) :
  get_dev_examples rng_state data_dir source filename w = (w', Ok out) →
  Forall (built_from (num_evidences (self w))
            (file_rows (files w) (dev_file data_dir source filename))) out.
Proof.
  unfold get_dev_examples, file_rows, dev_file.
  destruct filename as [f|]; run.
  - destruct (files w !! _) as [rows|]; [|discriminate]. simpl.
    destruct (filtered_loop _ _ _ _ _) as [w1 [[o sk]|e]] eqn:Hloop;
      [|discriminate].
    apply (filtered_loop_sound _ (num_evidences (self w)) (use_metadata (self w)))
      in Hloop as (_ & new & -> & Hnew); [|reflexivity|reflexivity].
    simpl. intros [= <- <-]. apply (built_rows_shape _ _ _ _ Hnew).
  - destruct (files w !! _) as [rows|]; [|discriminate]. simpl.
    destruct (filtered_loop _ _ _ _ _) as [w1 [[o sk]|e]] eqn:Hloop;
      [|discriminate].
    apply (filtered_loop_sound _ (num_evidences (self w)) (use_metadata (self w)))
      in Hloop as (_ & new & -> & Hnew); [|reflexivity|reflexivity].
    simpl. intros [= <- <-]. apply (built_rows_shape _ _ _ _ Hnew).
Qed.

Lemma get_test_examples_sound (data_dir source : string)
    (w w' : World) (out : list InputExample.t) :
  get_test_examples rng_state data_dir source w = (w', Ok out) →
  Forall (built_from (num_evidences (self w))
            (file_rows (files w)
               (path_join data_dir ("test." +:+ source +:+ ".tsv")))) out.
Proof.
  unfold get_test_examples, file_rows. run.
  destruct (files w !! _) as [rows|]; [|discriminate]. simpl.
  destruct (filtered_loop _ _ _ _ _) as [w1 [[o sk]|e]] eqn:Hloop;
    [|discriminate].
  apply (filtered_loop_sound _ (num_evidences (self w)) (use_metadata (self w)))
    in Hloop as (_ & new & -> & Hnew); [|reflexivity|reflexivity].
  simpl. intros [= <- <-]. apply (built_rows_shape _ _ _ _ Hnew).
Qed.

(** C8.  A row with at least the required number of columns gives an
    example whose evidences are exactly the configured number of columns
    from index 2 on, and whose label is the row's last field, lower-cased;
    and every example that the train, dev or test loader returns was built
    from such a row and has this shape. *)
Theorem claim_example_shape (data_dir source : string)
    (filename : option string) (create_label_set : bool) (w : World)
    (line : RawRow) :
  let n := num_evidences (self w) in
  ((required_columns n ≤ length line)%nat →
     ∃ evidences claim_text label metadata,
       create_example n line = Ok (evidences, claim_text, label, metadata)
       ∧ length evidences = n
       ∧ evidences = take n (drop 2 line)
       ∧ Some label = lower <$> last line)
  ∧ (∀ w' out,
       get_train_examples rng_state random_shuffle data_dir source
         create_label_set w = (w', Ok out) →
       Forall (built_from n (file_rows (files w) (train_file data_dir source)))
              out)
  ∧ (∀ w' out,
       get_dev_examples rng_state data_dir source filename w = (w', Ok out) →
       Forall (built_from n
                 (file_rows (files w) (dev_file data_dir source filename)))
              out)
  ∧ (∀ w' out,
       get_test_examples rng_state data_dir source w = (w', Ok out) →
       Forall (built_from n
                 (file_rows (files w)
                    (path_join data_dir ("test." +:+ source +:+ ".tsv"))))
              out).
Proof.
  intros n. split; [|split; [|split]].
  - intros Hlen. apply create_example_is_ok in Hlen.
    apply is_ok_true in Hlen as [[[[ev ct] lab] md] Hrow].
    exists ev, ct, lab, md. split; [exact Hrow|].
    apply create_example_fields in Hrow as (Hl & Hnth & Hlab & _).
    split; [assumption|]. split; [apply evidence_columns; assumption|assumption].
  - intros w' out. apply get_train_examples_sound.
  - intros w' out. apply get_dev_examples_sound.
  - intros w' out. apply get_test_examples_sound.
Qed.

End ProcessorFacts.

#[global] Instance well_formed_dec n ils : Decision (well_formed n ils).
Proof. unfold well_formed. apply _. Defined.

End LoaderFacts.

(** ** A small instance

    One source [X]; its training file has the labels [true], [false],
    [TRUE]; the dev file has a label the training file lacks.  The texts
    are ASCII, so [str.lower] and [str.strip] are the ASCII versions.  The
    stand-in for [random.shuffle] reverses the list. *)

Section SmallInstance.

#[local] Existing Instance ascii_str.

Definition demo_shuffle (g : unit) (l : list InputExample.t)
  : unit * list InputExample.t := (g, reverse l).

Definition demo_row (claim label : string) : RawRow :=
  ["en"; "site"; "e1"; "e2"; "e3"; "2020-01-15"; "2020-02-01"; "who";
   claim; label].

Definition demo_header : RawRow := ["language"; "site"].

Definition demo_train : list RawRow :=
  [demo_header; demo_row "c1" "true"; []; demo_row "c2" "false";
   demo_row "c3" "TRUE"].
Definition demo_dev : list RawRow :=
  [demo_header; demo_row "d1" "unknown"; demo_row "d2" "True"].
Definition demo_test : list RawRow :=
  [demo_header; demo_row "t1" "false"].
Definition demo_other : list RawRow :=
  [demo_header; demo_row "o1" "true"; demo_row "o2" "half true"].

Definition demo_files : gmap string (list RawRow) :=
  {[ "d/train.X.tsv" := demo_train;
     "d/dev.X.tsv" := demo_dev;
     "d/test.X.tsv" := demo_test;
     "e/train.X.tsv" := demo_other ]}.

Definition demo_world : World unit :=
  mkWorld unit (mkProcessor None ∅ ∅ 3 false) demo_files [] tt.

(** The world after [XFactEvidenceProcessor(["X"], 3, False, "d")]. *)
Definition demo_frozen : World unit :=
  (__init__ unit demo_shuffle (Some ["X"]) 3 false (Some "d") demo_world).1.

Example demo_frozen_vocabulary :
  label_sets (self demo_frozen) !! "X" = Some (LList ["false"; "true"]).
Proof. vm_compute. reflexivity. Qed.

Lemma demo_shuffle_perm g l : (demo_shuffle g l).2 ≡ₚ l.
Proof. simpl. apply reverse_Permutation. Qed.

Lemma dev_test_filter_by_vocabulary_witness :
  ∃ w' examples,
    get_dev_examples unit "d" "X" None demo_frozen = (w', Ok examples)
    ∧ last (stdout w') = Some (P_dev_skipped "X" 1 1)
    ∧ (InputExample.question <$> examples) = ["d2"].
Proof.
  destruct (dev_test_filter_by_vocabulary unit "d" "X" None demo_frozen
              (LList ["false"; "true"]) demo_dev demo_test)
    as [(w' & examples & skipped & Hrun & _ & Hout & _) _].
  - vm_compute. reflexivity.
  - vm_compute. reflexivity.
  - vm_compute. reflexivity.
  - by_computation.
  - by_computation.
  - exists w', examples. split; [exact Hrun|].
    revert Hrun Hout. vm_compute. intros [= <- <-]. intros _.
    split; reflexivity.
Defined.

(** C4 as stated fails: once the constructor has frozen the vocabulary of
    [X] into a list, a scan of [X] with [create_label_set] true raises
    [AttributeError] on its first data row, and the label [half true] of
    the scanned file is not added. *)
Lemma build_mode_on_frozen_source_raises :
  (__init__ unit demo_shuffle (Some ["X"]) 3 false (Some "d") demo_world).2
    = Ok tt
  ∧ label_sets (self demo_frozen) !! "X" = Some (LList ["false"; "true"])
  ∧ ∃ w', get_train_examples unit demo_shuffle "e" "X" true demo_frozen
          = (w', Raise AttributeError)
        ∧ label_sets (self w') !! "X" = Some (LList ["false"; "true"]).
Proof.
  split; [vm_compute; reflexivity|].
  split; [vm_compute; reflexivity|].
  eexists. split; vm_compute; reflexivity.
Qed.

Lemma train_label_check_witness :
  (get_train_examples unit demo_shuffle "e" "X" false demo_frozen).2
    = Raise ValueError
  ∧ ∃ wb' all,
      get_train_examples unit demo_shuffle "e" "X" true demo_world
      = (wb', Ok (demo_shuffle (rng demo_world) all).2)
      ∧ length all = 2%nat
      ∧ label_sets (self wb') !! "X"
        = Some (LSet (list_to_set ["true"; "half true"] ∪ ∅)).
Proof.
  destruct (train_label_check unit demo_shuffle "e" "X" demo_frozen demo_world
              (LList ["false"; "true"]) ∅ demo_other demo_other)
    as (Hiff & Herr & Hbuild).
  - vm_compute. reflexivity.
  - vm_compute. eauto.
  - vm_compute. reflexivity.
  - by_computation.
  - left. split; vm_compute; reflexivity.
  - vm_compute. reflexivity.
  - by_computation.
  - split.
    + apply Herr. vm_compute. reflexivity.
    + exact Hbuild.
Defined.

Lemma get_labels_sorted_vocabulary_witness :
  ∃ w1 w2 labels,
    __init__ unit demo_shuffle (Some ["X"]) 3 false (Some "d") demo_world
      = (w1, Ok tt)
    ∧ get_labels unit w1 = (w2, Ok labels)
    ∧ labels !! "X" = Some (LList ["false"; "true"]).
Proof.
  destruct (get_labels_sorted_vocabulary unit demo_shuffle ["X"] 3 false "d"
              demo_world demo_world)
    as [(w1 & w2 & labels & Hinit & Hget & Hsrc) _].
  - constructor; [split; [vm_compute; eauto | by_computation]|constructor].
  - exists w1, w2, labels. split; [exact Hinit|]. split; [exact Hget|].
    assert (Ok labels
            = (get_labels unit
                 (__init__ unit demo_shuffle (Some ["X"]) 3 false (Some "d")
                    demo_world).1).2) as H.
    { rewrite Hinit. cbn [fst]. rewrite Hget. reflexivity. }
    vm_compute in H. injection H as ->. reflexivity.
Defined.

Lemma claim_example_shape_witness :
  (∃ evidences claim_text label metadata,
      create_example 3 (demo_row "c3" "TRUE")
        = Ok (evidences, claim_text, label, metadata)
      ∧ length evidences = 3%nat
      ∧ evidences = ["e1"; "e2"; "e3"]
      ∧ Some label = Some "true")
  ∧ ∃ w' out,
      get_train_examples unit demo_shuffle "d" "X" false demo_frozen
        = (w', Ok out)
      ∧ length out = 3%nat
      ∧ Forall (built_from 3 demo_train) out.
Proof.
  destruct (claim_example_shape unit demo_shuffle demo_shuffle_perm
              "d" "X" None false demo_frozen (demo_row "c3" "TRUE"))
    as (Hrow & Htrain & _ & _).
  split.
  - apply Hrow. vm_compute. lia.
  - destruct (get_train_examples unit demo_shuffle "d" "X" false demo_frozen)
      as [w' [out|e]] eqn:Hrun; [|vm_compute in Hrun; discriminate].
    exists w', out. split; [reflexivity|]. split.
    + revert Hrun. vm_compute. intros [= <- <-]. reflexivity.
    + apply (Htrain w' out). reflexivity.
Defined.

End SmallInstance.

(** ** The metadata string *)


Section Metadata.

Context {str : Str}.

(** C10, as amended.  For a row of at least five fields the metadata string
    is made of the language and the site, read from the first two fields,
    and of the claimant, the claim date and the review date, read third,
    fifth and fourth from the end, each stripped; it is the metadata that
    [create_example] returns; and two rows that agree at these five
    positions have the same metadata. *)
Theorem metadata_fields (n : nat) (line line' : RawRow) :
  (5 ≤ length line)%nat →
  (∃ language site claimant claim_date review_date,
      line !! 0%nat = Some language
      ∧ line !! 1%nat = Some site
      ∧ line !! (length line - 3)%nat = Some claimant
      ∧ line !! (length line - 5)%nat = Some claim_date
      ∧ line !! (length line - 4)%nat = Some review_date
      ∧ get_metadata line
        = Ok ("language : " +:+ strip language +:+ ", site : " +:+ strip site
              +:+ ", claimant : " +:+ strip claimant
              +:+ ", claim_date : " +:+ strip claim_date
              +:+ ", review_date: " +:+ strip review_date))
  ∧ (∀ evidences claim_text label metadata,
       create_example n line = Ok (evidences, claim_text, label, metadata) →
       get_metadata line = Ok metadata)
  ∧ (py_index line 0 = py_index line' 0 →
     py_index line 1 = py_index line' 1 →
     py_index line (-3) = py_index line' (-3) →
     py_index line (-4) = py_index line' (-4) →
     py_index line (-5) = py_index line' (-5) →
     get_metadata line = get_metadata line').
Proof.
  intros Hlen. split; [|split].
  - unfold get_metadata.
    change 0 with (Z.of_nat 0). change 1 with (Z.of_nat 1).
    change (-3) with (- Z.of_nat 3). change (-4) with (- Z.of_nat 4).
    change (-5) with (- Z.of_nat 5).
    rewrite !py_index_nonneg, !py_index_neg by lia.
    destruct (Nat.leb_spec 3 (length line)); [|lia].
    destruct (Nat.leb_spec 4 (length line)); [|lia].
    destruct (Nat.leb_spec 5 (length line)); [|lia].
    destruct (lookup_lt_is_Some_2 line 0) as [language ->]; [lia|].
    destruct (lookup_lt_is_Some_2 line 1) as [site ->]; [lia|].
    destruct (lookup_lt_is_Some_2 line (length line - 3)) as [claimant ->]; [lia|].
    destruct (lookup_lt_is_Some_2 line (length line - 5)) as [claim_date ->]; [lia|].
    destruct (lookup_lt_is_Some_2 line (length line - 4)) as [review_date ->]; [lia|].
    exists language, site, claimant, claim_date, review_date.
    repeat split; reflexivity.
  - intros ev ct lab md Hrow.
    apply create_example_fields in Hrow as (_ & _ & _ & Hmd). exact Hmd.
  - intros H0 H1 H3 H4 H5. unfold get_metadata.
    rewrite H0, H1, H3, H4, H5. reflexivity.
Qed.

End Metadata.

Section MetadataInstance.

#[local] Existing Instance ascii_str.

(** C10 as stated fails: two rows that differ in their first field only,
    and so agree on their last nine fields, have different metadata. *)
Lemma metadata_reads_leading_fields :
  let line1 := ["en"; "site"; "e1"; "e2"; "e3"; "d1"; "d2"; "who"; "claim"; "true"] in
  let line2 := ["bn"; "site"; "e1"; "e2"; "e3"; "d1"; "d2"; "who"; "claim"; "true"] in
  drop 1 line1 = drop 1 line2
  ∧ get_metadata line1
    = Ok "language : en, site : site, claimant : who, claim_date : d1, review_date: d2"
  ∧ get_metadata line2
    = Ok "language : bn, site : site, claimant : who, claim_date : d1, review_date: d2"
  ∧ get_metadata line1 ≠ get_metadata line2.
Proof.
  cbv zeta. split; [reflexivity|]. split; [reflexivity|].
  split; [reflexivity|]. vm_compute. discriminate.
Qed.

Lemma metadata_fields_witness :
  get_metadata ["en"; "site"; "e1"; "d1"; "d2"; " who "; "claim"; "true"]
  = get_metadata ["en"; "site"; "x"; "y"; "z"; "d1"; "d2"; " who "; "other"; "false"].
Proof.
  apply (metadata_fields 1
           ["en"; "site"; "e1"; "d1"; "d2"; " who "; "claim"; "true"]
           ["en"; "site"; "x"; "y"; "z"; "d1"; "d2"; " who "; "other"; "false"]).
  - simpl. lia.
  - reflexivity.
  - reflexivity.
  - reflexivity.
  - reflexivity.
  - reflexivity.
Defined.

End MetadataInstance.

(** ** The feature converters *)

(** The encodings of one example's choices, and the features made of
    them; logging apart, this is what one turn of a converter's loop
    computes. *)
Definition pair_encodings
    (tokenizer : string → option string → nat → BatchEncoding.t)
    (max_length : nat) (example : InputExample.t) : list BatchEncoding.t :=
  (λ context, tokenizer (InputExample.question example) (Some context) max_length)
    <$> InputExample.contexts example.

Definition single_encodings
    (tokenizer : string → option string → nat → BatchEncoding.t)
    (max_length : nat) (example : InputExample.t) : list BatchEncoding.t :=
  tokenizer (InputExample.question example) None max_length
  :: ((λ context, tokenizer context None max_length)
        <$> InputExample.contexts example).

Definition features_of (label_map : gmap string nat)
    (example : InputExample.t) (choices_inputs : list BatchEncoding.t)
  : result InputFeatures.t :=
  label ← label_map_lookup label_map (InputExample.label example);
  attention_mask ← column_if_first BatchEncoding.attention_mask choices_inputs;
  token_type_ids ← column_if_first BatchEncoding.token_type_ids choices_inputs;
  mret (InputFeatures.mk (InputExample.example_id example)
          (BatchEncoding.input_ids <$> choices_inputs)
          attention_mask token_type_ids (Some label)).

Lemma for_each_enumerate {A B} (f : A → result B) (l : list A) (k : nat) :
  for_each (λ ix : nat * A, f ix.2) (imap (λ i x, (k + i, x)%nat) l)
  = for_each f l.
Proof.
  revert k. induction l as [|x l IH]; intros k; [reflexivity|].
  simpl. destruct (f x) as [y|e]; simpl; [|reflexivity].
  rewrite <- (IH (S k)). f_equal. f_equal.
  apply imap_ext. intros i y' _. simpl. f_equal. lia.
Qed.

Lemma for_each_enumerate_0 {A B} (f : A → result B) (l : list A) :
  for_each (λ ix : nat * A, f ix.2) (enumerate l) = for_each f l.
Proof.
  rewrite <- (for_each_enumerate f l 0). unfold enumerate. f_equal.
Qed.

(** *** The label map *)

Lemma label_map_of_snoc (l : list string) (y : string) :
  label_map_of (l ++ [y]) = <[y := length l]> (label_map_of l).
Proof.
  unfold label_map_of, enumerate. rewrite imap_app, foldl_app. simpl.
  rewrite Nat.add_0_r. reflexivity.
Qed.

(** The index the map gives a label is a position of that label. *)
Lemma label_map_of_position (l : list string) (x : string) (i : nat) :
  label_map_of l !! x = Some i → l !! i = Some x.
Proof.
  revert i. induction l as [|y l IH] using rev_ind; intros i.
  - unfold label_map_of. simpl. rewrite lookup_empty. discriminate.
  - rewrite label_map_of_snoc.
    destruct (decide (y = x)) as [->|Hne].
    + rewrite lookup_insert_eq. intros [= <-]. apply list_lookup_middle.
      reflexivity.
    + rewrite lookup_insert_ne by assumption. intros H.
      apply lookup_app_l_Some. apply IH. assumption.
Qed.

Lemma label_map_of_elem (l : list string) (x : string) :
  x ∈ l → is_Some (label_map_of l !! x).
Proof.
  induction l as [|y l IH] using rev_ind.
  - intros H. inversion H.
  - rewrite label_map_of_snoc. intros H.
    destruct (decide (y = x)) as [->|Hne].
    + rewrite lookup_insert_eq. eauto.
    + rewrite lookup_insert_ne by assumption. apply IH.
      apply elem_of_app in H as [H|H]; [assumption|].
      apply list_elem_of_singleton in H. congruence.
Qed.

(** Without duplicates, position [i] maps to [i]. *)
Lemma label_map_of_NoDup (l : list string) :
  NoDup l → ∀ i x, l !! i = Some x → label_map_of l !! x = Some i.
Proof.
  induction l as [|y l IH] using rev_ind; intros Hnd i x Hi.
  - rewrite lookup_nil in Hi. discriminate.
  - apply NoDup_app in Hnd as (Hnd & Hy & _).
    rewrite label_map_of_snoc.
    destruct (decide (i < length l)%nat) as [Hlt|Hge].
    + rewrite lookup_app_l in Hi by assumption.
      assert (x ∈ l) as Hx by (eapply list_elem_of_lookup_2; eassumption).
      assert (y ≠ x) as Hne.
      { intros ->. apply (Hy x Hx). apply list_elem_of_singleton. reflexivity. }
      rewrite lookup_insert_ne by assumption. apply IH; assumption.
    + assert (i = length l) as ->.
      { apply lookup_lt_Some in Hi. rewrite length_app in Hi. simpl in Hi. lia. }
      rewrite list_lookup_middle in Hi by reflexivity. injection Hi as ->.
      apply lookup_insert_eq.
Qed.

(** *** One column of the features *)

Lemma py_index_head {A} (l : list A) :
  py_index l 0 = match head l with Some x => Ok x | None => Raise IndexError end.
Proof.
  change 0 with (Z.of_nat 0). rewrite py_index_nonneg.
  destruct l; reflexivity.
Qed.

Lemma column_if_first_some {V} (key : BatchEncoding.t → option V)
    (l : list BatchEncoding.t) (vs : list V) :
  column_if_first key l = Ok (Some vs) →
  (∃ first, head l = Some first ∧ is_Some (key first))
  ∧ Forall2 (λ x v, key x = Some v) l vs.
Proof.
  unfold column_if_first. rewrite py_index_head.
  destruct (head l) as [first|] eqn:Hh; simpl; [|discriminate].
  destruct (key first) as [v|] eqn:Hk; [|discriminate].
  destruct (for_each _ l) as [ws|] eqn:Hl; simpl; [|discriminate].
  intros [= <-]. split; [exists first; rewrite Hk; eauto|].
  apply for_each_Forall2 in Hl.
  eapply Forall2_impl; [exact Hl|]. simpl. intros x w.
  destruct (key x); [congruence|discriminate].
Qed.

Lemma column_if_first_none {V} (key : BatchEncoding.t → option V)
    (l : list BatchEncoding.t) :
  column_if_first key l = Ok None →
  ∃ first, head l = Some first ∧ key first = None.
Proof.
  unfold column_if_first. rewrite py_index_head.
  destruct (head l) as [first|] eqn:Hh; simpl; [|discriminate].
  destruct (key first) as [v|] eqn:Hk.
  - destruct (for_each _ l); simpl; discriminate.
  - intros _. exists first. split; [reflexivity|assumption].
Qed.

(** It fails on no choice at all ([IndexError]) and when the first choice
    has the key and another one lacks it ([KeyError]). *)
Lemma column_if_first_is_ok {V} (key : BatchEncoding.t → option V)
    (l : list BatchEncoding.t) :
  is_ok (column_if_first key l) = true
  ↔ ∃ first, head l = Some first
             ∧ (is_Some (key first) → Forall (λ x, is_Some (key x)) l).
Proof.
  unfold column_if_first. rewrite py_index_head.
  destruct (head l) as [first|] eqn:Hh; simpl.
  - destruct (key first) as [v|] eqn:Hk.
    + split.
      * intros Hok. exists first. split; [reflexivity|]. intros _.
        assert (is_ok (for_each (λ x, match key x with
                                      | Some v => Ok v
                                      | None => Raise KeyError
                                      end) l) = true) as Hl.
        { destruct (for_each _ l); [reflexivity|discriminate]. }
        apply for_each_is_ok in Hl.
        eapply Forall_impl; [exact Hl|]. simpl. intros x.
        destruct (key x); [eauto|discriminate].
      * intros (first' & [= <-] & Hall).
        assert (is_ok (for_each (λ x, match key x with
                                      | Some v => Ok v
                                      | None => Raise KeyError
                                      end) l) = true) as Hok.
        { apply for_each_is_ok. eapply Forall_impl; [apply Hall; eauto|].
          simpl. intros x [w ->]. reflexivity. }
        destruct (for_each _ l); [reflexivity|discriminate].
    + split; [|reflexivity]. intros _. exists first.
      split; [reflexivity|]. intros [w Hw]. congruence.
  - split; [discriminate|]. intros (first & Hf & _). discriminate.
Qed.

(** *** The features of one example *)

Lemma features_of_fields (label_map : gmap string nat) (example : InputExample.t)
    (choices_inputs : list BatchEncoding.t) (f : InputFeatures.t) :
  features_of label_map example choices_inputs = Ok f →
  InputFeatures.example_id f = InputExample.example_id example
  ∧ InputFeatures.input_ids f = BatchEncoding.input_ids <$> choices_inputs
  ∧ (∃ l i, InputExample.label example = Some l
            ∧ label_map !! l = Some i
            ∧ InputFeatures.label f = Some i)
  ∧ column_if_first BatchEncoding.attention_mask choices_inputs
    = Ok (InputFeatures.attention_mask f)
  ∧ column_if_first BatchEncoding.token_type_ids choices_inputs
    = Ok (InputFeatures.token_type_ids f).
Proof.
  unfold features_of, label_map_lookup.
  destruct (InputExample.label example) as [l|]; simpl; [|discriminate].
  destruct (label_map !! l) as [i|] eqn:Hi; simpl; [|discriminate].
  destruct (column_if_first BatchEncoding.attention_mask _) as [am|]; simpl;
    [|discriminate].
  destruct (column_if_first BatchEncoding.token_type_ids _) as [tt|]; simpl;
    [|discriminate].
  intros [= <-]. simpl. repeat split. exists l, i. repeat split. assumption.
Qed.

Lemma features_of_is_ok (label_map : gmap string nat) (example : InputExample.t)
    (choices_inputs : list BatchEncoding.t) :
  is_ok (features_of label_map example choices_inputs) = true
  ↔ (∃ l, InputExample.label example = Some l ∧ is_Some (label_map !! l))
    ∧ is_ok (column_if_first BatchEncoding.attention_mask choices_inputs) = true
    ∧ is_ok (column_if_first BatchEncoding.token_type_ids choices_inputs) = true.
Proof.
  unfold features_of, label_map_lookup.
  destruct (InputExample.label example) as [l|]; simpl.
  - destruct (label_map !! l) as [i|] eqn:Hi; simpl.
    + destruct (column_if_first BatchEncoding.attention_mask _) as [am|]; simpl.
      * destruct (column_if_first BatchEncoding.token_type_ids _) as [tt|]; simpl.
        -- split; [|reflexivity]. intros _. repeat split. exists l. eauto.
        -- split; [discriminate|]. intros (_ & _ & H). discriminate.
      * split; [discriminate|]. intros (_ & H & _). discriminate.
    + split; [discriminate|]. intros ((l' & [= <-] & [i Hl]) & _). congruence.
  - split; [discriminate|]. intros ((l' & Hl & _) & _). discriminate.
Qed.

(** *** Inclusion of the optional columns *)

(** The rule one [InputFeatures] follows for an optional column: it is
    there exactly when the first choice of that example has the key, and
    then it lists the key of every choice of that example. *)
Definition included_by_first {V} (key : BatchEncoding.t → option V)
    (choices_inputs : list BatchEncoding.t) (column : option (list V))
  : Prop :=
  ∃ first, head choices_inputs = Some first
    ∧ (is_Some column ↔ is_Some (key first))
    ∧ (∀ vs, column = Some vs →
             Forall2 (λ x v, key x = Some v) choices_inputs vs).

(** The first choice has a key that another choice of the example lacks. *)
Definition key_missing_later (choices_inputs : list BatchEncoding.t) : Prop :=
  ∃ first, head choices_inputs = Some first
    ∧ ((is_Some (BatchEncoding.attention_mask first)
        ∧ Exists (λ x, BatchEncoding.attention_mask x = None) choices_inputs)
       ∨ (is_Some (BatchEncoding.token_type_ids first)
          ∧ Exists (λ x, BatchEncoding.token_type_ids x = None) choices_inputs)).

(** The first choice decides for all: a key it has, every choice has. *)
Definition consistent_keys (choices_inputs : list BatchEncoding.t) : Prop :=
  ∀ first, head choices_inputs = Some first →
    (is_Some (BatchEncoding.attention_mask first) →
     Forall (λ x, is_Some (BatchEncoding.attention_mask x)) choices_inputs)
    ∧ (is_Some (BatchEncoding.token_type_ids first) →
       Forall (λ x, is_Some (BatchEncoding.token_type_ids x)) choices_inputs).

(** Two encodings that differ at most in what they report as truncated. *)
Definition same_encoding (x y : BatchEncoding.t) : Prop :=
  BatchEncoding.input_ids x = BatchEncoding.input_ids y
  ∧ BatchEncoding.attention_mask x = BatchEncoding.attention_mask y
  ∧ BatchEncoding.token_type_ids x = BatchEncoding.token_type_ids y.

Definition same_but_truncation
    (t t' : string → option string → nat → BatchEncoding.t) : Prop :=
  ∀ text_a text_b max_length,
    same_encoding (t text_a text_b max_length) (t' text_a text_b max_length).

Lemma column_included {V} (key : BatchEncoding.t → option V)
    (choices_inputs : list BatchEncoding.t) (column : option (list V)) :
  column_if_first key choices_inputs = Ok column →
  included_by_first key choices_inputs column.
Proof.
  destruct column as [vs|]; intros H.
  - apply column_if_first_some in H as ((first & Hh & Hk) & Hall).
    exists first. split; [assumption|]. split; [split; eauto|].
    intros ws [= <-]. assumption.
  - apply column_if_first_none in H as (first & Hh & Hk).
    exists first. split; [assumption|]. split.
    + rewrite Hk. split; intros [? ?]; discriminate.
    + intros vs. discriminate.
Qed.

Lemma for_each_ext {A B} (f g : A → result B) (l : list A) :
  (∀ x, f x = g x) → for_each f l = for_each g l.
Proof.
  intros H. induction l as [|x l IH]; [reflexivity|].
  simpl. rewrite H, IH. reflexivity.
Qed.

Lemma for_each_Forall2_ext {A A' B} (f : A → result B) (g : A' → result B)
    (l : list A) (l' : list A') :
  Forall2 (λ x y, f x = g y) l l' → for_each f l = for_each g l'.
Proof.
  induction 1 as [|x y l l' Hxy _ IH]; [reflexivity|].
  simpl. rewrite Hxy, IH. reflexivity.
Qed.

Lemma column_if_first_ext {V} (key : BatchEncoding.t → option V)
    (l l' : list BatchEncoding.t) :
  Forall2 (λ x y, key x = key y) l l' →
  column_if_first key l = column_if_first key l'.
Proof.
  intros H. unfold column_if_first. rewrite !py_index_head.
  rewrite (for_each_Forall2_ext
             (λ x, match key x with Some v => Ok v | None => Raise KeyError end)
             (λ x, match key x with Some v => Ok v | None => Raise KeyError end)
             l l').
  - destruct H as [|x y l l' Hxy _]; [reflexivity|]. simpl. rewrite Hxy.
    reflexivity.
  - eapply Forall2_impl; [exact H|]. simpl. intros x y ->. reflexivity.
Qed.

Lemma features_of_ext (label_map : gmap string nat) (example : InputExample.t)
    (l l' : list BatchEncoding.t) :
  Forall2 same_encoding l l' →
  features_of label_map example l = features_of label_map example l'.
Proof.
  intros H. unfold features_of.
  rewrite (column_if_first_ext BatchEncoding.attention_mask l l').
  2:{ eapply Forall2_impl; [exact H|]. intros x y (_ & Ha & _). exact Ha. }
  rewrite (column_if_first_ext BatchEncoding.token_type_ids l l').
  2:{ eapply Forall2_impl; [exact H|]. intros x y (_ & _ & Ht). exact Ht. }
  assert (BatchEncoding.input_ids <$> l = BatchEncoding.input_ids <$> l')
    as Hids.
  { clear -H. induction H as [|x y l l' (Hi & _) _ IH]; [reflexivity|].
    rewrite !fmap_cons, Hi, IH. reflexivity. }
  destruct (label_map_lookup _ _) as [label|]; simpl; [|reflexivity].
  destruct (column_if_first BatchEncoding.attention_mask l') as [am|]; simpl;
    [|reflexivity].
  destruct (column_if_first BatchEncoding.token_type_ids l') as [tt|]; simpl;
    [|reflexivity].
  rewrite Hids. reflexivity.
Qed.

Lemma features_of_raises (label_map : gmap string nat)
    (example : InputExample.t) (choices_inputs : list BatchEncoding.t) :
  key_missing_later choices_inputs →
  is_ok (features_of label_map example choices_inputs) = false.
Proof.
  intros (first & Hh & Hmiss).
  destruct (is_ok (features_of _ _ _)) eqn:Hok; [|reflexivity]. exfalso.
  apply features_of_is_ok in Hok as (_ & Ha & Ht).
  apply column_if_first_is_ok in Ha as (f1 & Hf1 & Hall1).
  apply column_if_first_is_ok in Ht as (f2 & Hf2 & Hall2).
  rewrite Hh in Hf1, Hf2. injection Hf1 as <-. injection Hf2 as <-.
  destruct Hmiss as [[Hs Hex]|[Hs Hex]].
  - specialize (Hall1 Hs). apply Exists_exists in Hex as (x & Hx & Hnone).
    rewrite Forall_forall in Hall1. destruct (Hall1 x Hx) as [v Hv]. congruence.
  - specialize (Hall2 Hs). apply Exists_exists in Hex as (x & Hx & Hnone).
    rewrite Forall_forall in Hall2. destruct (Hall2 x Hx) as [v Hv]. congruence.
Qed.

Lemma features_of_succeeds (label_list : list string)
    (example : InputExample.t) (choices_inputs : list BatchEncoding.t) :
  (∃ l, InputExample.label example = Some l ∧ l ∈ label_list) →
  choices_inputs ≠ [] →
  consistent_keys choices_inputs →
  is_ok (features_of (label_map_of label_list) example choices_inputs) = true.
Proof.
  intros (l & Hl & Hin) Hne Hcons. apply features_of_is_ok.
  destruct choices_inputs as [|first rest]; [congruence|].
  destruct (Hcons first eq_refl) as [Ha Ht].
  split; [exists l; split; [assumption|apply label_map_of_elem; assumption]|].
  split; apply column_if_first_is_ok; exists first; split;
    try reflexivity; assumption.
Qed.

Section ConverterFacts.

Variable tokenizer : string → option string → nat → BatchEncoding.t.

Lemma log_if_truncated_ok inputs : (log_if_truncated inputs).2 = Ok tt.
Proof. unfold log_if_truncated. destruct (reports_truncation _); reflexivity. Qed.

Lemma log_writing_ok i total : (log_writing i total).2 = Ok tt.
Proof. unfold log_writing. destruct (_ =? _)%nat; reflexivity. Qed.

Lemma log_features_ok l : (log_features l).2 = Ok tt.
Proof.
  induction l as [|f l IH]; [reflexivity|]. simpl.
  destruct (log_features l) as [lg r]. simpl in *. subst. reflexivity.
Qed.

(** The result of a logging step that cannot fail does not matter to what
    follows. *)
Lemma bind_ok {A B} (m : Logging A) (k : A → Logging B) (a : A) :
  m.2 = Ok a → (m ≫= k).2 = (k a).2.
Proof.
  destruct m as [lg r]. simpl. intros ->.
  unfold mbind, Logging_bind. destruct (k a). reflexivity.
Qed.

Lemma bind_result {A B} (m : Logging A) (k : A → Logging B) :
  (m ≫= k).2 = match m.2 with Ok a => (k a).2 | Raise e => Raise e end.
Proof.
  destruct m as [lg [a|e]]; simpl; [|reflexivity].
  unfold mbind, Logging_bind. destruct (k a). reflexivity.
Qed.

Lemma pair_choices_result (max_length : nat) (question : string)
    (contexts : list string) (choices_inputs : list BatchEncoding.t) :
  (pair_choices tokenizer max_length question contexts choices_inputs).2
  = Ok (choices_inputs
        ++ ((λ context, tokenizer question (Some context) max_length)
              <$> contexts)).
Proof.
  revert choices_inputs.
  induction contexts as [|c contexts IH]; intros choices_inputs; simpl.
  - rewrite app_nil_r. reflexivity.
  - rewrite (bind_ok _ _ tt) by apply log_if_truncated_ok.
    rewrite IH, <- app_assoc. reflexivity.
Qed.

Lemma single_choices_result (max_length : nat) (contexts : list string)
    (choices_inputs : list BatchEncoding.t) :
  (single_choices tokenizer max_length contexts choices_inputs).2
  = Ok (choices_inputs
        ++ ((λ context, tokenizer context None max_length) <$> contexts)).
Proof.
  revert choices_inputs.
  induction contexts as [|c contexts IH]; intros choices_inputs; simpl.
  - rewrite app_nil_r. reflexivity.
  - rewrite (bind_ok _ _ tt) by apply log_if_truncated_ok.
    rewrite IH, <- app_assoc. reflexivity.
Qed.

Lemma build_features_result label_map example choices_inputs :
  (build_features label_map example choices_inputs).2
  = features_of label_map example choices_inputs.
Proof.
  unfold build_features, features_of, lift_result.
  destruct (label_map_lookup _ _) as [label|]; simpl; [|reflexivity].
  destruct (column_if_first BatchEncoding.attention_mask _) as [am|]; simpl;
    [|reflexivity].
  destruct (column_if_first BatchEncoding.token_type_ids _) as [tt|]; simpl;
    reflexivity.
Qed.

Lemma evidence_loop_result label_map max_length total
    (examples : list (nat * InputExample.t)) (features : list InputFeatures.t) :
  (evidence_loop tokenizer label_map max_length total examples features).2
  = (fs ← for_each (λ ix : nat * InputExample.t,
                      features_of label_map ix.2
                        (pair_encodings tokenizer max_length ix.2)) examples;
     mret (features ++ fs)).
Proof.
  revert features.
  induction examples as [|[i ex] examples IH]; intros features; simpl.
  - rewrite app_nil_r. reflexivity.
  - rewrite (bind_ok _ _ tt) by apply log_writing_ok.
    rewrite bind_result, pair_choices_result. simpl.
    rewrite bind_result, build_features_result.
    fold (pair_encodings tokenizer max_length ex).
    destruct (features_of _ _ _) as [f|e]; simpl; [|reflexivity].
    rewrite IH. destruct (for_each _ examples) as [fs|e]; simpl; [|reflexivity].
    rewrite <- app_assoc. reflexivity.
Qed.

Lemma claim_evidence_loop_result label_map max_length total
    (examples : list (nat * InputExample.t)) (features : list InputFeatures.t) :
  (claim_evidence_loop tokenizer label_map max_length total examples features).2
  = (fs ← for_each (λ ix : nat * InputExample.t,
                      features_of label_map ix.2
                        (single_encodings tokenizer max_length ix.2)) examples;
     mret (features ++ fs)).
Proof.
  revert features.
  induction examples as [|[i ex] examples IH]; intros features; simpl.
  - rewrite app_nil_r. reflexivity.
  - rewrite (bind_ok _ _ tt) by apply log_writing_ok.
    rewrite (bind_ok _ _ tt) by apply log_if_truncated_ok.
    rewrite bind_result, single_choices_result. simpl.
    rewrite bind_result, build_features_result.
    fold (single_encodings tokenizer max_length ex).
    destruct (features_of _ _ _) as [f|e]; simpl; [|reflexivity].
    rewrite IH. destruct (for_each _ examples) as [fs|e]; simpl; [|reflexivity].
    rewrite <- app_assoc. reflexivity.
Qed.

(** What the two converters return: the features of each example in turn,
    or the first exception. *)
Lemma evidence_convert_result (examples : list InputExample.t)
    (label_list : list string) (max_length : nat) :
  (xfact_evidence_convert_examples_to_features tokenizer examples label_list
     max_length).2
  = for_each (λ ex, features_of (label_map_of label_list) ex
                      (pair_encodings tokenizer max_length ex)) examples.
Proof.
  unfold xfact_evidence_convert_examples_to_features.
  rewrite bind_result, evidence_loop_result.
  rewrite (for_each_enumerate_0
             (λ ex, features_of (label_map_of label_list) ex
                      (pair_encodings tokenizer max_length ex)) examples).
  destruct (for_each _ examples) as [fs|e]; simpl; [|reflexivity].
  rewrite (bind_ok _ _ tt) by apply log_features_ok. reflexivity.
Qed.

Lemma claim_evidence_convert_result (examples : list InputExample.t)
    (label_list : list string) (max_length : nat) :
  (xfact_claim_evidence_convert_examples_to_features tokenizer examples
     label_list max_length).2
  = for_each (λ ex, features_of (label_map_of label_list) ex
                      (single_encodings tokenizer max_length ex)) examples.
Proof.
  unfold xfact_claim_evidence_convert_examples_to_features.
  rewrite bind_result, claim_evidence_loop_result.
  rewrite (for_each_enumerate_0
             (λ ex, features_of (label_map_of label_list) ex
                      (single_encodings tokenizer max_length ex)) examples).
  destruct (for_each _ examples) as [fs|e]; simpl; [|reflexivity].
  rewrite (bind_ok _ _ tt) by apply log_features_ok. reflexivity.
Qed.

(** What a successful run says of each example and its features. *)
Lemma evidence_convert_Forall2 examples label_list max_length feats :
  (xfact_evidence_convert_examples_to_features tokenizer examples label_list
     max_length).2 = Ok feats →
  Forall2 (λ ex f, features_of (label_map_of label_list) ex
                     (pair_encodings tokenizer max_length ex) = Ok f)
          examples feats.
Proof. rewrite evidence_convert_result. apply for_each_Forall2. Qed.

Lemma claim_evidence_convert_Forall2 examples label_list max_length feats :
  (xfact_claim_evidence_convert_examples_to_features tokenizer examples
     label_list max_length).2 = Ok feats →
  Forall2 (λ ex f, features_of (label_map_of label_list) ex
                     (single_encodings tokenizer max_length ex) = Ok f)
          examples feats.
Proof. rewrite claim_evidence_convert_result. apply for_each_Forall2. Qed.

(** C1.  With a tokenizer that pads every encoding to exactly
    [max_length] ids: each [InputFeatures] the evidence-pairing converter
    returns has as many id sequences as its example has evidences, each
    one the claim-plus-evidence converter returns has one more, and every
    id sequence has [max_length] entries. *)
Theorem feature_shapes (examples : list InputExample.t)
    (label_list : list string) (max_length : nat) :
  (∀ text_a text_b,
     length (BatchEncoding.input_ids (tokenizer text_a text_b max_length))
     = max_length) →
  (∀ feats,
     (xfact_evidence_convert_examples_to_features tokenizer examples
        label_list max_length).2 = Ok feats →
     Forall2 (λ ex f,
                length (InputFeatures.input_ids f)
                = length (InputExample.contexts ex)
                ∧ Forall (λ ids, length ids = max_length)
                         (InputFeatures.input_ids f))
             examples feats)
  ∧ (∀ feats,
     (xfact_claim_evidence_convert_examples_to_features tokenizer examples
        label_list max_length).2 = Ok feats →
     Forall2 (λ ex f,
                length (InputFeatures.input_ids f)
                = S (length (InputExample.contexts ex))
                ∧ Forall (λ ids, length ids = max_length)
                         (InputFeatures.input_ids f))
             examples feats).
Proof.
  intros Hpad. split; intros feats Hrun.
  - apply evidence_convert_Forall2 in Hrun.
    eapply Forall2_impl; [exact Hrun|]. simpl. intros ex f Hf.
    apply features_of_fields in Hf as (_ & -> & _).
    unfold pair_encodings. split.
    + rewrite !length_fmap. reflexivity.
    + rewrite <- list_fmap_compose. apply Forall_fmap, Forall_forall.
      intros c _. simpl. apply Hpad.
  - apply claim_evidence_convert_Forall2 in Hrun.
    eapply Forall2_impl; [exact Hrun|]. simpl. intros ex f Hf.
    apply features_of_fields in Hf as (_ & -> & _).
    unfold single_encodings. split.
    + simpl. rewrite !length_fmap. reflexivity.
    + rewrite fmap_cons. constructor; [apply Hpad|].
      rewrite <- list_fmap_compose. apply Forall_fmap, Forall_forall.
      intros c _. simpl. apply Hpad.
Qed.

(** C6.  In both converters the label index of every returned feature is a
    position of the example's label in the label list; the index of a label
    determines the label; and in a label list without duplicates the label
    at position [i] maps to [i] and to nothing else, so that labels and the
    indices below the length of the list correspond one to one. *)
Theorem label_index_is_position (examples : list InputExample.t)
    (label_list : list string) (max_length : nat) :
  (∀ feats,
     (xfact_evidence_convert_examples_to_features tokenizer examples
        label_list max_length).2 = Ok feats →
     Forall2 (λ ex f, ∃ l i, InputExample.label ex = Some l
                             ∧ InputFeatures.label f = Some i
                             ∧ label_map_of label_list !! l = Some i
                             ∧ label_list !! i = Some l)
             examples feats)
  ∧ (∀ feats,
     (xfact_claim_evidence_convert_examples_to_features tokenizer examples
        label_list max_length).2 = Ok feats →
     Forall2 (λ ex f, ∃ l i, InputExample.label ex = Some l
                             ∧ InputFeatures.label f = Some i
                             ∧ label_map_of label_list !! l = Some i
                             ∧ label_list !! i = Some l)
             examples feats)
  ∧ (∀ l1 l2 i, label_map_of label_list !! l1 = Some i →
                label_map_of label_list !! l2 = Some i → l1 = l2)
  ∧ (NoDup label_list →
     (∀ i l, label_list !! i = Some l ↔ label_map_of label_list !! l = Some i)
     ∧ (∀ i, (i < length label_list)%nat
             ↔ ∃ l, label_map_of label_list !! l = Some i)).
Proof.
  assert (∀ ex f choices,
            features_of (label_map_of label_list) ex choices = Ok f →
            ∃ l i, InputExample.label ex = Some l
                   ∧ InputFeatures.label f = Some i
                   ∧ label_map_of label_list !! l = Some i
                   ∧ label_list !! i = Some l) as Hone.
  { intros ex f choices Hf.
    apply features_of_fields in Hf as (_ & _ & (l & i & Hl & Hi & Hf) & _).
    exists l, i. repeat split; try assumption.
    apply label_map_of_position. assumption. }
  split; [|split; [|split]].
  - intros feats Hrun. apply evidence_convert_Forall2 in Hrun.
    eapply Forall2_impl; [exact Hrun|]. simpl. intros ex f. apply Hone.
  - intros feats Hrun. apply claim_evidence_convert_Forall2 in Hrun.
    eapply Forall2_impl; [exact Hrun|]. simpl. intros ex f. apply Hone.
  - intros l1 l2 i H1 H2.
    apply label_map_of_position in H1, H2. congruence.
  - intros Hnd.
    assert (∀ i l, label_list !! i = Some l
                   ↔ label_map_of label_list !! l = Some i) as Hiff.
    { intros i l. split.
      - apply label_map_of_NoDup. assumption.
      - apply label_map_of_position. }
    split; [exact Hiff|].
    intros i. split.
    + intros Hi. apply lookup_lt_is_Some_2 in Hi as [l Hl].
      exists l. apply Hiff. assumption.
    + intros [l Hl]. apply Hiff in Hl. eapply lookup_lt_Some. eassumption.
Qed.

(** C3, as amended.  In both converters the decision is taken for each
    example on its own: the attention masks (and likewise the segment ids)
    of a returned feature are there if and only if the tokenizer returned
    them for the first choice of that same example, and then they are the
    ones returned for every choice of that example; an example whose first
    choice has them while another of its choices lacks them makes the
    converter raise. *)
Theorem optional_columns_per_example (examples : list InputExample.t)
    (label_list : list string) (max_length : nat) :
  (∀ feats,
     (xfact_evidence_convert_examples_to_features tokenizer examples
        label_list max_length).2 = Ok feats →
     Forall2 (λ ex f,
                included_by_first BatchEncoding.attention_mask
                  (pair_encodings tokenizer max_length ex)
                  (InputFeatures.attention_mask f)
                ∧ included_by_first BatchEncoding.token_type_ids
                    (pair_encodings tokenizer max_length ex)
                    (InputFeatures.token_type_ids f))
             examples feats)
  ∧ (∀ feats,
     (xfact_claim_evidence_convert_examples_to_features tokenizer examples
        label_list max_length).2 = Ok feats →
     Forall2 (λ ex f,
                included_by_first BatchEncoding.attention_mask
                  (single_encodings tokenizer max_length ex)
                  (InputFeatures.attention_mask f)
                ∧ included_by_first BatchEncoding.token_type_ids
                    (single_encodings tokenizer max_length ex)
                    (InputFeatures.token_type_ids f))
             examples feats)
  ∧ (Exists (λ ex, key_missing_later (pair_encodings tokenizer max_length ex))
            examples →
     is_ok (xfact_evidence_convert_examples_to_features tokenizer examples
              label_list max_length).2 = false)
  ∧ (Exists (λ ex, key_missing_later (single_encodings tokenizer max_length ex))
            examples →
     is_ok (xfact_claim_evidence_convert_examples_to_features tokenizer
              examples label_list max_length).2 = false).
Proof.
  assert (∀ ex f choices,
            features_of (label_map_of label_list) ex choices = Ok f →
            included_by_first BatchEncoding.attention_mask choices
              (InputFeatures.attention_mask f)
            ∧ included_by_first BatchEncoding.token_type_ids choices
                (InputFeatures.token_type_ids f)) as Hone.
  { intros ex f choices Hf.
    apply features_of_fields in Hf as (_ & _ & _ & Ha & Ht).
    split; apply column_included; assumption. }
  assert (∀ (enc : InputExample.t → list BatchEncoding.t),
            Exists (λ ex, key_missing_later (enc ex)) examples →
            is_ok (for_each (λ ex, features_of (label_map_of label_list) ex
                                     (enc ex)) examples) = false) as Hraise.
  { intros enc Hex.
    destruct (is_ok (for_each _ examples)) eqn:Hok; [|reflexivity]. exfalso.
    apply for_each_is_ok in Hok. apply Exists_exists in Hex as (ex & Hin & Hm).
    rewrite Forall_forall in Hok. specialize (Hok ex Hin). simpl in Hok.
    rewrite (features_of_raises _ _ _ Hm) in Hok. discriminate. }
  split; [|split; [|split]].
  - intros feats Hrun. apply evidence_convert_Forall2 in Hrun.
    eapply Forall2_impl; [exact Hrun|]. simpl. intros ex f. apply Hone.
  - intros feats Hrun. apply claim_evidence_convert_Forall2 in Hrun.
    eapply Forall2_impl; [exact Hrun|]. simpl. intros ex f. apply Hone.
  - intros Hex. rewrite evidence_convert_result.
    apply (Hraise (pair_encodings tokenizer max_length)). assumption.
  - intros Hex. rewrite claim_evidence_convert_result.
    apply (Hraise (single_encodings tokenizer max_length)). assumption.
Qed.

End ConverterFacts.

(** C9, as amended.  Let every example have its label in the label list,
    and let the tokenizer be consistent within each example (a key the
    first choice has, every choice has).  Then the claim-plus-evidence
    converter returns exactly one [InputFeatures] per example, in the order
    of the examples, and so does the evidence-pairing converter when every
    example has at least one evidence.  What the tokenizer reports as
    truncated plays no part: a tokenizer that differs in these reports only
    gives the same result, in both converters and on every input. *)
Theorem truncation_is_not_fatal
    (tokenizer tokenizer' : string → option string → nat → BatchEncoding.t)
    (examples : list InputExample.t) (label_list : list string)
    (max_length : nat) :
  Forall (λ ex, ∃ l, InputExample.label ex = Some l ∧ l ∈ label_list)
         examples →
  Forall (λ ex, consistent_keys (pair_encodings tokenizer max_length ex)
                ∧ consistent_keys (single_encodings tokenizer max_length ex))
         examples →
  (Forall (λ ex, InputExample.contexts ex ≠ []) examples →
   ∃ feats,
     (xfact_evidence_convert_examples_to_features tokenizer examples
        label_list max_length).2 = Ok feats
     ∧ length feats = length examples
     ∧ Forall2 (λ ex f, InputFeatures.example_id f = InputExample.example_id ex)
               examples feats)
  ∧ (∃ feats,
     (xfact_claim_evidence_convert_examples_to_features tokenizer examples
        label_list max_length).2 = Ok feats
     ∧ length feats = length examples
     ∧ Forall2 (λ ex f, InputFeatures.example_id f = InputExample.example_id ex)
               examples feats)
  ∧ (same_but_truncation tokenizer tokenizer' →
     (xfact_evidence_convert_examples_to_features tokenizer' examples
        label_list max_length).2
     = (xfact_evidence_convert_examples_to_features tokenizer examples
          label_list max_length).2
     ∧ (xfact_claim_evidence_convert_examples_to_features tokenizer' examples
          label_list max_length).2
       = (xfact_claim_evidence_convert_examples_to_features tokenizer examples
            label_list max_length).2).
Proof.
  intros Hlab Hcons.
  assert (∀ (enc : InputExample.t → list BatchEncoding.t),
            Forall (λ ex, enc ex ≠ [] ∧ consistent_keys (enc ex)) examples →
            ∃ feats,
              for_each (λ ex, features_of (label_map_of label_list) ex (enc ex))
                       examples = Ok feats
              ∧ length feats = length examples
              ∧ Forall2 (λ ex f, InputFeatures.example_id f
                                 = InputExample.example_id ex) examples feats)
    as Hgood.
  { intros enc Henc.
    assert (is_ok (for_each (λ ex, features_of (label_map_of label_list) ex
                                     (enc ex)) examples) = true) as Hok.
    { apply for_each_is_ok. apply Forall_forall. intros ex Hin.
      rewrite Forall_forall in Hlab, Henc.
      destruct (Henc ex Hin) as [Hne Hc].
      apply features_of_succeeds; auto. }
    apply is_ok_true in Hok as [feats Hrun]. exists feats.
    split; [assumption|]. split; [eapply for_each_length; eassumption|].
    apply for_each_Forall2 in Hrun.
    eapply Forall2_impl; [exact Hrun|]. simpl. intros ex f Hf.
    apply features_of_fields in Hf as (Hid & _). assumption. }
  split; [|split].
  - intros Hne. rewrite (evidence_convert_result tokenizer).
    apply (Hgood (pair_encodings tokenizer max_length)).
    apply Forall_forall. intros ex Hin.
    rewrite Forall_forall in Hne, Hcons.
    split; [|apply (Hcons ex Hin)].
    unfold pair_encodings. specialize (Hne ex Hin).
    destruct (InputExample.contexts ex); [congruence|discriminate].
  - rewrite (claim_evidence_convert_result tokenizer).
    apply (Hgood (single_encodings tokenizer max_length)).
    apply Forall_forall. intros ex Hin. rewrite Forall_forall in Hcons.
    split; [discriminate|apply (Hcons ex Hin)].
  - intros Hsame. split.
    + rewrite (evidence_convert_result tokenizer').
      rewrite (evidence_convert_result tokenizer).
      apply for_each_ext. intros ex. apply features_of_ext.
      unfold pair_encodings. apply Forall2_fmap, Forall_Forall2_diag.
      apply Forall_forall. intros c _.
      destruct (Hsame (InputExample.question ex) (Some c) max_length)
        as (H1 & H2 & H3).
      unfold same_encoding. repeat split; congruence.
    + rewrite (claim_evidence_convert_result tokenizer').
      rewrite (claim_evidence_convert_result tokenizer).
      apply for_each_ext. intros ex. apply features_of_ext.
      unfold single_encodings. constructor.
      * destruct (Hsame (InputExample.question ex) None max_length)
          as (H1 & H2 & H3).
        unfold same_encoding. repeat split; congruence.
      * apply Forall2_fmap, Forall_Forall2_diag.
        apply Forall_forall. intros c _.
        destruct (Hsame c None max_length) as (H1 & H2 & H3).
        unfold same_encoding. repeat split; congruence.
Qed.


(** ** A small tokenizer

    One id per character of the first text, then of the second; padded with
    zeros and cut to [max_length]; segment ids always; attention masks when
    [with_mask] holds of the first text; the count of ids cut off when there
    are any. *)

Definition codes (s : string) : list Z :=
  (λ c, Z.of_nat (nat_of_ascii c)) <$> list_ascii_of_string s.

Definition pad (max_length : nat) (l : list Z) : list Z :=
  take max_length (l ++ replicate max_length 0).

Definition demo_tokenizer (with_mask : string → bool) (text_a : string)
    (text_b : option string) (max_length : nat) : BatchEncoding.t :=
  let ids := codes text_a ++ default [] (codes <$> text_b) in
  BatchEncoding.mk
    (pad max_length ids)
    (if with_mask text_a
     then Some (pad max_length (replicate (length ids) 1)) else None)
    (Some (replicate max_length 0))
    (if (max_length <? length ids)%nat
     then Some (Z.of_nat (length ids - max_length)) else None).

(** The same tokenizer, silent about truncation. *)
Definition quiet_tokenizer (with_mask : string → bool) (text_a : string)
    (text_b : option string) (max_length : nat) : BatchEncoding.t :=
  let e := demo_tokenizer with_mask text_a text_b max_length in
  BatchEncoding.mk (BatchEncoding.input_ids e) (BatchEncoding.attention_mask e)
    (BatchEncoding.token_type_ids e) None.

Definition always (s : string) : bool := true.
Definition starts_with_m (s : string) : bool := String.prefix "m" s.

Definition demo_labels : list string := ["false"; "true"].

Definition demo_examples : list InputExample.t :=
  [InputExample.mk "train-1" "plain claim" ["evidence one"; "evidence two"]
     (Some "true");
   InputExample.mk "train-2" "more claims" ["more evidence"] (Some "false")].

Definition no_evidence : list InputExample.t :=
  [InputExample.mk "train-1" "claim" [] (Some "true")].

Lemma length_pad (max_length : nat) (l : list Z) :
  length (pad max_length l) = max_length.
Proof.
  unfold pad. rewrite length_take, length_app, length_replicate. lia.
Qed.

Lemma demo_tokenizer_pads with_mask text_a text_b max_length :
  length (BatchEncoding.input_ids
            (demo_tokenizer with_mask text_a text_b max_length)) = max_length.
Proof. apply length_pad. Qed.

Lemma demo_tokenizer_consistent max_length ex :
  consistent_keys (pair_encodings (demo_tokenizer always) max_length ex)
  ∧ consistent_keys (single_encodings (demo_tokenizer always) max_length ex).
Proof.
  split; intros first _; split; intros _.
  - unfold pair_encodings. apply Forall_fmap, Forall_forall.
    intros c _. simpl. eauto.
  - unfold pair_encodings. apply Forall_fmap, Forall_forall.
    intros c _. simpl. eauto.
  - unfold single_encodings. constructor; [simpl; eauto|].
    apply Forall_fmap, Forall_forall. intros c _. simpl. eauto.
  - unfold single_encodings. constructor; [simpl; eauto|].
    apply Forall_fmap, Forall_forall. intros c _. simpl. eauto.
Qed.

Lemma feature_shapes_witness :
  ∃ feats1 feats2,
    (xfact_evidence_convert_examples_to_features (demo_tokenizer always)
       demo_examples demo_labels 16).2 = Ok feats1
    ∧ (xfact_claim_evidence_convert_examples_to_features (demo_tokenizer always)
         demo_examples demo_labels 16).2 = Ok feats2
    ∧ (length <$> (InputFeatures.input_ids <$> feats1)) = [2; 1]%nat
    ∧ (length <$> (InputFeatures.input_ids <$> feats2)) = [3; 2]%nat
    ∧ Forall2 (λ ex f, length (InputFeatures.input_ids f)
                       = length (InputExample.contexts ex)
                       ∧ Forall (λ ids, length ids = 16%nat)
                                (InputFeatures.input_ids f))
              demo_examples feats1.
Proof.
  destruct (feature_shapes (demo_tokenizer always) demo_examples demo_labels 16)
    as [H1 H2].
  - intros a b. apply demo_tokenizer_pads.
  - eexists _, _. split; [vm_compute; reflexivity|].
    split; [vm_compute; reflexivity|].
    split; [vm_compute; reflexivity|].
    split; [vm_compute; reflexivity|].
    apply H1. vm_compute. reflexivity.
Defined.

Lemma label_index_is_position_witness :
  (∀ i l, demo_labels !! i = Some l ↔ label_map_of demo_labels !! l = Some i)
  ∧ ∃ feats,
      (xfact_evidence_convert_examples_to_features (demo_tokenizer always)
         demo_examples demo_labels 16).2 = Ok feats
      ∧ (InputFeatures.label <$> feats) = [Some 1; Some 0]%nat.
Proof.
  destruct (label_index_is_position (demo_tokenizer always) demo_examples
              demo_labels 16) as (_ & _ & _ & Hbij).
  split.
  - apply Hbij. unfold demo_labels. apply (bool_decide_unpack _).
    vm_compute. exact I.
  - eexists. split; vm_compute; reflexivity.
Defined.

(** C3 as stated fails: the tokenizer returns attention masks for neither
    choice of the first example and for the one choice of the second; the
    evidence-pairing converter returns normally, without masks in the first
    feature and with masks in the second. *)
Lemma masks_vary_within_a_batch :
  Forall (λ x, BatchEncoding.attention_mask x = None)
         (pair_encodings (demo_tokenizer starts_with_m) 16
            (InputExample.mk "train-1" "plain claim"
               ["evidence one"; "evidence two"] (Some "true")))
  ∧ ∃ f1 f2,
      (xfact_evidence_convert_examples_to_features
         (demo_tokenizer starts_with_m) demo_examples demo_labels 16).2
      = Ok [f1; f2]
      ∧ InputFeatures.attention_mask f1 = None
      ∧ is_Some (InputFeatures.attention_mask f2).
Proof.
  split.
  - repeat constructor.
  - eexists _, _. split; [vm_compute; reflexivity|].
    split; [reflexivity|]. simpl. eauto.
Qed.

Lemma optional_columns_per_example_witness :
  is_ok (xfact_claim_evidence_convert_examples_to_features
           (demo_tokenizer starts_with_m)
           [InputExample.mk "train-1" "more claims" ["evidence"] (Some "true")]
           demo_labels 16).2 = false.
Proof.
  apply (optional_columns_per_example (demo_tokenizer starts_with_m)
           [InputExample.mk "train-1" "more claims" ["evidence"] (Some "true")]
           demo_labels 16).
  apply Exists_cons_hd. eexists. split; [reflexivity|]. left. split.
  - simpl. eauto.
  - apply Exists_cons_tl, Exists_cons_hd. reflexivity.
Defined.

(** C9 as stated fails: an example without evidences, its label in the
    label list, makes the evidence-pairing converter raise [IndexError];
    no feature list is returned. *)
Lemma no_evidence_raises :
  Forall (λ ex, ∃ l, InputExample.label ex = Some l ∧ l ∈ demo_labels)
         no_evidence
  ∧ (xfact_evidence_convert_examples_to_features (demo_tokenizer always)
       no_evidence demo_labels 16).2 = Raise IndexError.
Proof.
  split.
  - repeat constructor. exists "true". split; [reflexivity|].
    apply (bool_decide_unpack _). vm_compute. exact I.
  - vm_compute. reflexivity.
Qed.

Lemma demo_labels_known :
  Forall (λ ex, ∃ l, InputExample.label ex = Some l ∧ l ∈ demo_labels)
         demo_examples.
Proof.
  repeat constructor.
  - exists "true". split; [reflexivity|].
    apply (bool_decide_unpack _). vm_compute. exact I.
  - exists "false". split; [reflexivity|].
    apply (bool_decide_unpack _). vm_compute. exact I.
Qed.

Lemma truncation_is_not_fatal_witness :
  (∃ feats,
     (xfact_evidence_convert_examples_to_features (demo_tokenizer always)
        demo_examples demo_labels 4).2 = Ok feats
     ∧ length feats = 2%nat)
  ∧ (xfact_evidence_convert_examples_to_features (quiet_tokenizer always)
       demo_examples demo_labels 4).2
    = (xfact_evidence_convert_examples_to_features (demo_tokenizer always)
         demo_examples demo_labels 4).2
  ∧ L_cropping_tokens
    ∈ (xfact_evidence_convert_examples_to_features (demo_tokenizer always)
         demo_examples demo_labels 4).1.
Proof.
  destruct (truncation_is_not_fatal (demo_tokenizer always)
              (quiet_tokenizer always) demo_examples demo_labels 4)
    as (Hev & _ & Hsame).
  - exact demo_labels_known.
  - apply Forall_forall. intros ex _. apply demo_tokenizer_consistent.
  - split; [|split].
    + destruct Hev as (feats & Hrun & Hlen & _).
      * repeat constructor; discriminate.
      * exists feats. split; [exact Hrun|exact Hlen].
    + apply Hsame. intros a b m. repeat split.
    + vm_compute. repeat constructor.
Defined.

(** ** The year filter *)

Module EdaFacts.
Import Eda.

(** The frame has the three columns the script selects. *)
Definition has_columns (names : list string) : Prop :=
  "claimDate" ∈ names ∧ "claim" ∈ names ∧ "label" ∈ names.

(** The label cell is the string [true] or the string [false]. *)
Definition true_or_false (l : Cell) : bool :=
  bool_decide (l = CStr "false") || bool_decide (l = CStr "true").

(** The first four characters of the claim date, as text. *)
Definition year_of (r : gmap string Cell) : string :=
  substring 0 4 (astype_str (r !!! "claimDate")).

(** A row of the input frame goes to the file of [year]. *)
Definition goes_to (year : string) (r : gmap string Cell) : bool :=
  true_or_false (r !!! "label") && bool_decide (year_of r = year).

(** The three selected cells of a row, as the row [select] makes of them. *)
Definition row0 (d c l : Cell) : gmap string Cell :=
  list_to_map [("claimDate", d); ("claim", c); ("label", l)].

(** One row through lines 10 to 30 of the script. *)
Definition prep1 (r : gmap string Cell) : option (gmap string Cell) :=
  let r := <["exp_split" := CStr "test"]> r in
  let r := <["claimDate" :=
              CStr (substring 0 4 (astype_str (r !!! "claimDate")))]> r in
  if eq_str r "label" "false" || eq_str r "label" "true"
  then
    let r := <["annotation_id" := CStr "placeholder"]> r in
    let r := <["label_id" := r !!! "label"]> r in
    let r := <["label" := replace_label (r !!! "label")]> r in
    Some (match r !! "claim" with
          | Some v => <["text" := v]> (delete "claim" r)
          | None => r
          end)
  else None.

Lemma filter_fmap_omap {A B C} (f : A → B) (P : B → bool) (g : B → C)
    (l : list A) :
  g <$> List.filter P (f <$> l)
  = omap (λ x, if P (f x) then Some (g (f x)) else None) l.
Proof.
  induction l as [|x l IH]; [reflexivity|].
  cbn [fmap list_fmap List.filter omap list_omap].
  destruct (P (f x)); [rewrite fmap_cons|]; rewrite IH; reflexivity.
Qed.

(** The columns of [df] after line 30. *)
Definition df_columns : list string :=
  ["claimDate"; "text"; "label"; "exp_split"; "annotation_id"; "label_id"].

Definition out_columns : list string :=
  ["annotation_id"; "exp_split"; "text"; "label"; "label_id"].

Lemma select_frame (tsv : Frame) :
  has_columns (columns tsv) →
  select ["claimDate"; "claim"; "label"] tsv
  = Ok (mkFrame ["claimDate"; "claim"; "label"]
          ((λ r, row0 (r !!! "claimDate") (r !!! "claim") (r !!! "label"))
             <$> rows tsv)).
Proof.
  intros (Hd & Hc & Hl). unfold select. cbn [forallb].
  rewrite !bool_decide_eq_true_2 by assumption. reflexivity.
Qed.

Lemma select_missing (tsv : Frame) :
  ¬ has_columns (columns tsv) →
  select ["claimDate"; "claim"; "label"] tsv = Raise KeyError.
Proof.
  intros H. unfold select. cbn [forallb].
  destruct (decide ("claimDate" ∈ columns tsv)) as [Hd|Hd];
    [|rewrite (bool_decide_eq_false_2 _ Hd); reflexivity].
  destruct (decide ("claim" ∈ columns tsv)) as [Hc|Hc];
    [|rewrite (bool_decide_eq_false_2 _ Hc), andb_false_r; reflexivity].
  destruct (decide ("label" ∈ columns tsv)) as [Hl|Hl];
    [|rewrite (bool_decide_eq_false_2 _ Hl), !andb_false_r; reflexivity].
  destruct H. repeat split; assumption.
Qed.

Lemma prepare_rows (tsv : Frame) :
  has_columns (columns tsv) →
  prepare tsv
  = Ok (mkFrame df_columns
          (omap prep1 ((λ r, row0 (r !!! "claimDate") (r !!! "claim")
                                  (r !!! "label")) <$> rows tsv))).
Proof.
  intros H. unfold prepare. rewrite (select_frame _ H).
  cbn [mbind result_bind mret result_ret]. f_equal.
  unfold rename, assign, loc. cbn [columns rows]. f_equal.
  generalize ((λ r : gmap string Cell,
                 row0 (r !!! "claimDate") (r !!! "claim") (r !!! "label"))
                <$> rows tsv).
  intros df. rewrite <- !list_fmap_compose.
  rewrite (filter_fmap_omap _ _ _ df). reflexivity.
Qed.

(** The row of [df] that a kept row gives. *)
Definition row1 (d c l : Cell) : gmap string Cell :=
  list_to_map [("claimDate", CStr (substring 0 4 (astype_str d)));
               ("label", replace_label l);
               ("exp_split", CStr "test");
               ("annotation_id", CStr "placeholder");
               ("label_id", l);
               ("text", c)].

(** The row of a year frame. *)
Definition row2 (c l : Cell) : gmap string Cell :=
  list_to_map [("annotation_id", CStr "placeholder");
               ("exp_split", CStr "test");
               ("text", c);
               ("label", replace_label l);
               ("label_id", l)].

Lemma prep1_row0 (d c l : Cell) :
  prep1 (row0 d c l) = if true_or_false l then Some (row1 d c l) else None.
Proof.
  unfold prep1, eq_str, true_or_false. cbv zeta.
  change ((<["claimDate" :=
              CStr (substring 0 4
                      (astype_str (<["exp_split" := CStr "test"]> (row0 d c l)
                                   !!! "claimDate")))]>
             (<["exp_split" := CStr "test"]> (row0 d c l))) !!! "label")
    with l.
  destruct (bool_decide (l = CStr "false") || bool_decide (l = CStr "true"));
    [|reflexivity].
  reflexivity.
Qed.

(** The record written for a kept row of the input frame. *)
Definition record_of (r : gmap string Cell) : gmap string JVal :=
  list_to_map
    [("annotation_id", JStr "placeholder");
     ("exp_split", JStr "test");
     ("text", JStr (csv_field (r !!! "claim")));
     ("label", JInt (if bool_decide (r !!! "label" = CStr "true") then 1 else 0));
     ("label_id", JStr (astype_str (r !!! "label")))].

Definition prep_of (r : gmap string Cell) : option (gmap string Cell) :=
  if true_or_false (r !!! "label")
  then Some (row1 (r !!! "claimDate") (r !!! "claim") (r !!! "label"))
  else None.

Definition bi_of (r : gmap string Cell) : gmap string Cell :=
  row2 (r !!! "claim") (r !!! "label").

Lemma prepare_frame (tsv : Frame) :
  has_columns (columns tsv) →
  prepare tsv = Ok (mkFrame df_columns (omap prep_of (rows tsv))).
Proof.
  intros H. rewrite (prepare_rows _ H). do 2 f_equal.
  induction (rows tsv) as [|r rs IH]; [reflexivity|].
  rewrite fmap_cons. cbn [omap list_omap]. rewrite prep1_row0, IH.
  reflexivity.
Qed.

Lemma eq_str_row1 (d c l : Cell) (year : string) :
  eq_str (row1 d c l) "claimDate" year
  = bool_decide (substring 0 4 (astype_str d) = year).
Proof.
  unfold eq_str.
  change (row1 d c l !!! "claimDate")
    with (CStr (substring 0 4 (astype_str d))).
  apply bool_decide_ext. split; [intros [= ->]; reflexivity|intros ->; reflexivity].
Qed.

Lemma year_frame_rows (year : string) (rs : list (gmap string Cell)) :
  year_frame year (mkFrame df_columns (omap prep_of rs))
  = Ok (mkFrame out_columns (bi_of <$> List.filter (goes_to year) rs)).
Proof.
  unfold year_frame, select, loc. cbn [columns rows].
  change (forallb _ _) with true. cbv iota. do 2 f_equal.
  induction rs as [|r rs IH]; [reflexivity|].
  cbn [omap list_omap List.filter]. unfold prep_of at 1, goes_to at 1.
  destruct (true_or_false (r !!! "label")); cbn [andb]; [|exact IH].
  cbn [List.filter]. rewrite eq_str_row1. fold (year_of r).
  destruct (bool_decide (year_of r = year)); [|exact IH].
  rewrite !fmap_cons, IH. f_equal.
Qed.

Lemma json_row_bi (r : gmap string Cell) :
  true_or_false (r !!! "label") = true →
  json_row out_columns ((λ c, csv_field (bi_of r !!! c)) <$> out_columns)
  = Ok (record_of r).
Proof.
  unfold true_or_false, bi_of, record_of. intros H.
  destruct (decide (r !!! "label" = CStr "false")) as [->|Hf].
  - reflexivity.
  - rewrite (bool_decide_eq_false_2 _ Hf) in H. simpl in H.
    apply bool_decide_eq_true_1 in H. rewrite H. reflexivity.
Qed.

Lemma goes_to_label (year : string) (r : gmap string Cell) :
  goes_to year r = true → true_or_false (r !!! "label") = true.
Proof. unfold goes_to. intros H. apply andb_prop in H. tauto. Qed.

Lemma filter_all {A} (P : A → bool) (l : list A) :
  Forall (λ x, P x = true) l → List.filter P l = l.
Proof.
  induction 1 as [|x l Hx _ IH]; [reflexivity|].
  cbn [List.filter]. rewrite Hx, IH. reflexivity.
Qed.


(** Lines 74 to 84 for the frame of [year]. *)
Lemma write_year_rows (year json : string) (rs : list (gmap string Cell))
    (fs : gmap string File) :
  write_year (mkFrame out_columns (bi_of <$> List.filter (goes_to year) rs))
             json fs
  = (<[json := JsonFile (record_of <$> List.filter (goes_to year) rs)]>
       (<["dev.csv" := to_csv (mkFrame out_columns
                                 (bi_of <$> List.filter (goes_to year) rs))]>
          fs),
     Ok tt).
Proof.
  unfold write_year, csv_to_json. rewrite lookup_insert_eq.
  unfold to_csv at 1. cbn [columns rows].
  rewrite filter_all.
  2:{ apply Forall_fmap, Forall_forall. intros r _. reflexivity. }
  assert (for_each (json_row out_columns)
            ((λ r : gmap string Cell,
                (λ c, csv_field (r !!! c)) <$> out_columns)
               <$> (bi_of <$> List.filter (goes_to year) rs))
          = Ok (record_of <$> List.filter (goes_to year) rs)) as ->;
    [|reflexivity].
  apply for_each_Forall2. rewrite <- list_fmap_compose.
  apply Forall2_fmap, Forall_Forall2_diag, Forall_forall.
  intros r Hr. apply list_elem_of_In, filter_In in Hr as [_ Hr].
  simpl. apply json_row_bi. eapply goes_to_label. exact Hr.
Qed.




(** The frame of a year. *)
Definition year_rows (year : string) (tsv : Frame) : Frame :=
  mkFrame out_columns (bi_of <$> List.filter (goes_to year) (rows tsv)).

Lemma script_files (tsv : Frame) (fs : gmap string File) :
  has_columns (columns tsv) →
  script tsv fs
  = (<["Bi2016_test.json" :=
         JsonFile (record_of <$> List.filter (goes_to "2016") (rows tsv))]>
       (<["dev.csv" := to_csv (year_rows "2016" tsv)]>
       (<["Bi2018_test.json" :=
            JsonFile (record_of <$> List.filter (goes_to "2018") (rows tsv))]>
       (<["dev.csv" := to_csv (year_rows "2018" tsv)]>
       (<["Bi2020_test.json" :=
            JsonFile (record_of <$> List.filter (goes_to "2020") (rows tsv))]>
       (<["dev.csv" := to_csv (year_rows "2020" tsv)]> fs))))),
     Ok tt).
Proof.
  intros Hcols.
  unfold script. rewrite (prepare_frame _ Hcols), !year_frame_rows.
  rewrite !write_year_rows. reflexivity.
Qed.


(** Without one of the three columns line 9 raises and nothing is
    written. *)
Lemma script_missing_column (tsv : Frame) (fs : gmap string File) :
  ¬ has_columns (columns tsv) → script tsv fs = (fs, Raise KeyError).
Proof.
  intros H. unfold script, prepare. rewrite (select_missing _ H). reflexivity.
Qed.

(** *** Reading the file *)

Section ReadingFacts.

Context {parser : Parser}.
















End ReadingFacts.

(** *** Two small files

    A stand-in for what the library recognises, enough for the files
    below: a few of the missing values, the booleans in their usual
    spellings, and columns of unsigned decimal integers (floating point
    numbers once a value is missing). *)

Definition demo_na (s : string) : bool :=
  bool_decide (s ∈ [""; "NA"; "N/A"; "NaN"; "nan"; "null"; "NULL"]).

Definition demo_boolean (s : string) : option bool :=
  if bool_decide (s ∈ ["True"; "TRUE"; "true"]) then Some true
  else if bool_decide (s ∈ ["False"; "FALSE"; "false"]) then Some false
  else None.

Fixpoint decimal_digits (s : string) (acc : Z) : option Z :=
  match s with
  | EmptyString => Some acc
  | String c s' => d ← digit_of c; decimal_digits s' (10 * acc + d)
  end.

Definition decimal (s : string) : option Z :=
  match s with
  | EmptyString => None
  | _ => decimal_digits s 0
  end.

(** A field of a column of integers: a missing value or an integer. *)
Definition demo_number (f : option string) : option (option Z) :=
  match f with
  | None => Some None
  | Some s => if demo_na s then Some None else Some <$> decimal s
  end.

Definition demo_numbers (fields : list (option string))
  : option (list Cell) :=
  zs ← mapM demo_number fields;
  Some (if forallb (λ z : option Z, bool_decide (is_Some z)) zs
        then from_option CInt CNaN <$> zs
        else from_option (λ z, CFloat (pretty z +:+ ".0")) CNaN <$> zs).

Lemma demo_numbers_cells (fields : list (option string)) (cells : list Cell) :
  demo_numbers fields = Some cells →
  length cells = length fields ∧ Forall is_number cells.
Proof.
  unfold demo_numbers. destruct (mapM demo_number fields) as [zs|] eqn:H;
    [|discriminate].
  apply length_mapM in H. cbn. intros [= <-].
  destruct (forallb _ zs); rewrite length_fmap; (split; [congruence|]);
    apply Forall_fmap, Forall_forall; intros [z|] _; exact I.
Qed.

Lemma demo_numbers_not_text (fields : list (option string)) :
  Some "true" ∈ fields ∨ Some "false" ∈ fields → demo_numbers fields = None.
Proof.
  intros H. unfold demo_numbers.
  destruct (mapM demo_number fields) as [zs|] eqn:Hz; [|reflexivity].
  apply mapM_Some_1 in Hz.
  destruct H as [H|H]; apply list_elem_of_lookup in H as [i H];
    destruct (Forall2_lookup_l _ _ _ _ _ Hz H) as (y & _ & Hy);
    vm_compute in Hy; discriminate.
Qed.

Definition demo_parser : Parser :=
  {| is_na := demo_na;
     to_boolean := demo_boolean;
     numbers := demo_numbers;
     true_false_not_na := conj eq_refl eq_refl;
     true_false_boolean := conj eq_refl eq_refl;
     numbers_cells := demo_numbers_cells;
     numbers_not_text := demo_numbers_not_text |}.

Section SmallFiles.

#[local] Existing Instance demo_parser.







End SmallFiles.

End EdaFacts.

(** * Further properties of the code *)

(** ** Short rows *)

Section ShortRows.

Context {str : Str}.

Lemma py_index_raises {A} (l : list A) (i : Z) (e : exn) :
  py_index l i = Raise e → e = IndexError.
Proof.
  unfold py_index. destruct (_ <? 0); [intros [= <-]; reflexivity|].
  destruct (l !! _); [discriminate|intros [= <-]; reflexivity].
Qed.

Lemma for_each_raises {A B} (f : A → result B) (l : list A) (e e0 : exn) :
  (∀ x e', f x = Raise e' → e' = e0) → for_each f l = Raise e → e = e0.
Proof.
  intros Hf. induction l as [|x l IH]; [discriminate|]. simpl.
  destruct (f x) as [y|e'] eqn:Hx; simpl.
  - destruct (for_each f l) as [ys|e'']; simpl; [discriminate|].
    intros [= <-]. apply IH. reflexivity.
  - intros [= <-]. eapply Hf. eassumption.
Qed.

Lemma get_metadata_raises (line : RawRow) (e : exn) :
  get_metadata line = Raise e → e = IndexError.
Proof.
  unfold get_metadata.
  destruct (py_index line (-3)) as [a|e1] eqn:H1; simpl;
    [|intros [= <-]; eapply py_index_raises; eassumption].
  destruct (py_index line (-4)) as [b|e2] eqn:H2; simpl;
    [|intros [= <-]; eapply py_index_raises; eassumption].
  destruct (py_index line 0) as [c|e3] eqn:H3; simpl;
    [|intros [= <-]; eapply py_index_raises; eassumption].
  destruct (py_index line 1) as [d|e4] eqn:H4; simpl;
    [|intros [= <-]; eapply py_index_raises; eassumption].
  destruct (py_index line (-5)) as [f|e5] eqn:H5; simpl;
    [discriminate|intros [= <-]; eapply py_index_raises; eassumption].
Qed.

Lemma create_example_raises (n : nat) (line : RawRow) (e : exn) :
  create_example n line = Raise e → e = IndexError.
Proof.
  unfold create_example.
  destruct (for_each _ (seq 0 n)) as [evs|e1] eqn:H1; simpl.
  2:{ intros [= <-]. eapply for_each_raises; [|exact H1].
      intros i e'. apply py_index_raises. }
  destruct (py_index line (-2)) as [ct|e2] eqn:H2; simpl;
    [|intros [= <-]; eapply py_index_raises; eassumption].
  destruct (py_index line (-1)) as [lab|e3] eqn:H3; simpl;
    [|intros [= <-]; eapply py_index_raises; eassumption].
  destruct (get_metadata line) as [md|e4] eqn:H4; simpl;
    [discriminate|intros [= <-]; eapply get_metadata_raises; eassumption].
Qed.

(** X1.  [create_example] raises exactly on the rows with fewer than
    max(5, 2 + num_evidences) fields, and what it raises is [IndexError];
    on every other row it returns. *)
Theorem create_example_short_row (n : nat) (line : RawRow) :
  ((length line < required_columns n)%nat
   ↔ create_example n line = Raise IndexError)
  ∧ ((required_columns n ≤ length line)%nat
     ↔ ∃ example, create_example n line = Ok example).
Proof.
  pose proof (create_example_is_ok n line) as Hok.
  rewrite is_ok_true in Hok. split; [|symmetry; exact Hok].
  split.
  - intros Hlt. destruct (create_example n line) as [x|e] eqn:Hrow.
    + exfalso. assert (required_columns n ≤ length line)%nat; [|lia].
      apply Hok. eauto.
    + f_equal. eapply create_example_raises. eassumption.
  - intros Hr. destruct (Nat.lt_ge_cases (length line) (required_columns n))
      as [Hlt|Hge]; [assumption|].
    apply Hok in Hge as [x Hx]. congruence.
Qed.

End ShortRows.

(** ** The label map and duplicates *)

Lemma label_map_of_last (l : list string) (x : string) (i : nat) :
  label_map_of l !! x = Some i → ∀ j, (i < j)%nat → l !! j ≠ Some x.
Proof.
  revert i. induction l as [|y l IH] using rev_ind; intros i.
  - unfold label_map_of. simpl. rewrite lookup_empty. discriminate.
  - rewrite label_map_of_snoc.
    destruct (decide (y = x)) as [->|Hne].
    + rewrite lookup_insert_eq. intros [= <-] j Hj Hl.
      apply lookup_lt_Some in Hl. rewrite length_app in Hl. simpl in Hl. lia.
    + rewrite lookup_insert_ne by assumption. intros Hi j Hj Hl.
      destruct (decide (j < length l)%nat) as [Hlt|Hge].
      * rewrite lookup_app_l in Hl by assumption. eapply IH; eassumption.
      * assert (j = length l) as ->.
        { apply lookup_lt_Some in Hl. rewrite length_app in Hl. simpl in Hl.
          lia. }
        rewrite list_lookup_middle in Hl by reflexivity. congruence.
Qed.

(** X2.  The label map of any label list, duplicates or not: a label is a
    key exactly when it occurs in the list, and it is mapped to the
    position of its last occurrence. *)
Theorem label_map_last_occurrence (label_list : list string) (x : string) :
  (is_Some (label_map_of label_list !! x) ↔ x ∈ label_list)
  ∧ (∀ i, label_map_of label_list !! x = Some i
          ↔ label_list !! i = Some x
            ∧ ∀ j, (i < j)%nat → label_list !! j ≠ Some x).
Proof.
  split.
  - split; [|apply label_map_of_elem].
    intros [i Hi]. apply label_map_of_position in Hi.
    eapply list_elem_of_lookup_2. eassumption.
  - intros i. split.
    + intros Hi. split; [apply label_map_of_position; assumption|].
      apply label_map_of_last. assumption.
    + intros [Hi Hlast].
      assert (x ∈ label_list) as Hx
        by (eapply list_elem_of_lookup_2; eassumption).
      apply label_map_of_elem in Hx as [k Hk].
      pose proof (label_map_of_position _ _ _ Hk) as Hk'.
      pose proof (label_map_of_last _ _ _ Hk) as Hklast.
      destruct (Nat.lt_trichotomy i k) as [Hlt|[->|Hgt]].
      * exfalso. apply (Hlast k Hlt). assumption.
      * assumption.
      * exfalso. apply (Hklast i Hgt). assumption.
Qed.

Example label_map_duplicate :
  label_map_of ["a"; "b"; "a"] !! "a" = Some 2%nat.
Proof. reflexivity. Qed.

(** ** What the loaders do to the processor *)

Section ProcessorMore.

Context {str : Str}.

Variable rng_state : Type.
Variable random_shuffle :
  rng_state → list InputExample.t → rng_state * list InputExample.t.

Abbreviation World' := (World rng_state).

Ltac run' :=
  repeat progress
    (unfold mbind, M_bind, mret, M_ret, get_self, set_self, lift, raise,
       get_label_set, get_label_count, set_label_sets, set_label_count,
       print, read_file, _read_tsv;
     simpl).

Lemma filtered_loop_state (source : string) (ils : list (nat * RawRow)) :
  ∀ (exs : list InputExample.t) (sk : nat) (w : World'),
  (filtered_loop rng_state source ils exs sk w).1 = w.
Proof.
  induction ils as [|[i line] ils IH]; intros exs sk w; [reflexivity|].
  cbn [filtered_loop].
  destruct (i =? 0)%nat; [apply IH|].
  destruct (length line =? 0)%nat; [apply IH|].
  unfold mbind at 1, M_bind at 1, get_self at 1.
  unfold mbind at 1, M_bind at 1, lift at 1.
  destruct (create_example _ line) as [[[[ev ct] lab] md]|e]; [|reflexivity].
  cbn beta iota.
  unfold mbind at 1, M_bind at 1, get_label_set at 1.
  unfold mbind at 1, M_bind at 1, get_self at 1.
  destruct (label_sets (self w) !! source) as [c|]; [|reflexivity].
  unfold mret at 1, M_ret at 1.
  destruct (negb (coll_mem lab c)); apply IH.
Qed.

(** X3.  The dev and the test loader never touch the processor, the files
    or the random generator, whether they return or raise; they only
    print. *)
Theorem dev_test_leave_processor (data_dir source : string)
    (filename : option string) (w : World') :
  let wd := (get_dev_examples rng_state data_dir source filename w).1 in
  let wt := (get_test_examples rng_state data_dir source w).1 in
  (self wd = self w ∧ files wd = files w ∧ rng wd = rng w
   ∧ ∃ more, stdout wd = stdout w ++ more)
  ∧ (self wt = self w ∧ files wt = files w ∧ rng wt = rng w
     ∧ ∃ more, stdout wt = stdout w ++ more).
Proof.
  cbv zeta. split.
  - unfold get_dev_examples. destruct filename as [f|]; run'.
    + destruct (files w !! _) as [rows|]; simpl;
        [|repeat split; eexists; reflexivity].
      match goal with
      | |- context [filtered_loop _ ?s ?ils ?exs ?sk ?W] =>
          pose proof (filtered_loop_state s ils exs sk W) as Hst;
          destruct (filtered_loop rng_state s ils exs sk W) as [w1 [[o k]|e]]
      end; simpl in *; subst w1; simpl;
        repeat split; try (eexists; reflexivity).
      eexists. rewrite <- app_assoc. reflexivity.
    + destruct (files w !! _) as [rows|]; simpl;
        [|repeat split; eexists; reflexivity].
      match goal with
      | |- context [filtered_loop _ ?s ?ils ?exs ?sk ?W] =>
          pose proof (filtered_loop_state s ils exs sk W) as Hst;
          destruct (filtered_loop rng_state s ils exs sk W) as [w1 [[o k]|e]]
      end; simpl in *; subst w1; simpl;
        repeat split; try (eexists; reflexivity).
      eexists. rewrite <- app_assoc. reflexivity.
  - unfold get_test_examples. run'.
    destruct (files w !! _) as [rows|]; simpl;
      [|repeat split; eexists; reflexivity].
    match goal with
    | |- context [filtered_loop _ ?s ?ils ?exs ?sk ?W] =>
        pose proof (filtered_loop_state s ils exs sk W) as Hst;
        destruct (filtered_loop rng_state s ils exs sk W) as [w1 [[o k]|e]]
    end; simpl in *; subst w1; simpl;
      repeat split; try (eexists; reflexivity).
    eexists. rewrite <- app_assoc. reflexivity.
Qed.

Lemma count_label_label_sets source label (w : World') :
  label_sets (self (count_label rng_state source label w).1)
  = label_sets (self w).
Proof.
  unfold count_label. run'.
  destruct (label_count (self w) !! source); reflexivity.
Qed.

Lemma train_loop_check_label_sets (source : string)
    (ils : list (nat * RawRow)) :
  ∀ (exs : list InputExample.t) (w : World'),
  label_sets (self (train_loop rng_state source false ils exs w).1)
  = label_sets (self w).
Proof.
  induction ils as [|[i line] ils IH]; intros exs w; [reflexivity|].
  cbn [train_loop].
  destruct (i =? 0)%nat; [apply IH|].
  destruct (length line =? 0)%nat; [apply IH|].
  unfold mbind at 1, M_bind at 1, get_self at 1.
  unfold mbind at 1, M_bind at 1, lift at 1.
  destruct (create_example _ line) as [[[[ev ct] lab] md]|e]; [|reflexivity].
  cbn beta iota.
  unfold mbind at 1, M_bind at 1. unfold mbind at 1, M_bind at 1.
  unfold get_label_set at 1.
  unfold mbind at 1, M_bind at 1, get_self at 1.
  destruct (label_sets (self w) !! source) as [c|]; [|reflexivity].
  unfold mret at 1, M_ret at 1.
  destruct (coll_mem lab c); [|reflexivity].
  unfold mret at 1, M_ret at 1. cbn beta iota.
  unfold mbind at 1, M_bind at 1.
  pose proof (count_label_label_sets source lab w) as Hc.
  destruct (count_label rng_state source lab w) as [w1 [[]|e]]; simpl in Hc;
    [|assumption].
  rewrite IH. assumption.
Qed.

(** X4.  A training scan that checks labels ([create_label_set] false)
    leaves the collection of every source as it is, whether it returns or
    raises; only a source seen for the first time gets an empty set. *)
Theorem train_check_keeps_vocabulary (data_dir source : string) (w : World') :
  label_sets
    (self (get_train_examples rng_state random_shuffle data_dir source
             false w).1)
  = if bool_decide (source ∈ dom (label_sets (self w)))
    then label_sets (self w)
    else <[source := LSet ∅]> (label_sets (self w)).
Proof.
  unfold get_train_examples. run'.
  destruct (bool_decide (source ∈ dom (label_sets (self w)))); run'.
  - destruct (files w !! _) as [rows|]; simpl; [|reflexivity].
    match goal with
    | |- context [train_loop _ ?s _ ?ils ?exs ?W] =>
        pose proof (train_loop_check_label_sets s ils exs W) as Hst;
        destruct (train_loop rng_state s false ils exs W) as [w1 [o|e]]
    end; simpl in *; [|assumption].
    unfold shuffle. simpl. destruct (random_shuffle _ _). simpl. assumption.
  - destruct (files w !! _) as [rows|]; simpl; [|reflexivity].
    match goal with
    | |- context [train_loop _ ?s _ ?ils ?exs ?W] =>
        pose proof (train_loop_check_label_sets s ils exs W) as Hst;
        destruct (train_loop rng_state s false ils exs W) as [w1 [o|e]]
    end; simpl in *; [|assumption].
    unfold shuffle. simpl. destruct (random_shuffle _ _). simpl. assumption.
Qed.

(** *** The tally of labels *)

(** How often a label occurs in a list of labels. *)
Definition occurrences (label : string) (labels : list string) : nat :=
  length (List.filter (λ l, bool_decide (l = label)) labels).

(** [count[label]], zero when the label has no entry. *)
Definition tally (count : gmap string Z) (label : string) : Z :=
  default 0 (count !! label).

Lemma count_label_effect source label (w w' : World') :
  count_label rng_state source label w = (w', Ok tt) →
  ∃ k, label_count (self w) !! source = Some k
       ∧ label_count (self w')
         = <[source := <[label := tally k label + 1]> k]> (label_count (self w)).
Proof.
  unfold count_label, tally. run'.
  destruct (label_count (self w) !! source) as [k|] eqn:Hk; [|discriminate].
  simpl. intros [= <-]. exists k. split; [reflexivity|]. simpl. f_equal.
  destruct (k !! label) as [z|] eqn:Hz.
  - rewrite Hz. reflexivity.
  - rewrite lookup_insert_eq, insert_insert_eq. reflexivity.
Qed.

Lemma label_step_label_count source label (b : bool) (w w' : World') r :
  (if b then label_set_add rng_state source label
   else c ← get_label_set rng_state source;
        if coll_mem label c then mret tt else raise rng_state ValueError) w
  = (w', r) →
  label_count (self w') = label_count (self w).
Proof.
  destruct b.
  - unfold label_set_add. run'.
    destruct (label_sets (self w) !! source) as [[s|l]|];
      intros [= <- <-]; reflexivity.
  - intros H. apply label_check_config in H as ->. reflexivity.
Qed.

Lemma occurrences_cons (label x : string) (labels : list string) :
  occurrences label (x :: labels)
  = ((if bool_decide (x = label) then 1 else 0) + occurrences label labels)%nat.
Proof.
  unfold occurrences. simpl. destruct (bool_decide (x = label)); reflexivity.
Qed.

Lemma train_loop_tally (source : string) (b : bool)
    (ils : list (nat * RawRow)) :
  ∀ (exs : list InputExample.t) (w w' : World') (out : list InputExample.t)
    (k : gmap string Z),
  train_loop rng_state source b ils exs w = (w', Ok out) →
  label_count (self w) !! source = Some k →
  ∃ k', label_count (self w') !! source = Some k'
    ∧ (∀ label, tally k' label
                = tally k label
                  + Z.of_nat (occurrences label
                                (labels_of (List.filter is_data ils))))
    ∧ (∀ src, src ≠ source →
              label_count (self w') !! src = label_count (self w) !! src).
Proof.
  induction ils as [|[i line] ils IH]; intros exs w w' out k.
  - simpl. intros [= <- <-] Hk. exists k. split; [assumption|].
    split; [intros label; unfold occurrences; simpl; lia|reflexivity].
  - assert (is_data (i, line)
            = negb (i =? 0)%nat && negb (length line =? 0)%nat) as Hd
      by reflexivity.
    cbn [List.filter train_loop]. rewrite Hd.
    destruct (i =? 0)%nat eqn:Hi; cbn [negb andb].
    { apply IH. }
    destruct (length line =? 0)%nat eqn:Hl; cbn [negb andb].
    { apply IH. }
    unfold mbind at 1, M_bind at 1, get_self at 1.
    unfold mbind at 1, M_bind at 1, lift at 1.
    destruct (create_example (num_evidences (self w)) line)
      as [[[[ev ct] lab] md]|e] eqn:Hrow; [|discriminate].
    pose proof (create_example_label _ _ _ _ _ _ Hrow) as Hlab.
    cbn beta iota.
    unfold mbind at 1, M_bind at 1. unfold mbind at 1, M_bind at 1.
    match goal with
    | |- context [(if b then ?m1 else ?m2) w] =>
        destruct ((if b then m1 else m2) w) as [w1 r1] eqn:Hstep1
    end.
    apply label_step_label_count in Hstep1.
    destruct r1 as [[]|e]; [|discriminate].
    cbn beta iota. unfold mbind at 1, M_bind at 1.
    destruct (count_label rng_state source lab w1) as [w2 [[]|e]] eqn:Hstep2;
      [|discriminate].
    apply count_label_effect in Hstep2 as (k1 & Hk1 & Hlc2).
    intros Hloop Hk. rewrite Hstep1, Hk in Hk1. injection Hk1 as <-.
    destruct (IH _ _ _ _ (<[lab := tally k lab + 1]> k) Hloop)
      as (k' & Hk' & Htally & Hother).
    { rewrite Hlc2. apply lookup_insert_eq. }
    exists k'. split; [assumption|]. split.
    + intros label. rewrite Htally. cbn [labels_of fmap list_fmap snd].
      fold (labels_of (List.filter is_data ils)).
      rewrite occurrences_cons, <- Hlab. unfold tally.
      destruct (decide (lab = label)) as [->|Hne].
      * rewrite lookup_insert_eq, bool_decide_eq_true_2 by reflexivity.
        simpl. lia.
      * rewrite lookup_insert_ne, bool_decide_eq_false_2 by assumption.
        simpl. lia.
    + intros src Hsrc. rewrite (Hother src Hsrc), Hlc2, Hstep1.
      apply lookup_insert_ne. congruence.
Qed.

(** X5.  A training scan that returns has added to the tally of its
    source, for every label, the number of data rows of the file that carry
    it (starting from zero for a source seen for the first time), and has
    left the tallies of the other sources alone.  The processor is taken
    in a state where a source that has a collection has a tally. *)
Theorem train_scan_tally (data_dir source : string) (b : bool)
    (w w' : World') (out : list InputExample.t) :
  (source ∈ dom (label_sets (self w)) →
   is_Some (label_count (self w) !! source)) →
  get_train_examples rng_state random_shuffle data_dir source b w
    = (w', Ok out) →
  let before :=
    if bool_decide (source ∈ dom (label_sets (self w)))
    then default ∅ (label_count (self w) !! source) else ∅ in
  ∃ after, label_count (self w') !! source = Some after
    ∧ (∀ label,
         tally after label
         = tally before label
           + Z.of_nat (occurrences label
                         (train_labels (files w) data_dir source)))
    ∧ (∀ src, src ≠ source →
              label_count (self w') !! src = label_count (self w) !! src).
Proof.
  intros Hinv.
  unfold get_train_examples, train_labels, train_rows, train_file. run'.
  destruct (bool_decide (source ∈ dom (label_sets (self w)))) eqn:Hdom; run'.
  - apply bool_decide_eq_true_1 in Hdom. destruct (Hinv Hdom) as [k Hk].
    destruct (files w !! _) as [rows|]; [|discriminate]. simpl.
    destruct (train_loop _ _ _ _ _ _) as [w1 [o|e]] eqn:Hloop; [|discriminate].
    unfold shuffle. simpl. destruct (random_shuffle _ _) as [g l'].
    intros [= <- <-]. simpl.
    apply (train_loop_tally _ _ _ _ _ _ _ k) in Hloop
      as (k' & Hk' & Ht & Ho); [|exact Hk].
    exists k'. rewrite Hk. simpl in *. auto.
  - destruct (files w !! _) as [rows|]; [|discriminate]. simpl.
    destruct (train_loop _ _ _ _ _ _) as [w1 [o|e]] eqn:Hloop; [|discriminate].
    unfold shuffle. simpl. destruct (random_shuffle _ _) as [g l'].
    intros [= <- <-]. simpl.
    apply (train_loop_tally _ _ _ _ _ _ _ ∅) in Hloop
      as (k' & Hk' & Ht & Ho); [|simpl; apply lookup_insert_eq].
    exists k'. simpl in *. split; [assumption|]. split; [assumption|].
    intros src Hsrc. rewrite (Ho src Hsrc). apply lookup_insert_ne. congruence.
Qed.

(** *** Asking for the labels again *)

Lemma sorted_list_twice (c : LabelColl) :
  sorted_list (LList (sorted_list c)) = sorted_list c.
Proof. apply sorted_list_fixed, sorted_list_sorted. Qed.

(** X6.  [get_labels] may be called again and again: the second call
    returns what the first returned and leaves the processor as the first
    left it. *)
Theorem get_labels_twice (w : World') :
  let first := get_labels rng_state w in
  let second := get_labels rng_state first.1 in
  second.2 = first.2 ∧ self second.1 = self first.1.
Proof.
  cbv zeta. unfold get_labels, sort_label_set. run'.
  assert ((λ val, LList (sorted_list val))
            <$> ((λ val, LList (sorted_list val)) <$> label_sets (self w))
          = (λ val, LList (sorted_list val)) <$> label_sets (self w)) as ->.
  { rewrite <- map_fmap_compose. apply map_fmap_ext. intros src c _.
    unfold compose. f_equal. apply sorted_list_twice. }
  split; reflexivity.
Qed.

(** *** The training loader returns every row once *)

(** X7.  A training scan in check mode over a file whose data rows are
    wide enough and carry known labels only returns one example per data
    row: a rearrangement (by [random.shuffle]) of the examples of the rows
    in file order. *)
Theorem train_examples_permutation (data_dir source : string) (w : World')
    (c : LabelColl) (rows : list RawRow) :
  (∀ g l, (random_shuffle g l).2 ≡ₚ l) →
  label_sets (self w) !! source = Some c →
  is_Some (label_count (self w) !! source) →
  files w !! train_file data_dir source = Some rows →
  well_formed (num_evidences (self w)) (data_rows rows) →
  Forall (λ il, coll_mem (row_label il.2) c = true) (data_rows rows) →
  ∃ w' out,
    get_train_examples rng_state random_shuffle data_dir source false w
      = (w', Ok out)
    ∧ out ≡ₚ omap (build_row (num_evidences (self w)) (use_metadata (self w)))
               (data_rows rows)
    ∧ length out = length (data_rows rows).
Proof.
  intros Hperm Hc Hk Hf Hwf Hall.
  destruct (get_train_examples_frozen rng_state random_shuffle data_dir source
              w c rows Hc Hk Hf Hwf) as (w' & r & Hrun & _ & _ & Hr).
  destruct r as [out|e].
  - destruct Hr as [-> _]. eexists _, _. split; [exact Hrun|].
    split; [apply Hperm|]. rewrite Hperm. apply built_count. assumption.
  - destruct Hr as [_ Hex]. exfalso. eapply Forall_Exists_mem; eassumption.
Qed.

(** *** A source without a vocabulary *)

Lemma filtered_loop_no_rows (source : string) (ils : list (nat * RawRow)) :
  ∀ (exs : list InputExample.t) (sk : nat) (w : World'),
  List.filter is_data ils = [] →
  filtered_loop rng_state source ils exs sk w = (w, Ok (exs, sk)).
Proof.
  induction ils as [|[i line] ils IH]; intros exs sk w; [reflexivity|].
  assert (is_data (i, line)
          = negb (i =? 0)%nat && negb (length line =? 0)%nat) as Hd
    by reflexivity.
  cbn [List.filter filtered_loop]. rewrite Hd.
  destruct (i =? 0)%nat; cbn [negb andb]; [apply IH|].
  destruct (length line =? 0)%nat; cbn [negb andb]; [apply IH|].
  discriminate.
Qed.

Lemma filtered_loop_unknown (source : string) (ils : list (nat * RawRow)) :
  ∀ (exs : list InputExample.t) (sk : nat) (w : World') first rest,
  label_sets (self w) !! source = None →
  List.filter is_data ils = first :: rest →
  (required_columns (num_evidences (self w)) ≤ length first.2)%nat →
  filtered_loop rng_state source ils exs sk w = (w, Raise KeyError).
Proof.
  induction ils as [|[i line] ils IH]; intros exs sk w first rest Hnone;
    [discriminate|].
  assert (is_data (i, line)
          = negb (i =? 0)%nat && negb (length line =? 0)%nat) as Hd
    by reflexivity.
  cbn [List.filter filtered_loop]. rewrite Hd.
  destruct (i =? 0)%nat; cbn [negb andb]; [apply IH; assumption|].
  destruct (length line =? 0)%nat; cbn [negb andb]; [apply IH; assumption|].
  intros [= <- <-] Hlen. cbn [snd] in Hlen.
  apply create_example_is_ok, is_ok_true in Hlen as [[[[ev ct] lab] md] Hrow].
  run'. rewrite Hrow. simpl. rewrite Hnone. reflexivity.
Qed.

(** X8.  The dev loader on a source that has no collection: a file with
    no data row gives the empty list, without error; a file whose first
    data row is wide enough makes the loader raise [KeyError]. *)
Theorem dev_unknown_source (data_dir source : string)
    (filename : option string) (w : World') (rows : list RawRow) :
  label_sets (self w) !! source = None →
  files w !! dev_file data_dir source filename = Some rows →
  (data_rows rows = [] →
   (get_dev_examples rng_state data_dir source filename w).2 = Ok [])
  ∧ (∀ first rest,
       data_rows rows = first :: rest →
       (required_columns (num_evidences (self w)) ≤ length first.2)%nat →
       (get_dev_examples rng_state data_dir source filename w).2
       = Raise KeyError).
Proof.
  intros Hnone Hf. unfold get_dev_examples, dev_file, data_rows in *. split.
  - intros Hrows. destruct filename as [f|]; run'; rewrite Hf;
      rewrite filtered_loop_no_rows by assumption; reflexivity.
  - intros first rest Hrows Hlen. destruct filename as [f|]; run'; rewrite Hf;
      rewrite (filtered_loop_unknown _ _ _ _ _ first rest) by assumption;
      reflexivity.
Qed.

(** *** Order, ids and question texts *)

(** The example of a numbered row: its id names the line, its question is
    the field before the last, followed by the metadata when asked for. *)
Definition example_of_row (um : bool) (il : nat * RawRow)
    (e : InputExample.t) : Prop :=
  InputExample.example_id e = "train-" +:+ pretty il.1
  ∧ (∃ claim_text metadata,
       py_index il.2 (-2) = Ok claim_text
       ∧ get_metadata il.2 = Ok metadata
       ∧ InputExample.question e
         = if um then claim_text +:+ " " +:+ metadata else claim_text)
  ∧ InputExample.label e = Some (row_label il.2).

Definition known_label (c : LabelColl) (il : nat * RawRow) : bool :=
  coll_mem (row_label il.2) c.

Lemma create_example_claim (n : nat) (line : RawRow) ev ct lab md :
  create_example n line = Ok (ev, ct, lab, md) →
  py_index line (-2) = Ok ct ∧ get_metadata line = Ok md.
Proof.
  unfold create_example.
  destruct (for_each _ (seq 0 n)) as [evs|]; simpl; [|discriminate].
  destruct (py_index line (-2)) as [ct'|]; simpl; [|discriminate].
  destruct (py_index line (-1)) as [lab'|]; simpl; [|discriminate].
  destruct (get_metadata line) as [md'|]; simpl; [|discriminate].
  intros [= <- <- <- <-]. split; reflexivity.
Qed.

Lemma kept_rows_examples (n : nat) (um : bool) (c : LabelColl)
    (ils : list (nat * RawRow)) :
  well_formed n ils →
  Forall2 (example_of_row um) (List.filter (known_label c) ils)
          (omap (keep_row n um c) ils).
Proof.
  induction 1 as [|il ils Hrow _ IH]; [constructor|].
  apply is_ok_true in Hrow as [[[[ev ct] lab] md] Hrow].
  cbn [omap list_omap List.filter]. unfold keep_row at 1, known_label at 1.
  rewrite Hrow. pose proof (create_example_label _ _ _ _ _ _ Hrow) as Hlab.
  rewrite <- Hlab. destruct (coll_mem lab c); [|exact IH].
  constructor; [|exact IH].
  apply create_example_claim in Hrow as [Hct Hmd].
  split; [reflexivity|]. split; [|simpl; congruence].
  exists ct, md. repeat split; assumption.
Qed.

Lemma filter_sublist {A} (P : A → bool) (l : list A) :
  List.filter P l `sublist_of` l.
Proof.
  induction l as [|x l IH]; [constructor|]. simpl.
  destruct (P x); [apply sublist_skip|apply sublist_cons]; assumption.
Qed.

Lemma enumerate_indices {A} (l : list A) :
  (enumerate l).*1 = seq 0 (length l).
Proof.
  unfold enumerate. rewrite fmap_imap.
  rewrite (imap_ext _ (λ i _, i)) by reflexivity.
  rewrite imap_seq_0. apply list_fmap_id.
Qed.

Lemma guid_inj (i j : nat) :
  "train-" +:+ pretty i = "train-" +:+ pretty j → i = j.
Proof.
  intros H. apply (inj (String.app "train-")) in H.
  apply (inj pretty). exact H.
Qed.

(** X9.  The dev and the test loader, on a source with a collection and a
    file whose data rows are wide enough, return the examples of the rows
    with a known label in the order of the file, one each: the id of an
    example is [train-] followed by the line number of its row, its
    question the row's last field but one (followed by a space and the
    metadata when [use_metadata] is set), its label the row's label; and
    no two examples have the same id. *)
Theorem dev_test_examples_in_file_order (data_dir source : string)
    (filename : option string) (w : World') (c : LabelColl)
    (dev_rows test_rows : list RawRow) :
  label_sets (self w) !! source = Some c →
  files w !! dev_file data_dir source filename = Some dev_rows →
  files w !! path_join data_dir ("test." +:+ source +:+ ".tsv") = Some test_rows →
  well_formed (num_evidences (self w)) (data_rows dev_rows) →
  well_formed (num_evidences (self w)) (data_rows test_rows) →
  (∃ examples,
     (get_dev_examples rng_state data_dir source filename w).2 = Ok examples
     ∧ Forall2 (example_of_row (use_metadata (self w)))
               (List.filter (known_label c) (data_rows dev_rows)) examples
     ∧ NoDup (InputExample.example_id <$> examples))
  ∧ (∃ examples,
     (get_test_examples rng_state data_dir source w).2 = Ok examples
     ∧ Forall2 (example_of_row (use_metadata (self w)))
               (List.filter (known_label c) (data_rows test_rows)) examples
     ∧ NoDup (InputExample.example_id <$> examples)).
Proof.
  intros Hc Hdev Htest Hwd Hwt.
  assert (∀ rows um examples,
            Forall2 (example_of_row um)
                    (List.filter (known_label c) (data_rows rows)) examples →
            NoDup (InputExample.example_id <$> examples)) as Hnodup.
  { intros rows um examples H2.
    assert (InputExample.example_id <$> examples
            = (λ il : nat * RawRow, "train-" +:+ pretty il.1)
                <$> List.filter (known_label c) (data_rows rows)) as ->.
    { clear -H2. induction H2 as [|il e ils es (Hid & _) _ IH]; [reflexivity|].
      rewrite !fmap_cons, Hid, IH. reflexivity. }
    replace ((λ il : nat * RawRow, "train-" +:+ pretty il.1)
               <$> List.filter (known_label c) (data_rows rows))
      with ((λ i : nat, "train-" +:+ pretty i)
              <$> (List.filter (known_label c) (data_rows rows)).*1)
      by (rewrite <- list_fmap_compose; reflexivity).
    apply NoDup_fmap_2; [intros i j; apply guid_inj|].
    apply (sublist_NoDup _ ((enumerate rows).*1)).
    - rewrite enumerate_indices. apply NoDup_seq.
    - apply fmap_sublist.
      transitivity (data_rows rows); [apply filter_sublist|].
      unfold data_rows. apply filter_sublist. }
  split.
  - rewrite (get_dev_examples_run rng_state data_dir source filename w c
               dev_rows Hc Hdev Hwd).
    eexists. split; [reflexivity|].
    pose proof (kept_rows_examples _ (use_metadata (self w)) c _ Hwd) as H2.
    split; [exact H2|]. eapply Hnodup. exact H2.
  - rewrite (get_test_examples_run rng_state data_dir source w c
               test_rows Hc Htest Hwt).
    eexists. split; [reflexivity|].
    pose proof (kept_rows_examples _ (use_metadata (self w)) c _ Hwt) as H2.
    split; [exact H2|]. eapply Hnodup. exact H2.
Qed.

End ProcessorMore.

(** ** What the converters raise *)

Lemma for_each_raise_elem {A B} (f : A → result B) (l : list A) (e : exn) :
  for_each f l = Raise e → ∃ x, x ∈ l ∧ f x = Raise e.
Proof.
  induction l as [|x l IH]; [discriminate|]. simpl.
  destruct (f x) as [y|e'] eqn:Hx; simpl.
  - destruct (for_each f l) as [ys|e'']; simpl; [discriminate|].
    intros [= <-]. destruct IH as (x' & Hin & Hx'); [reflexivity|].
    exists x'. split; [right; exact Hin|exact Hx'].
  - intros [= <-]. exists x. split; [left|exact Hx].
Qed.

Lemma for_each_all_raise {A B} (f : A → result B) (l : list A) (e0 : exn) :
  (∀ x e, x ∈ l → f x = Raise e → e = e0) →
  Exists (λ x, is_ok (f x) = false) l →
  for_each f l = Raise e0.
Proof.
  intros Hf Hex. destruct (for_each f l) as [ys|e] eqn:H.
  - exfalso. apply for_each_Forall2 in H.
    apply Exists_exists in Hex as (x & Hx & Hno).
    apply list_elem_of_lookup in Hx as [i Hx].
    destruct (Forall2_lookup_l _ _ _ _ _ H Hx) as (y & _ & Hy).
    rewrite Hy in Hno. discriminate.
  - apply for_each_raise_elem in H as (x & Hin & Hx).
    f_equal. eapply Hf; eassumption.
Qed.

Lemma column_if_first_error {V} (key : BatchEncoding.t → option V)
    (choices_inputs : list BatchEncoding.t) (e : exn) :
  column_if_first key choices_inputs = Raise e →
  (e = IndexError ∧ choices_inputs = [])
  ∨ (e = KeyError ∧ choices_inputs ≠ []).
Proof.
  unfold column_if_first. destruct choices_inputs as [|first rest].
  - intros [= <-]. left. auto.
  - rewrite py_index_head. cbn [head mbind result_bind].
    destruct (key first); [|discriminate].
    destruct (for_each _ _) as [vs|e'] eqn:H; cbn; [discriminate|].
    intros [= <-]. right. split; [|discriminate].
    eapply for_each_raises; [|exact H]. intros x e''. cbn.
    destruct (key x); [discriminate|]. intros [= <-]. reflexivity.
Qed.

Lemma features_of_error (label_map : gmap string nat)
    (example : InputExample.t) (choices_inputs : list BatchEncoding.t)
    (e : exn) :
  features_of label_map example choices_inputs = Raise e →
  e = KeyError ∨ (e = IndexError ∧ choices_inputs = []).
Proof.
  unfold features_of, label_map_lookup.
  destruct (InputExample.label example) as [l|]; [|intros [= <-]; auto].
  destruct (label_map !! l); [|intros [= <-]; auto]. cbn [mbind result_bind].
  destruct (column_if_first BatchEncoding.attention_mask _) as [am|e1] eqn:H1.
  - cbn [mbind result_bind].
    destruct (column_if_first BatchEncoding.token_type_ids _) as [tt|e2] eqn:H2;
      [discriminate|].
    cbn. intros [= <-].
    apply column_if_first_error in H2 as [[-> ->]|[-> _]]; auto.
  - cbn. intros [= <-].
    apply column_if_first_error in H1 as [[-> ->]|[-> _]]; auto.
Qed.

Lemma features_of_key_missing (label_map : gmap string nat)
    (example : InputExample.t) (choices_inputs : list BatchEncoding.t) :
  key_missing_later choices_inputs →
  features_of label_map example choices_inputs = Raise KeyError.
Proof.
  intros Hm. pose proof (features_of_raises label_map example _ Hm) as Hno.
  destruct (features_of label_map example choices_inputs) as [f|e] eqn:H;
    [discriminate|].
  apply features_of_error in H as [->|[_ ->]]; [reflexivity|].
  destruct Hm as (first & Hh & _). discriminate.
Qed.

Section ConverterErrors.

Variable tokenizer : string → option string → nat → BatchEncoding.t.

(** X14.  What the converters raise.  The claim-plus-evidence converter
    raises nothing but [KeyError]; the evidence-pairing converter raises
    [KeyError], or [IndexError] when it meets an example without
    evidences.  An example one of whose choices lacks the attention masks
    (or the segment ids) that its first choice has makes the
    claim-plus-evidence converter raise [KeyError], and the
    evidence-pairing converter too when every example has an evidence. *)
Theorem converters_raise (examples : list InputExample.t)
    (label_list : list string) (max_length : nat) :
  let pairing :=
    (xfact_evidence_convert_examples_to_features tokenizer examples
       label_list max_length).2 in
  let claim_first :=
    (xfact_claim_evidence_convert_examples_to_features tokenizer examples
       label_list max_length).2 in
  (∀ e, pairing = Raise e →
        e = KeyError
        ∨ (e = IndexError
           ∧ ∃ ex, ex ∈ examples ∧ InputExample.contexts ex = []))
  ∧ (∀ e, claim_first = Raise e → e = KeyError)
  ∧ (Exists (λ ex, key_missing_later
                     (single_encodings tokenizer max_length ex)) examples →
     claim_first = Raise KeyError)
  ∧ (Exists (λ ex, key_missing_later
                     (pair_encodings tokenizer max_length ex)) examples →
     Forall (λ ex, InputExample.contexts ex ≠ []) examples →
     pairing = Raise KeyError).
Proof.
  intros pairing claim_first. subst pairing claim_first.
  rewrite evidence_convert_result, claim_evidence_convert_result.
  assert (∀ ex e,
            features_of (label_map_of label_list) ex
              (single_encodings tokenizer max_length ex) = Raise e →
            e = KeyError) as Hsingle.
  { intros ex e H. apply features_of_error in H as [->|[_ H]];
      [reflexivity|discriminate]. }
  split; [|split; [|split]].
  - intros e H. apply for_each_raise_elem in H as (ex & Hin & H).
    apply features_of_error in H as [->|[-> H]]; [left; reflexivity|].
    right. split; [reflexivity|]. exists ex. split; [exact Hin|].
    unfold pair_encodings in H. apply fmap_nil_inv in H. exact H.
  - intros e H. eapply for_each_raises; [|exact H]. exact Hsingle.
  - intros Hex. apply for_each_all_raise; [intros ex e _; apply Hsingle|].
    eapply Exists_impl; [exact Hex|]. cbn. intros ex Hm.
    rewrite (features_of_key_missing _ _ _ Hm). reflexivity.
  - intros Hex Hall. apply for_each_all_raise.
    + intros ex e Hin H. apply features_of_error in H as [->|[_ H]];
        [reflexivity|].
      rewrite Forall_forall in Hall. destruct (Hall ex Hin).
      unfold pair_encodings in H. apply fmap_nil_inv in H. exact H.
    + eapply Exists_impl; [exact Hex|]. cbn. intros ex Hm.
      rewrite (features_of_key_missing _ _ _ Hm). reflexivity.
Qed.

End ConverterErrors.

(** ** What the converters log *)

(** The message about cropped tokens, once for each choice for which the
    tokenizer reports truncation. *)
Definition truncation_log (choices_inputs : list BatchEncoding.t)
  : list logged :=
  (λ _, L_cropping_tokens) <$> List.filter reports_truncation choices_inputs.

(** What is logged while one example is converted. *)
Definition example_log (encodings : InputExample.t → list BatchEncoding.t)
    (total : nat) (ix : nat * InputExample.t) : list logged :=
  (if (ix.1 mod 10000 =? 0)%nat then [L_writing_example ix.1 total] else [])
  ++ truncation_log (encodings ix.2).

(** What is logged for the features shown at the end. *)
Definition features_log (features : list InputFeatures.t) : list logged :=
  concat ((λ f, [L_example_header; L_feature f]) <$> features).

Lemma bind_run {A B} (m : Logging A) (k : A → Logging B) :
  m ≫= k
  = match m with
    | (l, Ok a) => (l ++ (k a).1, (k a).2)
    | (l, Raise e) => (l, Raise e)
    end.
Proof.
  destruct m as [l [a|e]]; [|reflexivity].
  unfold mbind, Logging_bind. destruct (k a). reflexivity.
Qed.

Lemma truncation_log_cons (x : BatchEncoding.t) (l : list BatchEncoding.t) :
  truncation_log (x :: l) = truncation_log [x] ++ truncation_log l.
Proof.
  unfold truncation_log. cbn [List.filter].
  destruct (reports_truncation x); reflexivity.
Qed.

Section ConverterLog.

Variable tokenizer : string → option string → nat → BatchEncoding.t.

Lemma log_if_truncated_run (inputs : BatchEncoding.t) :
  log_if_truncated inputs = (truncation_log [inputs], Ok tt).
Proof.
  unfold log_if_truncated, truncation_log. cbn [List.filter].
  destruct (reports_truncation inputs); reflexivity.
Qed.

Lemma pair_choices_run (max_length : nat) (question : string)
    (contexts : list string) (choices_inputs : list BatchEncoding.t) :
  pair_choices tokenizer max_length question contexts choices_inputs
  = (truncation_log
       ((λ context, tokenizer question (Some context) max_length)
          <$> contexts),
     Ok (choices_inputs
         ++ ((λ context, tokenizer question (Some context) max_length)
               <$> contexts))).
Proof.
  revert choices_inputs.
  induction contexts as [|c contexts IH]; intros choices_inputs.
  - cbn. rewrite app_nil_r. reflexivity.
  - cbn [pair_choices]. rewrite bind_run, log_if_truncated_run, IH.
    cbn [fst snd].
    rewrite fmap_cons, (truncation_log_cons _ (_ <$> contexts)), <- app_assoc.
    reflexivity.
Qed.

Lemma single_choices_run (max_length : nat) (contexts : list string)
    (choices_inputs : list BatchEncoding.t) :
  single_choices tokenizer max_length contexts choices_inputs
  = (truncation_log ((λ context, tokenizer context None max_length)
                       <$> contexts),
     Ok (choices_inputs
         ++ ((λ context, tokenizer context None max_length) <$> contexts))).
Proof.
  revert choices_inputs.
  induction contexts as [|c contexts IH]; intros choices_inputs.
  - cbn. rewrite app_nil_r. reflexivity.
  - cbn [single_choices]. rewrite bind_run, log_if_truncated_run, IH.
    cbn [fst snd].
    rewrite fmap_cons, (truncation_log_cons _ (_ <$> contexts)), <- app_assoc.
    reflexivity.
Qed.

Lemma build_features_run label_map example choices_inputs :
  build_features label_map example choices_inputs
  = ([], features_of label_map example choices_inputs).
Proof.
  unfold build_features, features_of, lift_result.
  destruct (label_map_lookup _ _) as [label|]; [|reflexivity].
  rewrite bind_run. cbn [mbind result_bind].
  destruct (column_if_first BatchEncoding.attention_mask _) as [am|];
    [|reflexivity].
  rewrite bind_run. cbn [mbind result_bind fst snd].
  destruct (column_if_first BatchEncoding.token_type_ids _) as [tt|];
    reflexivity.
Qed.

Lemma log_writing_run (ex_index total : nat) :
  log_writing ex_index total
  = (if (ex_index mod 10000 =? 0)%nat
     then [L_writing_example ex_index total] else [], Ok tt).
Proof.
  unfold log_writing. destruct (_ =? _)%nat; reflexivity.
Qed.

Lemma evidence_loop_log label_map max_length total
    (examples : list (nat * InputExample.t))
    (features fs : list InputFeatures.t) (log : list logged) :
  evidence_loop tokenizer label_map max_length total examples features
    = (log, Ok fs) →
  log = concat (example_log (pair_encodings tokenizer max_length) total
                  <$> examples).
Proof.
  revert features log.
  induction examples as [|[i ex] examples IH]; intros features log.
  - cbn. intros [= <- _]. reflexivity.
  - cbn [evidence_loop]. rewrite bind_run, log_writing_run.
    rewrite bind_run, pair_choices_run. cbn [fst snd app].
    rewrite bind_run, build_features_run.
    fold (pair_encodings tokenizer max_length ex).
    destruct (features_of _ _ _) as [f|e]; cbn [fst snd]; [|discriminate].
    destruct (evidence_loop _ _ _ _ examples _) as [log' r] eqn:Hrest.
    cbn [fst snd]. intros [= <- ->].
    rewrite (IH _ _ Hrest). rewrite fmap_cons. cbn [concat].
    unfold example_log at 2. cbn [fst snd]. rewrite <- !app_assoc.
    reflexivity.
Qed.

Lemma claim_evidence_loop_log label_map max_length total
    (examples : list (nat * InputExample.t))
    (features fs : list InputFeatures.t) (log : list logged) :
  claim_evidence_loop tokenizer label_map max_length total examples features
    = (log, Ok fs) →
  log = concat (example_log (single_encodings tokenizer max_length) total
                  <$> examples).
Proof.
  revert features log.
  induction examples as [|[i ex] examples IH]; intros features log.
  - cbn. intros [= <- _]. reflexivity.
  - cbn [claim_evidence_loop]. cbv zeta.
    rewrite bind_run, log_writing_run.
    rewrite bind_run, log_if_truncated_run.
    rewrite bind_run, single_choices_run. cbn [fst snd app].
    rewrite bind_run, build_features_run.
    fold (single_encodings tokenizer max_length ex).
    destruct (features_of _ _ _) as [f|e]; cbn [fst snd]; [|discriminate].
    destruct (claim_evidence_loop _ _ _ _ examples _) as [log' r] eqn:Hrest.
    cbn [fst snd]. intros [= <- ->].
    rewrite (IH _ _ Hrest). rewrite fmap_cons. cbn [concat].
    unfold example_log at 2. cbn [fst snd].
    unfold single_encodings at 2.
    rewrite (truncation_log_cons _ (_ <$> InputExample.contexts ex)).
    rewrite <- !app_assoc. reflexivity.
Qed.

Lemma log_features_run (l : list InputFeatures.t) :
  log_features l = (features_log l, Ok tt).
Proof.
  induction l as [|f l IH]; [reflexivity|].
  cbn [log_features]. unfold logger_info. rewrite !bind_run, IH.
  reflexivity.
Qed.

(** X16.  The log of a conversion that returns.  For each example in
    turn: [Writing example i of n] when its index is a multiple of 10000,
    then the message about cropped tokens once for each of its choices for
    which the tokenizer reports truncation; at the end the first two
    features, each under its header. *)
Theorem converters_log (examples : list InputExample.t)
    (label_list : list string) (max_length : nat) :
  (∀ log features,
     xfact_evidence_convert_examples_to_features tokenizer examples
       label_list max_length = (log, Ok features) →
     log = concat (example_log (pair_encodings tokenizer max_length)
                     (length examples) <$> enumerate examples)
           ++ features_log (take 2 features))
  ∧ (∀ log features,
     xfact_claim_evidence_convert_examples_to_features tokenizer examples
       label_list max_length = (log, Ok features) →
     log = concat (example_log (single_encodings tokenizer max_length)
                     (length examples) <$> enumerate examples)
           ++ features_log (take 2 features)).
Proof.
  split; intros log features.
  - unfold xfact_evidence_convert_examples_to_features. cbv zeta.
    rewrite bind_run.
    destruct (evidence_loop _ _ _ _ _ _) as [l [fs|e]] eqn:Hloop;
      [|discriminate].
    apply evidence_loop_log in Hloop as ->.
    rewrite bind_run, log_features_run. cbn [fst snd].
    intros [= <- <-]. rewrite app_nil_r. reflexivity.
  - unfold xfact_claim_evidence_convert_examples_to_features. cbv zeta.
    rewrite bind_run.
    destruct (claim_evidence_loop _ _ _ _ _ _) as [l [fs|e]] eqn:Hloop;
      [|discriminate].
    apply claim_evidence_loop_log in Hloop as ->.
    rewrite bind_run, log_features_run. cbn [fst snd].
    intros [= <- <-]. rewrite app_nil_r. reflexivity.
Qed.

End ConverterLog.

Lemma converters_log_witness :
  ∃ features,
    (xfact_evidence_convert_examples_to_features (demo_tokenizer always)
       demo_examples demo_labels 16).2 = Ok features
    ∧ (xfact_evidence_convert_examples_to_features (demo_tokenizer always)
         demo_examples demo_labels 16).1
      = [L_writing_example 0 2; L_cropping_tokens; L_cropping_tokens;
         L_cropping_tokens] ++ features_log features.
Proof.
  destruct (xfact_evidence_convert_examples_to_features
              (demo_tokenizer always) demo_examples demo_labels 16)
    as [log [features|e]] eqn:H; [|vm_compute in H; discriminate].
  exists features. split; [reflexivity|]. cbn [fst].
  destruct (converters_log (demo_tokenizer always) demo_examples demo_labels 16)
    as [Hlog _].
  rewrite (Hlog _ _ H).
  assert (take 2 features = features) as ->.
  { apply (f_equal snd) in H. cbn [snd] in H. vm_compute in H.
    injection H as <-. reflexivity. }
  f_equal.
Defined.

(** ** The year filter: errors and the scratch file *)

Module EdaMore.
Import Eda EdaFacts.

Section Script.

Context {parser : Parser}.

(** X10.  When the header of the file lacks one of the columns
    [claimDate], [claim] and [label], the script raises [KeyError] at
    line 9 and writes no file. *)
Theorem eda_missing_column (t : Tsv) (fs : gmap string File) :
  ¬ has_columns (header t) → eda t fs = (fs, Raise KeyError).
Proof. intros H. apply script_missing_column. exact H. Qed.


End Script.

(** X12.  The scratch file: after the script has run on a frame with the
    three columns, [dev.csv] holds the rows of 2016, which were written
    last, under the five column names of the output: the placeholder, the
    split, the claim, the label as 0 or 1 and the original label. *)
Theorem scratch_file (tsv : Frame) (fs : gmap string File) :
  has_columns (columns tsv) →
  (script tsv fs).1 !! "dev.csv"
  = Some (CsvFile ["annotation_id"; "exp_split"; "text"; "label"; "label_id"]
            ((λ r : gmap string Cell,
                ["placeholder"; "test"; csv_field (r !!! "claim");
                 csv_field (replace_label (r !!! "label"));
                 csv_field (r !!! "label")])
               <$> List.filter (goes_to "2016") (rows tsv))).
Proof.
  intros Hcols. rewrite (script_files _ _ Hcols). cbn [fst].
  rewrite lookup_insert_ne by discriminate. rewrite lookup_insert_eq.
  unfold to_csv, year_rows. cbn [columns rows]. do 2 f_equal.
  rewrite <- list_fmap_compose. apply list_fmap_ext. intros i r _.
  reflexivity.
Qed.

Lemma json_row_no_label (fieldnames fields : list string) :
  "label" ∉ fieldnames → json_row fieldnames fields = Raise KeyError.
Proof.
  intros Hl. unfold json_row. cbv zeta.
  assert (dict_row fieldnames fields !! "label" = None) as ->;
    [|reflexivity].
  unfold dict_row.
  assert ((list_to_map
             (reverse (imap (λ i key, (key, from_option JStr JNull
                                              (fields !! i))) fieldnames))
           : gmap string JVal) !! "label" = None) as Hnone.
  { apply not_elem_of_list_to_map. rewrite fmap_reverse.
    rewrite elem_of_reverse. rewrite fmap_imap.
    intros Hin. apply Hl. apply list_elem_of_lookup in Hin as [i Hi].
    rewrite list_lookup_imap in Hi.
    destruct (fieldnames !! i) as [k|] eqn:Hk'; [|discriminate].
    cbn in Hi. injection Hi as ->.
    eapply list_elem_of_lookup_2. exact Hk'. }
  destruct (length fieldnames <? length fields)%nat; [|exact Hnone].
  rewrite lookup_insert_ne by discriminate. exact Hnone.
Qed.

(** X13.  [csv_to_json]: without the input file it raises
    [FileNotFoundError]; on a file with a record and no [label] column it
    raises [KeyError]; whenever it raises, no file is written; on a file
    that has only blank lines after its header it writes the empty array;
    and when it returns, the array has one object for each record that is
    not blank, in order. *)
Theorem csv_to_json_outcome (csvFilePath jsonFilePath : string)
    (fs : gmap string File) :
  (fs !! csvFilePath = None →
   csv_to_json csvFilePath jsonFilePath fs = (fs, Raise FileNotFoundError))
  ∧ (∀ e, (csv_to_json csvFilePath jsonFilePath fs).2 = Raise e →
          (csv_to_json csvFilePath jsonFilePath fs).1 = fs)
  ∧ (∀ fieldnames records,
       fs !! csvFilePath = Some (CsvFile fieldnames records) →
       let kept := List.filter (λ r, negb (bool_decide (r = []))) records in
       (kept = [] →
        csv_to_json csvFilePath jsonFilePath fs
        = (<[jsonFilePath := JsonFile []]> fs, Ok tt))
       ∧ ("label" ∉ fieldnames → kept ≠ [] →
          csv_to_json csvFilePath jsonFilePath fs = (fs, Raise KeyError))
       ∧ ((csv_to_json csvFilePath jsonFilePath fs).2 = Ok tt →
          ∃ array,
            (csv_to_json csvFilePath jsonFilePath fs).1
            = <[jsonFilePath := JsonFile array]> fs
            ∧ Forall2 (λ fields object,
                         json_row fieldnames fields = Ok object)
                      kept array)).
Proof.
  split; [|split].
  - intros H. unfold csv_to_json. rewrite H. reflexivity.
  - intros e. unfold csv_to_json.
    destruct (fs !! csvFilePath) as [[fieldnames records|array]|];
      [|reflexivity..].
    destruct (for_each _ _); [discriminate|reflexivity].
  - intros fieldnames records H kept. unfold csv_to_json. rewrite H.
    fold kept. split; [|split].
    + intros ->. reflexivity.
    + intros Hl Hk. destruct kept as [|fields kept']; [congruence|].
      cbn [for_each]. rewrite (json_row_no_label _ _ Hl). reflexivity.
    + destruct (for_each (json_row fieldnames) kept) as [array|e] eqn:Hf;
        [|discriminate].
      intros _. exists array. split; [reflexivity|].
      apply for_each_Forall2. exact Hf.
Qed.



Section SmallFilesMore.

#[local] Existing Instance demo_parser.

Lemma eda_missing_column_witness :
  eda (mkTsv ["claim"; "label"] [{[ "claim" := "a"; "label" := "true" ]}]) ∅
  = (∅, Raise KeyError).
Proof.
  apply eda_missing_column. cbn [header]. intros (H & _).
  repeat (apply elem_of_cons in H as [H|H]; [discriminate|]).
  inversion H.
Defined.

(** A file with a row of 2016. *)
Definition tsv_2016 : Tsv :=
  mkTsv ["claimDate"; "claim"; "label"]
        [{[ "claimDate" := "2016-03-01"; "claim" := "x"; "label" := "false" ]};
         {[ "claimDate" := "2016-04-01"; "claim" := "y"; "label" := "half true" ]};
         {[ "claimDate" := "2020-04-01"; "claim" := "z"; "label" := "true" ]}].

Lemma scratch_file_witness :
  (script (read_csv tsv_2016) ∅).1 !! "dev.csv"
  = Some (CsvFile ["annotation_id"; "exp_split"; "text"; "label"; "label_id"]
                  [["placeholder"; "test"; "x"; "0"; "false"]]).
Proof.
  rewrite (scratch_file (read_csv tsv_2016) ∅).
  - vm_compute. reflexivity.
  - repeat split; by_computation.
Defined.


End SmallFilesMore.

End EdaMore.

(** ** The properties above on the small instance *)

Section SmallInstanceMore.

#[local] Existing Instance ascii_str.

Lemma train_scan_tally_witness :
  ∃ after,
    label_count
      (self (get_train_examples unit demo_shuffle "d" "X" true demo_world).1)
      !! "X" = Some after
    ∧ tally after "true" = 2
    ∧ tally after "false" = 1
    ∧ tally after "unknown" = 0.
Proof.
  destruct (get_train_examples unit demo_shuffle "d" "X" true demo_world)
    as [w' [out|e]] eqn:Hrun; [|vm_compute in Hrun; discriminate].
  destruct (train_scan_tally unit demo_shuffle "d" "X" true demo_world w' out)
    as (after & Hafter & Htally & _).
  - intros H. exfalso. revert H. apply not_elem_of_dom. reflexivity.
  - exact Hrun.
  - exists after. split; [exact Hafter|].
    rewrite !Htally. vm_compute. repeat split.
Defined.

Lemma train_examples_permutation_witness :
  ∃ w' out,
    get_train_examples unit demo_shuffle "d" "X" false demo_frozen
      = (w', Ok out)
    ∧ length out = 3%nat.
Proof.
  destruct (train_examples_permutation unit demo_shuffle "d" "X" demo_frozen
              (LList ["false"; "true"]) demo_train)
    as (w' & out & Hrun & _ & Hlen).
  - exact demo_shuffle_perm.
  - vm_compute. reflexivity.
  - vm_compute. eauto.
  - vm_compute. reflexivity.
  - by_computation.
  - by_computation.
  - exists w', out. split; [exact Hrun|]. rewrite Hlen. reflexivity.
Defined.

Lemma dev_unknown_source_witness :
  (get_dev_examples unit "d" "X" None demo_world).2 = Raise KeyError.
Proof.
  destruct (dev_unknown_source unit "d" "X" None demo_world demo_dev)
    as [_ Hraise].
  - reflexivity.
  - vm_compute. reflexivity.
  - eapply Hraise.
    + vm_compute. reflexivity.
    + vm_compute. lia.
Defined.

Lemma dev_test_examples_in_file_order_witness :
  ∃ examples,
    (get_dev_examples unit "d" "X" None demo_frozen).2 = Ok examples
    ∧ (InputExample.example_id <$> examples) = ["train-2"]
    ∧ (InputExample.question <$> examples) = ["d2"].
Proof.
  destruct (dev_test_examples_in_file_order unit "d" "X" None demo_frozen
              (LList ["false"; "true"]) demo_dev demo_test)
    as [(examples & Hrun & _ & _) _].
  - vm_compute. reflexivity.
  - vm_compute. reflexivity.
  - vm_compute. reflexivity.
  - by_computation.
  - by_computation.
  - exists examples. split; [exact Hrun|].
    revert Hrun. vm_compute. intros [= <-]. split; reflexivity.
Defined.

End SmallInstanceMore.
